(** * Malspy: feature extraction and risk fusion

    A shallow embedding of [Backend/app/analyzer.py], [Backend/app/risk_model.py],
    [Backend/app/ml_model.py] and the three analysis endpoints of
    [Backend/app/main.py], with the properties of the specification stated
    and settled against it.

    Modelling conventions.
    - Python [float] is IEEE 754 binary64: it is modelled by Rocq's primitive
      [float], whose operations are the same binary64 operations.
    - Python [str] is [string]; raw [bytes] are [list ascii].
    - A Python [set] of strings is a [gset string]; [sorted] is a merge sort
      on the lexicographic order of strings.
    - A call that may raise returns [Exc]; [try]/[except] is a [match] on it.
    - androguard's objects are records holding what each accessor returns. *)

Set Warnings "-inexact-float,-clear-no-such-hyp".
From Stdlib Require Import ZArith Floats Uint63 Lia Bool Ascii String.
From stdpp Require Import gmap strings list sorting.

Local Open Scope string_scope.

(** ** Python built-ins *)

Module Py.

(** An exception carries its message ([str(e)]). *)
Inductive Exc (A : Type) : Type :=
  | Ret (a : A)
  | Raise (e : string).
Arguments Ret {A} a.
Arguments Raise {A} e.

Definition bind {A B} (m : Exc A) (k : A -> Exc B) : Exc B :=
  match m with
  | Ret a => k a
  | Raise e => Raise e
  end.

(** [x or []] *)
Definition or_nil {A} (o : option (list A)) : list A :=
  match o with
  | Some (x :: l) => x :: l
  | _ => []
  end.

(** [x in s] on strings: [x] occurs in [s] as a contiguous substring. *)
Fixpoint str_in (x s : string) : bool :=
  String.prefix x s ||
  match s with
  | EmptyString => false
  | String _ s' => str_in x s'
  end.

(** [any(x in p for x in xs)] *)
Definition any_in (xs : list string) (p : string) : bool :=
  existsb (fun x => str_in x p) xs.

(** [any(x in s for s in ss)] *)
Definition any_contains (x : string) (ss : list string) : bool :=
  existsb (fun s => str_in x s) ss.

Definition ascii_lower (c : ascii) : ascii :=
  let n := N_of_ascii c in
  if (65 <=? n)%N && (n <=? 90)%N then ascii_of_N (n + 32) else c.

(** [s.lower()], on ASCII text. *)
Fixpoint lower (s : string) : string :=
  match s with
  | EmptyString => EmptyString
  | String c s' => String (ascii_lower c) (lower s')
  end.

Fixpoint rev_string (s acc : string) : string :=
  match s with
  | EmptyString => acc
  | String c s' => rev_string s' (String c acc)
  end.

(** [s.endswith(suffix)] *)
Definition endswith (s suffix : string) : bool :=
  String.prefix (rev_string suffix EmptyString) (rev_string s EmptyString).

(** [os.path.basename(p)]: what follows the last slash. *)
Fixpoint basename_aux (p acc : string) : string :=
  match p with
  | EmptyString => rev_string acc EmptyString
  | String c p' =>
      if Ascii.eqb c "/"%char then basename_aux p' EmptyString else basename_aux p' (String c acc)
  end.
Definition basename (p : string) : string := basename_aux p EmptyString.

(** The order Python compares [str] by, and [sorted]. *)
Definition str_le (a b : string) : Prop := String.leb a b.
#[global] Instance str_le_dec a b : Decision (str_le a b).
Proof. unfold str_le. apply _. Defined.

Definition sorted (s : gset string) : list string :=
  merge_sort str_le (elements s).

(** [sorted(set(l))] *)
Definition sorted_set (l : list string) : list string :=
  sorted (list_to_set l).

(** ** [float] *)

(** [float(n)] for a length [n]; lengths are below [2^63], where the
    conversion through [Uint63] is exact. *)
Definition of_nat (n : nat) : float :=
  PrimFloat.of_uint63 (Uint63.of_Z (Z.of_nat n)).

(** [min(a, b)]: [b] replaces [a] when [b < a]. *)
Definition fmin (a b : float) : float := if (b <? a)%float then b else a.
(** [max(a, b)]: [b] replaces [a] when [b > a]. *)
Definition fmax (a b : float) : float := if (a <? b)%float then b else a.

Definition flt (a b : float) : bool := (a <? b)%float.
Definition fle (a b : float) : bool := (a <=? b)%float.
(** [a >= b] *)
Definition fge (a b : float) : bool := (b <=? a)%float.

End Py.
Export Py.

Notation "'let!' x ':=' m 'in' k" := (Py.bind m (fun x => k))
  (at level 10, x name, m at level 200, k at level 200).

(** ** The [re] patterns of [analyzer.py]

    The two byte patterns are built from character classes, sequence,
    ordered alternation, the greedy [?] and [+] (on a class) and the word
    boundary. [run] is the backtracking matcher of Python's [re]: it tries
    the alternatives in the pattern's order and hands each way of matching
    to the continuation until one succeeds. *)

Module Re.

Inductive regex : Type :=
  | Eps
  | Cls (p : ascii -> bool)
  | Cat (r1 r2 : regex)
  | Alt (r1 r2 : regex)
  | Opt (r : regex)
  | Plus (p : ascii -> bool)
  | WordB.

Definition code (c : ascii) : N := N_of_ascii c.
Definition between (lo hi : ascii) (c : ascii) : bool :=
  (code lo <=? code c)%N && (code c <=? code hi)%N.
Definition is_char (a : ascii) (c : ascii) : bool := Ascii.eqb a c.
(** [\d] of a bytes pattern *)
Definition digit : ascii -> bool := between "0" "9".
(** [\w] of a bytes pattern *)
Definition word (c : ascii) : bool :=
  between "a" "z" c || between "A" "Z" c || digit c || is_char "_" c.
(** [\s] of a bytes pattern: space, tab, newline, return, form feed, vertical tab *)
Definition space (c : ascii) : bool :=
  (code c =? 32)%N || ((9 <=? code c)%N && (code c <=? 13)%N).

Fixpoint lit (s : string) : regex :=
  match s with
  | EmptyString => Eps
  | String c s' => Cat (Cls (is_char c)) (lit s')
  end.

Definition is_word (o : option ascii) : bool :=
  match o with
  | Some c => word c
  | None => false
  end.

(** The continuation receives the byte before the current position and
    the input left; it answers with the input left after the whole match. *)
Definition cont := option ascii -> list ascii -> option (list ascii).

Fixpoint plus_loop (p : ascii -> bool) (prev : ascii) (s : list ascii) (k : cont)
  : option (list ascii) :=
  match s with
  | c :: s' =>
      if p c then
        match plus_loop p c s' k with
        | Some x => Some x
        | None => k (Some prev) s
        end
      else k (Some prev) s
  | [] => k (Some prev) []
  end.

Fixpoint run (r : regex) (prev : option ascii) (s : list ascii) (k : cont)
  : option (list ascii) :=
  match r with
  | Eps => k prev s
  | Cls p =>
      match s with
      | c :: s' => if p c then k (Some c) s' else None
      | [] => None
      end
  | Cat r1 r2 => run r1 prev s (fun prev' s' => run r2 prev' s' k)
  | Alt r1 r2 =>
      match run r1 prev s k with
      | Some x => Some x
      | None => run r2 prev s k
      end
  | Opt r1 =>
      match run r1 prev s k with
      | Some x => Some x
      | None => k prev s
      end
  | Plus p =>
      match s with
      | c :: s' => if p c then plus_loop p c s' k else None
      | [] => None
      end
  | WordB => if xorb (is_word prev) (is_word (head s)) then k prev s else None
  end.

(** [pattern.match] at one position: the input left after the match. *)
Definition match_here (r : regex) (prev : option ascii) (s : list ascii)
  : option (list ascii) :=
  run r prev s (fun _ rest => Some rest).

(** [m.group(0)] for [m] of [pattern.finditer(s)]: the scan goes left to
    right, and after a match resumes where the match ended ([skip] counts
    the bytes of the last match still to pass). *)
Fixpoint scan (r : regex) (skip : nat) (prev : option ascii) (s : list ascii)
  : list (list ascii) :=
  match s with
  | [] =>
      match skip, match_here r prev [] with
      | O, Some _ => [[]]
      | _, _ => []
      end
  | c :: s' =>
      match skip with
      | S n => scan r n (Some c) s'
      | O =>
          match match_here r prev s with
          | Some rest =>
              let n := (length s - length rest)%nat in
              take n s :: scan r (pred n) (Some c) s'
          | None => scan r O (Some c) s'
          end
      end
  end.

Definition finditer (r : regex) (s : list ascii) : list (list ascii) :=
  scan r O None s.
End Re.

(** ** androguard, as [analyzer.py] uses it *)

Module Androguard.

(** One cross-reference of [method.get_xref_to()]. *)
Record Xref := { class_name : string; name : string }.
Record Method := { get_xref_to : Exc (list Xref) }.
Record Class := { get_methods : Exc (list Method) }.
(** [dx] *)
Record Analysis := { get_classes : Exc (list Class) }.
(** [d] *)
Record Dex := { get_files : Exc (list string) }.
(** [a]; an intent filter is given by its keys. *)
Record APK := {
  get_package : option string;
  get_permissions : option (list string);
  get_receivers : option (list string);
  get_services : option (list string);
  get_providers : option (list string);
  get_intent_filters : string -> Exc (list (list string));
  get_min_sdk_version : option string;
  get_target_sdk_version : option string;
  get_main_activity : option string
}.

End Androguard.
Export Androguard.

(** ** [analyzer.py] *)

Module Analyzer.

Definition SUSPICIOUS_API_SUBSTRINGS : list string := [
  "java/lang/Runtime;->exec";
  "dalvik/system/DexClassLoader;-><init>";
  "java/lang/reflect/Method;->invoke";
  "android/telephony/SmsManager;->sendTextMessage";
  "javax/crypto/Cipher;->init";
  "java/net/HttpURLConnection;->connect";
  "okhttp3/OkHttpClient;->newCall";
  "org/apache/http/client/HttpClient;->execute";
  "java/net/URL;->openConnection"
].

Import Re.

(** [URL_RE]: http, an optional s, a colon and two slashes, then one or
    more bytes that are neither white space, a single or double quote, nor
    an angle bracket. *)
Definition url_char (c : ascii) : bool :=
  negb (space c || (code c =? 39)%N || (code c =? 34)%N || is_char "<" c || is_char ">" c).
Definition URL_RE : regex :=
  Cat (lit "http") (Cat (Opt (lit "s")) (Cat (lit "://") (Plus url_char))).

(** [(?:25[0-5]|2[0-4]\d|[01]?\d?\d)] *)
Definition octet : regex :=
  Alt (Cat (lit "25") (Cls (between "0" "5")))
    (Alt (Cat (lit "2") (Cat (Cls (between "0" "4")) (Cls digit)))
       (Cat (Opt (Cls (between "0" "1"))) (Cat (Opt (Cls digit)) (Cls digit)))).
Definition octet_dot : regex := Cat octet (lit ".").
(** [IP_RE]: [\b(?:(?:25[0-5]|2[0-4]\d|[01]?\d?\d)\.){3}(?:25[0-5]|2[0-4]\d|[01]?\d?\d)\b] *)
Definition IP_RE : regex :=
  Cat WordB (Cat (Cat octet_dot (Cat octet_dot octet_dot)) (Cat octet WordB)).

(** [f"{s.class_name}->{s.name}"] *)
Definition called (s : Xref) : string := class_name s ++ "->" ++ name s.

(** *** [_match_suspicious_apis]

    [hits] is the set the loops add to; an exception of
    [method.get_xref_to()] skips the method, one of [cls.get_methods()] or
    [dx.get_classes()] ends the scan with the hits found so far. *)
Definition add_needles (c : string) (hits : gset string) : gset string :=
  foldl (fun h needle => if str_in needle c then {[needle]} ∪ h else h)
    hits SUSPICIOUS_API_SUBSTRINGS.

Definition match_method (m : Method) (hits : gset string) : gset string :=
  match get_xref_to m with
  | Ret xs => foldl (fun h s => add_needles (called s) h) hits xs
  | Raise _ => hits
  end.

Fixpoint match_classes (cs : list Class) (hits : gset string) : gset string :=
  match cs with
  | [] => hits
  | cls :: cs' =>
      match get_methods cls with
      | Ret ms => match_classes cs' (foldl (fun h m => match_method m h) hits ms)
      | Raise _ => hits
      end
  end.

Definition matched_hits (dx : Analysis) : gset string :=
  match get_classes dx with
  | Ret cs => match_classes cs ∅
  | Raise _ => ∅
  end.

Definition _match_suspicious_apis (dx : Analysis) : list string :=
  sorted (matched_hits dx).

(** *** The classified scan of [dynamic_features] *)

Definition is_network (needle : string) : bool :=
  str_in "Http" needle || str_in "URL;" needle || str_in "OkHttp" needle
  || str_in "http" (lower needle).

(** The state of the loops: [(net_hits, sys_hits)]. *)
Definition add_classified (c : string) (st : gset string * gset string)
  : gset string * gset string :=
  foldl (fun '(net, sys) needle =>
           if str_in needle c then
             if is_network needle then ({[needle]} ∪ net, sys)
             else (net, {[needle]} ∪ sys)
           else (net, sys))
    st SUSPICIOUS_API_SUBSTRINGS.

Definition classify_method (m : Method) (st : gset string * gset string) :=
  match get_xref_to m with
  | Ret xs => foldl (fun h s => add_classified (called s) h) st xs
  | Raise _ => st
  end.

Fixpoint classify_classes (cs : list Class) (st : gset string * gset string) :=
  match cs with
  | [] => st
  | cls :: cs' =>
      match get_methods cls with
      | Ret ms => classify_classes cs' (foldl (fun h m => classify_method m h) st ms)
      | Raise _ => st
      end
  end.

Definition classified_hits (dx : Analysis) : gset string * gset string :=
  match get_classes dx with
  | Ret cs => classify_classes cs (∅, ∅)
  | Raise _ => (∅, ∅)
  end.

(** *** The feature records *)

Record StaticFeatures := {
  package : option string;
  permissions : list string;
  receivers : list string;
  services : list string;
  providers : list string;
  intents : list string;
  suspicious_apis : list string;
  apk_size : nat;
  min_sdk_version : option string;
  target_sdk_version : option string;
  main_activity : option string
}.

Record BehaviorSummary := {
  n_network_calls : nat;
  n_system_indicators : nat;
  n_native_libs : nat
}.

Record DynamicFeatures := {
  apk : string;
  network_calls : list string;
  network_ips : list string;
  system_calls : list string;
  native_libs : list string;
  sms_used : bool;
  status : string;
  behavior_summary : BehaviorSummary
}.

(** What [dynamic_features] returns: the record, or [{"error": ...}]. *)
Inductive DynamicLogs :=
  | Logs (d : DynamicFeatures)
  | ErrorDict (error : string).

(** [dyn.get("network_calls", [])] and the like. *)
Definition get_network_calls (d : DynamicLogs) : list string :=
  match d with Logs r => network_calls r | ErrorDict _ => [] end.
Definition get_system_calls (d : DynamicLogs) : list string :=
  match d with Logs r => system_calls r | ErrorDict _ => [] end.
Definition get_sms_used (d : DynamicLogs) : bool :=
  match d with Logs r => sms_used r | ErrorDict _ => false end.
(** [dynamic.get("behavior_summary", {}).get("n_system_indicators", 0)] *)
Definition get_n_system_indicators (d : DynamicLogs) : nat :=
  match d with Logs r => n_system_indicators (behavior_summary r) | ErrorDict _ => O end.

Section Files.
(** The files on disk, by path; [AnalyzeAPK] and the decoder of
    [bytes.decode(errors="ignore")] are the environment's. *)
Variable parse_apk : list ascii -> Exc (APK * Dex * Analysis).
Variable decode_ignore : list ascii -> string.
Variable fs : gmap string (list ascii).

Definition AnalyzeAPK (apk_path : string) : Exc (APK * Dex * Analysis) :=
  match fs !! apk_path with
  | Some content => parse_apk content
  | None => Raise "No such file or directory"
  end.

(** [os.path.getsize] *)
Definition getsize (apk_path : string) : Exc nat :=
  match fs !! apk_path with
  | Some content => Ret (length content)
  | None => Raise "No such file or directory"
  end.

Definition _extract_strings_from_apk (apk_path : string) : list ascii :=
  match fs !! apk_path with
  | Some content => content
  | None => []
  end.

Definition receiver_intents (a : APK) : list string :=
  match get_intent_filters a "receiver" with
  | Ret filters => concat filters
  | Raise _ => []
  end.

Definition static_features (apk_path : string) : Exc StaticFeatures :=
  let! parsed := AnalyzeAPK apk_path in
  let '(a, d, dx) := parsed in
  let permissions := or_nil (get_permissions a) in
  let receivers := or_nil (get_receivers a) in
  let services := or_nil (get_services a) in
  let providers := or_nil (get_providers a) in
  let intents := receiver_intents a in
  let suspicious_apis := _match_suspicious_apis dx in
  let! size := getsize apk_path in
  Ret {| package := get_package a;
         permissions := sorted_set permissions;
         receivers := receivers;
         services := services;
         providers := providers;
         intents := sorted_set intents;
         suspicious_apis := suspicious_apis;
         apk_size := size;
         min_sdk_version := get_min_sdk_version a;
         target_sdk_version := get_target_sdk_version a;
         main_activity := get_main_activity a |}.

Definition find_decoded (r : regex) (raw : list ascii) : gset string :=
  list_to_set (map decode_ignore (finditer r raw)).

Definition collect_native_libs (d : Dex) : list string :=
  match get_files d with
  | Ret files => map basename (filter (fun f => Is_true (endswith f ".so")) files)
  | Raise _ => []
  end.

Definition dynamic_features (apk_path : string) : DynamicLogs :=
  match AnalyzeAPK apk_path with
  | Raise e => ErrorDict ("AnalyzeAPK failed: " ++ e)
  | Ret (a, d, dx) =>
      let raw := _extract_strings_from_apk apk_path in
      let urls := find_decoded URL_RE raw in
      let ips := find_decoded IP_RE raw in
      let '(net_hits, sys_hits) := classified_hits dx in
      let native_libs := collect_native_libs d in
      let sms_used :=
        any_contains "SmsManager"
          (elements (net_hits ∪ sys_hits ∪ list_to_set SUSPICIOUS_API_SUBSTRINGS)) in
      Logs {| apk := apk_path;
              network_calls := sorted urls;
              network_ips := sorted ips;
              system_calls :=
                if decide (sys_hits = ∅) then sorted net_hits else sorted sys_hits;
              native_libs := native_libs;
              sms_used := sms_used;
              status := "heuristic-dynamic-extraction-complete";
              behavior_summary :=
                {| n_network_calls := size urls;
                   n_system_indicators :=
                     if decide (size sys_hits = O) then size net_hits else size sys_hits;
                   n_native_libs := length native_libs |} |}
  end.

(** *** [determine_action] *)
Definition determine_action (verdict : string) (risk_score : float) : string :=
  let v := lower verdict in
  if String.eqb v "benign" then "Safe to use"
  else if String.eqb v "adware" then "Contains ads or trackers - use caution"
  else if String.eqb v "spyware" then "Spyware detected - avoid installation"
  else if String.eqb v "trojan" then "Trojan behaviour - uninstall or block immediately"
  else if String.eqb v "ransomware" then
    "Ransomware detected - do not install and isolate device"
  else "Unknown - manual review recommended".

(** *** [hybrid_features]: the bucketed count of the combined summary *)
Definition bucket (suspicious_count : nat) : float * string :=
  if (suspicious_count <=? 2)%nat then (0.1%float, "benign")
  else if (suspicious_count <=? 4)%nat then (0.35%float, "adware")
  else if (suspicious_count <=? 6)%nat then (0.55%float, "spyware")
  else if (suspicious_count <=? 9)%nat then (0.75%float, "trojan")
  else (0.9%float, "ransomware").

Record Summary := {
  static_suspicious : nat;
  dynamic_network_indicators : nat;
  dynamic_sys_indicators : nat
}.

Record HybridFeatures := {
  static : StaticFeatures;
  dynamic : DynamicLogs;
  summary : Summary;
  verdict : string;
  risk_score : float;
  recommended_action : string
}.

Definition suspicious_count_of (static : StaticFeatures) (dynamic : DynamicLogs) : nat :=
  (length (suspicious_apis static) + get_n_system_indicators dynamic)%nat.

Definition hybrid_features (apk_path : string) : Exc HybridFeatures :=
  let! static := static_features apk_path in
  let dynamic := dynamic_features apk_path in
  let suspicious_count := suspicious_count_of static dynamic in
  let '(risk_score, verdict) := bucket suspicious_count in
  let action := determine_action verdict risk_score in
  Ret {| static := static;
         dynamic := dynamic;
         summary :=
           {| static_suspicious := length (suspicious_apis static);
              dynamic_network_indicators := length (get_network_calls dynamic);
              dynamic_sys_indicators := length (get_system_calls dynamic) |};
         verdict := verdict;
         risk_score := risk_score;
         recommended_action := action |}.
End Files.

End Analyzer.

(** ** [risk_model.py]: the normalised scorers

    The scorers read dictionaries handed in by the caller, so a key may be
    absent ([None]). The third component of their result, the [explain]
    text, is left out. *)

Module RiskModel.

Definition DANGEROUS_PERMISSIONS : gset string := {[
  "android.permission.SEND_SMS";
  "android.permission.RECEIVE_SMS";
  "android.permission.READ_SMS";
  "android.permission.CALL_PHONE";
  "android.permission.READ_CONTACTS";
  "android.permission.WRITE_CONTACTS";
  "android.permission.READ_CALL_LOG";
  "android.permission.WRITE_CALL_LOG";
  "android.permission.RECEIVE_BOOT_COMPLETED";
  "android.permission.SYSTEM_ALERT_WINDOW";
  "android.permission.REQUEST_INSTALL_PACKAGES";
  "android.permission.WRITE_SETTINGS";
  "android.permission.READ_PHONE_STATE";
  "android.permission.RECORD_AUDIO";
  "android.permission.CAMERA"
]}.

Definition SUSPICIOUS_APIS : list string := [
  "java/lang/Runtime;->exec";
  "dalvik/system/DexClassLoader;-><init>";
  "java/lang/reflect/Method;->invoke";
  "android/telephony/SmsManager;->sendTextMessage";
  "javax/crypto/Cipher;->init"
].

Definition NETWORK_INDICATORS : list string := ["http://"; "https://"; "ftp://"].

Definition suspicious_sys : gset string :=
  {[ "execve"; "chmod"; "chown"; "ptrace"; "kill" ]}.

(** [features]: the keys the scorers read. *)
Record Features := {
  f_permissions : option (list string);
  f_suspicious_apis : option (list string);
  f_intents : option (list string)
}.

(** [logs]: the keys the scorers read, and how many other keys there are. *)
Record LogDict := {
  l_network_calls : option (list string);
  l_system_calls : option (list string);
  l_other_keys : nat
}.

(** [d.get(key, [])] *)
Definition get_list (o : option (list string)) : list string := default [] o.

(** The truth value of [logs]: neither [None] nor the empty dictionary. *)
Definition truthy (logs : option LogDict) : bool :=
  match logs with
  | None => false
  | Some d =>
      bool_decide (is_Some (l_network_calls d)) || bool_decide (is_Some (l_system_calls d))
      || negb (l_other_keys d =? 0)%nat
  end.

Definition clamp01 (risk : float) : float := fmax 0 (fmin 1 risk).

Definition static_verdict (risk : float) : string :=
  if fge risk 0.70 then "malicious" else if fge risk 0.40 then "suspicious" else "benign".

Definition dynamic_verdict (risk : float) : string :=
  if fge risk 0.65 then "malicious" else if fge risk 0.35 then "suspicious" else "benign".

Definition n_danger_of (features : Features) : nat :=
  size ((list_to_set (get_list (f_permissions features)) : gset string) ∩ DANGEROUS_PERMISSIONS).

Definition n_apis_of (features : Features) : nat :=
  size (list_to_set (get_list (f_suspicious_apis features)) : gset string).

Definition intent_boot_of (features : Features) : bool :=
  any_contains "BOOT_COMPLETED"
    (elements (list_to_set (get_list (f_intents features)) : gset string)).

Definition static_score (features : Features) : float * string :=
  let n_danger := n_danger_of features in
  let perm_score := (of_nat n_danger / of_nat (Nat.max 1 (size DANGEROUS_PERMISSIONS)))%float in
  let api_score :=
    (of_nat (n_apis_of features) / of_nat (Nat.max 1 (length SUSPICIOUS_APIS)))%float in
  let intent_score := (if intent_boot_of features then 1.0 else 0.0)%float in
  let risk := (0.5 * perm_score + 0.3 * api_score + 0.2 * intent_score)%float in
  let risk := clamp01 risk in
  (risk, static_verdict risk).

Definition n_net_hits_of (logs : LogDict) : nat :=
  length (filter (fun n => Is_true (any_in NETWORK_INDICATORS n))
            (or_nil (l_network_calls logs))).

Definition n_sys_hits_of (logs : LogDict) : nat :=
  size ((list_to_set (or_nil (l_system_calls logs)) : gset string) ∩ suspicious_sys).

Definition dynamic_score (logs : LogDict) : float * string :=
  let net_score := fmin 1.0 (of_nat (n_net_hits_of logs) / 5.0)%float in
  let sys_score := fmin 1.0 (of_nat (n_sys_hits_of logs) / 3.0)%float in
  let risk := (0.6 * sys_score + 0.4 * net_score)%float in
  let risk := clamp01 risk in
  (risk, dynamic_verdict risk).

Definition hybrid_score (features : Features) (logs : option LogDict) : float * string :=
  let '(sr, sv) := static_score features in
  let risk :=
    match logs with
    | Some d =>
        if truthy logs then
          let '(dr, dv) := dynamic_score d in ((sr + dr) / 2.0)%float
        else fst (static_score features)
    | None => fst (static_score features)
    end in
  (risk, static_verdict risk).

End RiskModel.

(** ** [ml_model.py] *)

Module MlModel.
Import Analyzer.

Definition dangerous : gset string := {[
  "android.permission.SEND_SMS"; "android.permission.RECEIVE_SMS";
  "android.permission.READ_SMS"; "android.permission.CALL_PHONE";
  "android.permission.READ_CONTACTS"; "android.permission.WRITE_CONTACTS";
  "android.permission.READ_CALL_LOG"; "android.permission.WRITE_CALL_LOG";
  "android.permission.RECEIVE_BOOT_COMPLETED"; "android.permission.SYSTEM_ALERT_WINDOW";
  "android.permission.REQUEST_INSTALL_PACKAGES"; "android.permission.WRITE_SETTINGS";
  "android.permission.READ_PHONE_STATE"; "android.permission.RECORD_AUDIO";
  "android.permission.CAMERA"
]}.

Definition suspicious_sys : gset string :=
  {[ "execve"; "chmod"; "chown"; "ptrace"; "kill" ]}.

Definition extract_vector (static_feats : StaticFeatures) (dynamic_metrics : DynamicLogs)
  : list nat :=
  let perms : gset string := list_to_set (permissions static_feats) in
  let n_danger := size (perms ∩ dangerous) in
  let n_api := length (suspicious_apis static_feats) in
  let net_calls := get_network_calls dynamic_metrics in
  let sys_calls := get_system_calls dynamic_metrics in
  let n_net := length net_calls in
  let n_sys := size ((list_to_set sys_calls : gset string) ∩ suspicious_sys) in
  let has_boot := if any_contains "BOOT_COMPLETED" (intents static_feats) then 1%nat else 0%nat in
  [n_danger; n_api; n_net; n_sys; has_boot].

End MlModel.

(** ** [main.py]: the three analysis endpoints *)

Module Main.
Import Analyzer MlModel.

(** What an endpoint answers: the JSON body, or the [HTTPException] raised. *)
Inductive Response (A : Type) : Type :=
  | OK (body : A)
  | HTTPException (status_code : nat) (detail : string).
Arguments OK {A} body.
Arguments HTTPException {A} status_code detail.

Record Report (P : Type) := {
  analysis_type : string;
  verdict : string;
  risk_score : float;
  recommended_action : string;
  payload : P
}.
Arguments analysis_type {P} _.
Arguments verdict {P} _.
Arguments risk_score {P} _.
Arguments recommended_action {P} _.
Arguments payload {P} _.

Record HybridPayload := {
  style : string;
  static_features_of : StaticFeatures;
  dynamic_logs_of : DynamicLogs
}.

(** The four-way thresholds shared by the endpoints. *)
Definition verdict_of (risk_score : float) : string :=
  if flt risk_score 0.2 then "benign"
  else if flt risk_score 0.4 then "adware"
  else if flt risk_score 0.6 then "spyware"
  else if flt risk_score 0.8 then "trojan"
  else "ransomware".

Definition DANGEROUS_WORDS : list string := ["SMS"; "CALL"; "INTERNET"; "RECORD_AUDIO"; "CAMERA"].

(** [sum(1 for p in feats.get("permissions", []) if any(x in p for x in [...]))] *)
Definition n_dangerous_perms_of (feats : StaticFeatures) : nat :=
  length (filter (fun p => Is_true (any_in DANGEROUS_WORDS p)) (permissions feats)).

Definition static_risk (feats : StaticFeatures) : float :=
  fmin 1.0 (0.2 * of_nat (n_dangerous_perms_of feats)
            + 0.15 * of_nat (length (suspicious_apis feats)))%float.

Definition dynamic_risk (dyn_logs : DynamicLogs) : float :=
  let n_network := length (get_network_calls dyn_logs) in
  let n_syscalls := length (get_system_calls dyn_logs) in
  let sms_used := get_sms_used dyn_logs in
  fmin 1.0 (0.2 * of_nat n_network + 0.2 * of_nat n_syscalls
            + (if sms_used then 0.3 else 0))%float.

Definition heuristic_score (feats : StaticFeatures) (dyn_logs : DynamicLogs) : float :=
  let n_suspicious_apis := length (suspicious_apis feats) in
  let n_dangerous_perms := n_dangerous_perms_of feats in
  let n_network := length (get_network_calls dyn_logs) in
  let n_syscalls := length (get_system_calls dyn_logs) in
  let sms_used := get_sms_used dyn_logs in
  fmin 1.0 (0.15 * of_nat n_dangerous_perms + 0.15 * of_nat n_suspicious_apis
            + 0.2 * of_nat n_network + 0.2 * of_nat n_syscalls
            + (if sms_used then 0.2 else 0))%float.

Section Endpoints.
Variable parse_apk : list ascii -> Exc (APK * Dex * Analysis).
Variable decode_ignore : list ascii -> string.
(** [MODEL]: the loaded classifier, if any; it answers one feature row
    with the probability of the positive class, or raises. *)
Variable MODEL : option (list nat -> Exc float).
(** The files on disk and the path [TempFile] hands out. *)
Variable fs : gmap string (list ascii).
Variable tmp : string.

(** The disk inside [with TempFile(...) as tmp], after [tmp.write_bytes(content)]. *)
Definition staged (content : list ascii) : gmap string (list ascii) :=
  <[tmp := content]> fs.

Definition extract_static_features (content : list ascii) : Exc StaticFeatures :=
  static_features parse_apk (staged content) tmp.
Definition analyze_dynamic_features (content : list ascii) : DynamicLogs :=
  dynamic_features parse_apk decode_ignore (staged content) tmp.

Definition upload_check {A} (filename : string) (content : list ascii)
    (run : Response A) : Response A :=
  if negb (endswith filename ".apk") then HTTPException 400 "Please upload an .apk file"
  else match content with
       | [] => HTTPException 400 "Empty file received"
       | _ :: _ => run
       end.

Definition analyze_static (filename : string) (content : list ascii)
  : Response (Report StaticFeatures) :=
  upload_check filename content
    match extract_static_features content with
    | Raise e => HTTPException 500 ("Static analysis failed: " ++ e)
    | Ret feats =>
        let risk_score := static_risk feats in
        let verdict := verdict_of risk_score in
        let action := determine_action verdict risk_score in
        OK {| analysis_type := "static";
              verdict := verdict;
              risk_score := risk_score;
              recommended_action := action;
              payload := feats |}
    end.

Definition analyze_dynamic (filename : string) (content : list ascii)
  : Response (Report DynamicLogs) :=
  upload_check filename content
    (let dyn_logs := analyze_dynamic_features content in
     let risk_score := dynamic_risk dyn_logs in
     let verdict := verdict_of risk_score in
     let action := determine_action verdict risk_score in
     OK {| analysis_type := "dynamic";
           verdict := verdict;
           risk_score := risk_score;
           recommended_action := action;
           payload := dyn_logs |}).

Definition analyze_hybrid (filename : string) (content : list ascii)
  : Response (Report HybridPayload) :=
  upload_check filename content
    match extract_static_features content with
    | Raise e => HTTPException 500 ("Hybrid analysis failed: " ++ e)
    | Ret feats =>
        let dyn_logs := analyze_dynamic_features content in
        let heuristic := heuristic_score feats dyn_logs in
        let scored :=
          match MODEL with
          | Some predict_proba =>
              let vec := extract_vector feats dyn_logs in
              predict_proba vec
          | None => Ret heuristic
          end in
        match scored with
        | Raise e => HTTPException 500 ("Hybrid analysis failed: " ++ e)
        | Ret risk_score =>
            let verdict := verdict_of risk_score in
            let action := determine_action verdict risk_score in
            let style := if String.eqb verdict "benign" then "#4CAF50" else "#F44336" in
            OK {| analysis_type := "hybrid";
                  verdict := verdict;
                  risk_score := risk_score;
                  recommended_action := action;
                  payload := {| style := style;
                                static_features_of := feats;
                                dynamic_logs_of := dyn_logs |} |}
        end
    end.
End Endpoints.

End Main.

(** ** The words of the specification

    What the specification says in words, for the statements below to
    compare with what the code computes. *)

Module Spec.
Import Analyzer Main.

(** [x] occurs in [s]: [s] is some text, then [x], then some text. *)
Definition occurs (x s : string) : Prop := exists pre suf, s = pre ++ x ++ suf.

(** The fixed catalog of fifteen dangerous permissions. *)
Definition DANGEROUS_CATALOG : list string := [
  "android.permission.SEND_SMS"; "android.permission.RECEIVE_SMS";
  "android.permission.READ_SMS"; "android.permission.CALL_PHONE";
  "android.permission.READ_CONTACTS"; "android.permission.WRITE_CONTACTS";
  "android.permission.READ_CALL_LOG"; "android.permission.WRITE_CALL_LOG";
  "android.permission.RECEIVE_BOOT_COMPLETED"; "android.permission.SYSTEM_ALERT_WINDOW";
  "android.permission.REQUEST_INSTALL_PACKAGES"; "android.permission.WRITE_SETTINGS";
  "android.permission.READ_PHONE_STATE"; "android.permission.RECORD_AUDIO";
  "android.permission.CAMERA"
].

(** The size of the intersection of a collection with a catalog: how many
    entries of the catalog are in the collection. *)
Definition intersection_size (catalog items : list string) : nat :=
  length (filter (fun c => c ∈ items) catalog).

(** A needle is network-related when its text contains Http, URL; or
    OkHttp, or contains http whatever the case of its letters. *)
Definition network_related (needle : string) : Prop :=
  occurs "Http" needle \/ occurs "URL;" needle \/ occurs "OkHttp" needle
  \/ occurs "http" (lower needle).

(** The pair (network hits, system hits) splits a hit set: together they
    are the set, the first holds network needles only and the second none. *)
Definition splits (st : gset string * gset string) (hits : gset string) : Prop :=
  st.1 ∪ st.2 = hits
  /\ (forall x, x ∈ st.1 -> is_network x = true)
  /\ (forall x, x ∈ st.2 -> is_network x = false).

(** The five-item catalog of suspicious system calls. *)
Definition SYSCALL_CATALOG : list string := ["execve"; "chmod"; "chown"; "ptrace"; "kill"].

(** A score between 0 and 1. *)
Definition in_unit (r : float) : Prop := fle 0 r = true /\ fle r 1 = true.

(** The four-way threshold table: below 0.2 benign, below 0.4 adware, below
    0.6 spyware, below 0.8 trojan, else ransomware. *)
Definition five_level (r : float) : string :=
  if flt r 0.2 then "benign"
  else if flt r 0.4 then "adware"
  else if flt r 0.6 then "spyware"
  else if flt r 0.8 then "trojan"
  else "ransomware".

(** A three-level table: at or above [hi] malicious, at or above [lo]
    suspicious, else benign. *)
Definition three_level (hi lo r : float) : string :=
  if fge r hi then "malicious" else if fge r lo then "suspicious" else "benign".

(** Dynamic logs are supplied: there is a dictionary and it has a key. *)
Definition supplied (logs : option RiskModel.LogDict) : Prop :=
  exists d, logs = Some d
    /\ (is_Some (RiskModel.l_network_calls d) \/ is_Some (RiskModel.l_system_calls d)
        \/ RiskModel.l_other_keys d <> 0%nat).

(** The texts a pattern stands for, the word boundary left aside. *)
Fixpoint lang (r : Re.regex) (w : list ascii) : Prop :=
  match r with
  | Re.Eps => w = []
  | Re.Cls p => exists c, w = [c] /\ p c = true
  | Re.Cat r1 r2 => exists w1 w2, w = (w1 ++ w2)%list /\ lang r1 w1 /\ lang r2 w2
  | Re.Alt r1 r2 => lang r1 w \/ lang r2 w
  | Re.Opt r1 => w = [] \/ lang r1 w
  | Re.Plus p => w <> [] /\ Forall (fun c => p c = true) w
  | Re.WordB => w = []
  end.

(** The number a run of decimal digits writes. *)
Definition number_of (o : list ascii) : N :=
  fold_left (fun acc c => (10 * acc + (Re.code c - 48))%N) o 0%N.

(** One to three decimal digits writing a number from 0 to 255. *)
Definition octet_text (o : list ascii) : Prop :=
  (1 <= length o <= 3)%nat /\ Forall (fun c => Re.digit c = true) o /\ (number_of o <= 255)%N.

(** Four octets separated by dots. *)
Definition dotted_quad (h : list ascii) : Prop :=
  exists a b c d,
    h = (a ++ "."%char :: b ++ "."%char :: c ++ "."%char :: d)%list
    /\ octet_text a /\ octet_text b /\ octet_text c /\ octet_text d.

(** How grave a verdict is, in either vocabulary. *)
Definition severity (verdict : string) : nat :=
  if String.eqb verdict "benign" then 0
  else if String.eqb verdict "adware" then 1
  else if String.eqb verdict "spyware" then 2
  else if String.eqb verdict "trojan" then 3
  else if String.eqb verdict "ransomware" then 4
  else if String.eqb verdict "suspicious" then 1
  else if String.eqb verdict "malicious" then 2
  else 5.

End Spec.

(** ** Sample inputs *)

Module Samples.
Import Analyzer Main.

Definition text (s : string) : list ascii := list_ascii_of_string s.

Definition bare_apk : APK := {|
  get_package := Some "com.example.app";
  get_permissions := None;
  get_receivers := None;
  get_services := None;
  get_providers := None;
  get_intent_filters := fun _ => Ret [];
  get_min_sdk_version := Some "21";
  get_target_sdk_version := Some "33";
  get_main_activity := None
|}.

Definition no_files : Dex := {| get_files := Ret [] |}.

(** One class with one method making the given calls. *)
Definition calling (calls : list (string * string)) : Analysis := {|
  get_classes :=
    Ret [ {| get_methods :=
               Ret [ {| get_xref_to :=
                          Ret (map (fun c => {| class_name := c.1; name := c.2 |}) calls) |} ] |} ]
|}.

Definition parse_corrupt : list ascii -> Exc (APK * Dex * Analysis) :=
  fun _ => Raise "File is not a zip file".

Definition parse_as (dx : Analysis) : list ascii -> Exc (APK * Dex * Analysis) :=
  fun _ => Ret (bare_apk, no_files, dx).

Definition decode_ascii : list ascii -> string := string_of_list_ascii.

Definition only_url_calls : Analysis :=
  calling [("Ljava/net/URL;", "openConnection")].

Definition four_network_calls : Analysis :=
  calling [("Ljava/net/HttpURLConnection;", "connect");
           ("Lokhttp3/OkHttpClient;", "newCall");
           ("Lorg/apache/http/client/HttpClient;", "execute");
           ("Ljava/net/URL;", "openConnection")].

Definition sample_fs : gmap string (list ascii) := {[ "/data/app.apk" := text "PK" ]}.

Definition features_with (perms : list string) : StaticFeatures := {|
  package := Some "com.example.app";
  permissions := perms;
  receivers := [];
  services := [];
  providers := [];
  intents := [];
  suspicious_apis := [];
  apk_size := 9;
  min_sdk_version := None;
  target_sdk_version := None;
  main_activity := None
|}.

(** A manifest asking for the network and for the contacts. *)
Definition internet_apk : APK := {|
  get_package := Some "com.example.net";
  get_permissions :=
    Some ["android.permission.INTERNET"; "android.permission.READ_CONTACTS"];
  get_receivers := None;
  get_services := None;
  get_providers := None;
  get_intent_filters := fun _ => Ret [];
  get_min_sdk_version := Some "21";
  get_target_sdk_version := Some "33";
  get_main_activity := None
|}.

Definition parse_internet : list ascii -> Exc (APK * Dex * Analysis) :=
  fun _ => Ret (internet_apk, no_files, calling []).

End Samples.

(** ** The vocabulary of the float facts

    binary64 has 53 bits of precision and exponents from -1074 to 971;
    [fexp64] is the exponent of the format for a number of a given
    magnitude. [key] maps the numbers onto triples ordered like them, NaN
    apart. *)

Module Binary64.
Local Open Scope Z_scope.

Definition fexp64 (z : Z) : Z := Z.max (z - 53) (-1074).

Definition two52 : positive := 4503599627370496.

Definition sf_nonneg (x : spec_float) : Prop := SFleb (S754_zero false) x = true.

Definition sf_one : spec_float := S754_finite false two52 (-52).
Definition sf_two : spec_float := S754_finite false two52 (-51).

Definition key (x : spec_float) : option (Z * Z * Z) :=
  match x with
  | S754_nan => None
  | S754_infinity true => Some (-2, 0, 0)
  | S754_infinity false => Some (2, 0, 0)
  | S754_zero _ => Some (0, 0, 0)
  | S754_finite false m e => Some (1, e, Zpos m)
  | S754_finite true m e => Some (-1, - e, - Zpos m)
  end.

Definition key_lt (a b : Z * Z * Z) : Prop :=
  let '(a1, a2, a3) := a in
  let '(b1, b2, b3) := b in
  a1 < b1 \/ (a1 = b1 /\ (a2 < b2 \/ (a2 = b2 /\ a3 < b3))).

Definition key_le (a b : Z * Z * Z) : Prop :=
  let '(a1, a2, a3) := a in
  let '(b1, b2, b3) := b in
  a1 < b1 \/ (a1 = b1 /\ (a2 < b2 \/ (a2 = b2 /\ a3 <= b3))).

Definition fkey (x : float) : option (Z * Z * Z) := key (Prim2SF x).

(** [x] is a number (not NaN). *)
Definition is_number (x : float) : Prop := is_Some (fkey x).

(** [c] is finite and above zero; [c] is moreover normal. *)
Definition pos_finite (c : float) : bool :=
  match Prim2SF c with
  | S754_finite false _ _ => true
  | _ => false
  end.

Definition pos_normal (c : float) : bool :=
  match Prim2SF c with
  | S754_finite false m e => (Zpos (digits2_pos m) =? 53) && (-1074 <=? e)
  | _ => false
  end.

End Binary64.

(** ** Paths and file names *)

Module PathDefs.

(** [s] ends in [suffix]: it is some text followed by [suffix]. *)
Definition ends_in (suffix s : string) : Prop := exists stem, s = stem ++ suffix.
(** The text read backwards. *)
Definition backwards (s : string) : string := rev_string s EmptyString.


End PathDefs.


(** ** The calls the signature scan looks at

    The loops of [_match_suspicious_apis] and of [dynamic_features] visit
    the cross-references of every method whose [get_xref_to()] returns, in
    the classes up to the first one whose [get_methods()] raises. *)

Module Visited.
Import Analyzer Spec.

Definition method_xrefs (m : Method) : list Xref :=
  match get_xref_to m with
  | Ret xs => xs
  | Raise _ => []
  end.

Fixpoint classes_xrefs (cs : list Class) : list Xref :=
  match cs with
  | [] => []
  | cls :: cs' =>
      match get_methods cls with
      | Ret ms => concat (map method_xrefs ms) ++ classes_xrefs cs'
      | Raise _ => []
      end
  end.

Definition visited_xrefs (dx : Analysis) : list Xref :=
  match get_classes dx with
  | Ret cs => classes_xrefs cs
  | Raise _ => []
  end.

(** The signature [x] of the table occurs in the text of the call [s]. *)
Definition found (x : string) (s : Xref) : Prop :=
  x ∈ SUSPICIOUS_API_SUBSTRINGS /\ occurs x (called s).

(** No accessor of the analysis raises. *)
Definition never_raises (dx : Analysis) : Prop :=
  exists cs, get_classes dx = Ret cs
    /\ Forall (fun cls => exists ms, get_methods cls = Ret ms
                  /\ Forall (fun m => exists xs, get_xref_to m = Ret xs) ms) cs.

End Visited.

(** ** The vocabulary of the endpoints *)

Module Verdicts.

(** The five verdicts of the endpoints and of the combined summary. *)
Definition VERDICTS : list string := ["benign"; "adware"; "spyware"; "trojan"; "ransomware"].

(** The action [determine_action] falls back on. *)
Definition UNKNOWN : string := "Unknown - manual review recommended".

End Verdicts.

(** ** Matches in their place

    A match of a pattern sits between the byte before it and the bytes
    after it, which the word boundary looks at. *)

Module Place.
Import Re Analyzer Spec Samples.

(** The byte before the position reached after [w], [prev] being the byte
    before [w]. *)
Definition last_or (prev : option ascii) (w : list ascii) : option ascii :=
  match last w with
  | Some c => Some c
  | None => prev
  end.

(** [w] is a text of the pattern [r] when [prev] is the byte before it and
    [suf] are the bytes after it. *)
Fixpoint lang_at (r : regex) (prev : option ascii) (w suf : list ascii) : Prop :=
  match r with
  | Eps => w = []
  | Cls p => exists c, w = [c] /\ p c = true
  | Cat r1 r2 =>
      exists w1 w2, w = (w1 ++ w2)%list
                    /\ lang_at r1 prev w1 (w2 ++ suf)%list
                    /\ lang_at r2 (last_or prev w1) w2 suf
  | Alt r1 r2 => lang_at r1 prev w suf \/ lang_at r2 prev w suf
  | Opt r1 => w = [] \/ lang_at r1 prev w suf
  | Plus p => w <> [] /\ Forall (fun c => p c = true) w
  | WordB => w = [] /\ xorb (is_word prev) (is_word (head suf)) = true
  end.


(** A URL as [URL_RE] cuts it out: the scheme and a body of one or more
    bytes that are neither white space, quotes nor angle brackets. *)
Definition url_text (h : list ascii) : Prop :=
  exists body, body <> [] /\ Forall (fun c => url_char c = true) body
    /\ (h = (text "http://" ++ body)%list \/ h = (text "https://" ++ body)%list).

End Place.

(** ** More sample inputs *)

Module MoreSamples.
Import Analyzer Main Samples.

(** A file with one IPv4 literal and one URL in its bytes. *)
Definition net_fs : gmap string (list ascii) :=
  {[ "/data/app.apk" := text "dns=8.8.8.8; see <http://example.org/x>" ]}.

End MoreSamples.

(** ** [main.py]: the accounts

    [users_db] maps an e-mail address to what [signup] stored for it;
    [users.json] holds what [json.dump] last wrote, or is absent. The only
    writer of the file is [signup], so every record has the five keys. The
    bodies of the requests are the ones pydantic has validated. *)

Module Auth.
Import Main.

(** The body of [POST /signup]. *)
Record UserSignup := {
  su_name : string;
  su_phone : string;
  su_email : string;
  su_password : string;
  su_gender : string;
  su_terms_accepted : bool
}.

(** The body of [POST /login]. *)
Record UserLogin := {
  lg_email : string;
  lg_password : string
}.

(** The dictionary [signup] stores under the e-mail address. *)
Record UserRecord := {
  db_name : string;
  db_phone : string;
  db_password : string;
  db_gender : string;
  db_terms_accepted : bool
}.

Record State := {
  users_db : gmap string UserRecord;
  users_file : option (gmap string UserRecord)
}.

(** The module's start: [users_db] is read from [users.json] if the file
    exists and is empty otherwise. *)
Definition startup (file : option (gmap string UserRecord)) : State :=
  {| users_db := default ∅ file; users_file := file |}.

Definition signup (user : UserSignup) (st : State) : Response string * State :=
  if negb (su_terms_accepted user) then
    (HTTPException 400 "You must accept terms and conditions", st)
  else if decide (is_Some (users_db st !! su_email user)) then
    (HTTPException 400 "User already exists", st)
  else
    let db :=
      <[su_email user :=
          {| db_name := su_name user;
             db_phone := su_phone user;
             db_password := su_password user;
             db_gender := su_gender user;
             db_terms_accepted := su_terms_accepted user |}]> (users_db st) in
    (OK "Signup successful", {| users_db := db; users_file := Some db |}).

Definition login (user : UserLogin) (st : State) : Response string :=
  match users_db st !! lg_email user with
  | None => HTTPException 401 "Invalid credentials"
  | Some db_user =>
      if negb (String.eqb (db_password db_user) (lg_password user)) then
        HTTPException 401 "Invalid credentials"
      else OK "Login successful"
  end.

Definition list_users (st : State) : gmap string UserRecord := users_db st.

(** [GET /health]: whether a classifier is loaded. *)
Definition health {A} (MODEL : option A) : string * bool :=
  ("ok", match MODEL with Some _ => true | None => false end).

(** The requests that reach the accounts, and the state after a run of them. *)
Inductive Request :=
  | Signup (user : UserSignup)
  | Login (user : UserLogin)
  | ListUsers.

Definition step (st : State) (req : Request) : State :=
  match req with
  | Signup user => (signup user st).2
  | Login _ => st
  | ListUsers => st
  end.

Definition serve (reqs : list Request) (st : State) : State := foldl step st reqs.

End Auth.

(** ** [risk_model.py]: its own extraction, and [analyze]

    The extraction of [risk_model.py] collects the signatures in a list and
    has one [try] around all its loops, so the first accessor that raises
    ends the scan. The [explain] text of the results is left out, as for
    the scorers. *)

Module RiskAnalyze.
Import Analyzer RiskModel.

Definition append_needles (c : string) (acc : list string) : list string :=
  foldl (fun l needle => if str_in needle c then (l ++ [needle])%list else l)
    acc SUSPICIOUS_APIS.

(** The list so far, and whether an exception has ended the loops. *)
Fixpoint scan_methods (ms : list Method) (acc : list string) : list string * bool :=
  match ms with
  | [] => (acc, false)
  | m :: ms' =>
      match get_xref_to m with
      | Ret xs => scan_methods ms' (foldl (fun l s => append_needles (called s) l) acc xs)
      | Raise _ => (acc, true)
      end
  end.

Fixpoint scan_classes (cs : list Class) (acc : list string) : list string :=
  match cs with
  | [] => acc
  | cls :: cs' =>
      match get_methods cls with
      | Ret ms =>
          let '(acc', raised) := scan_methods ms acc in
          if raised then acc' else scan_classes cs' acc'
      | Raise _ => acc
      end
  end.

Definition scanned_apis (dx : Analysis) : list string :=
  match get_classes dx with
  | Ret cs => scan_classes cs []
  | Raise _ => []
  end.

Record Extracted := {
  x_package : option string;
  x_permissions : list string;
  x_receivers : list string;
  x_services : list string;
  x_providers : list string;
  x_intents : list string;
  x_suspicious_apis : list string
}.

(** The keys the scorers read from the extracted dictionary. *)
Definition as_features (x : Extracted) : Features :=
  {| f_permissions := Some (x_permissions x);
     f_suspicious_apis := Some (x_suspicious_apis x);
     f_intents := Some (x_intents x) |}.

(** What [analyze] returns; a key the mode does not set is [None]. *)
Record Report := {
  r_analysis_type : string;
  r_verdict : string;
  r_risk_score : float;
  r_features : option Extracted;
  r_logs : option (option LogDict)
}.

(** The logs [analyze] puts in when none are supplied in dynamic mode. *)
Definition placeholder_logs : LogDict :=
  {| l_network_calls := Some [];
     l_system_calls := Some [];
     l_other_keys := 1 |}.

Section Files.
Variable parse_apk : list ascii -> Exc (APK * Dex * Analysis).
Variable fs : gmap string (list ascii).

Definition extract_static_features (apk_path : string) : Exc Extracted :=
  let! parsed := AnalyzeAPK parse_apk fs apk_path in
  let '(a, d, dx) := parsed in
  Ret {| x_package := get_package a;
         x_permissions := sorted_set (or_nil (get_permissions a));
         x_receivers := or_nil (get_receivers a);
         x_services := or_nil (get_services a);
         x_providers := or_nil (get_providers a);
         x_intents := sorted_set (receiver_intents a);
         x_suspicious_apis := sorted_set (scanned_apis dx) |}.

Definition analyze (apk_path mode : string) (logs : option LogDict) : Exc Report :=
  let! features := extract_static_features apk_path in
  if String.eqb mode "static" then
    let '(risk, verdict) := static_score (as_features features) in
    Ret {| r_analysis_type := "static"; r_verdict := verdict; r_risk_score := risk;
           r_features := Some features; r_logs := None |}
  else if String.eqb mode "dynamic" then
    let logs' :=
      match logs with
      | Some d => if truthy logs then d else placeholder_logs
      | None => placeholder_logs
      end in
    let '(risk, verdict) := dynamic_score logs' in
    Ret {| r_analysis_type := "dynamic"; r_verdict := verdict; r_risk_score := risk;
           r_features := None; r_logs := Some (Some logs') |}
  else if String.eqb mode "hybrid" then
    let '(risk, verdict) := hybrid_score (as_features features) logs in
    Ret {| r_analysis_type := "hybrid"; r_verdict := verdict; r_risk_score := risk;
           r_features := Some features; r_logs := Some logs |}
  else Raise "Invalid mode. Choose from: 'static', 'dynamic', or 'hybrid'.".
End Files.

End RiskAnalyze.

(** ** [utils.py]: [TempFile]

    [__enter__] has [tempfile.mkstemp] create an empty file under a name
    not in use; [__exit__] removes the file if it is still there, also when
    the body of the [with] raises. *)

Module Utils.
Import Main.






End Utils.

(** * Facts *)

(** ** Rounding in binary64 *)

Module Binary64Facts.
Import Binary64.
Local Open Scope Z_scope.

Lemma digits2_size (m : positive) : digits2_pos m = Pos.size m.
Proof. induction m; simpl; congruence. Qed.

Lemma digits_bounds (m : positive) :
  2 ^ (Zpos (digits2_pos m) - 1) <= Zpos m < 2 ^ Zpos (digits2_pos m).
Proof.
  rewrite digits2_size.
  pose proof (Pos.size_gt m) as Hgt. pose proof (Pos.size_le m) as Hle.
  apply Pos2Z.pos_lt_pos in Hgt. apply Pos2Z.pos_le_pos in Hle.
  rewrite Pos2Z.inj_pow in Hgt, Hle.
  change (Zpos m~0) with (2 * Zpos m) in Hle.
  split; [|exact Hgt].
  replace (Zpos (Pos.size m)) with (Zpos (Pos.size m) - 1 + 1) in Hle by lia.
  rewrite Z.pow_add_r in Hle by lia. lia.
Qed.

Lemma iter_pos_nat {A} (f : A -> A) (p : positive) (x : A) :
  SpecFloat.iter_pos f p x = Nat.iter (Pos.to_nat p) f x.
Proof.
  revert x. induction p as [p IH|p IH|]; intros x; cbn [SpecFloat.iter_pos].
  - rewrite !IH, Pos2Nat.inj_xI.
    replace (S (2 * Pos.to_nat p)) with (Pos.to_nat p + (Pos.to_nat p + 1))%nat by lia.
    rewrite !Nat.iter_add. simpl. reflexivity.
  - rewrite !IH, Pos2Nat.inj_xO.
    replace (2 * Pos.to_nat p)%nat with (Pos.to_nat p + Pos.to_nat p)%nat by lia.
    rewrite Nat.iter_add. reflexivity.
  - reflexivity.
Qed.

Lemma shr_1_m (mrs : shr_record) :
  0 <= shr_m mrs -> shr_m (shr_1 mrs) = shr_m mrs / 2.
Proof.
  destruct mrs as [m r s]. simpl. intros Hm.
  destruct m as [|p|p]; [reflexivity| |lia].
  destruct p as [p|p|]; simpl.
  - rewrite Pos2Z.inj_xI. apply Z.div_unique with 1; lia.
  - rewrite Pos2Z.inj_xO. apply Z.div_unique with 0; lia.
  - reflexivity.
Qed.

Lemma shr_iter_m (n : nat) (mrs : shr_record) :
  0 <= shr_m mrs ->
  shr_m (Nat.iter n shr_1 mrs) = shr_m mrs / 2 ^ Z.of_nat n.
Proof.
  intros Hm. induction n as [|n IH].
  - simpl. now rewrite Z.div_1_r.
  - rewrite Nat2Z.inj_succ, Z.pow_succ_r, Nat.iter_succ by lia.
    assert (Hpow : 0 < 2 ^ Z.of_nat n) by (apply Z.pow_pos_nonneg; lia).
    rewrite shr_1_m; rewrite IH.
    + rewrite Z.div_div by lia. f_equal. lia.
    + apply Z.div_pos; lia.
Qed.

(** Shifting out zero bits leaves the position exact. *)
Lemma shr_iter_exact (n : nat) (m : Z) :
  0 <= m -> m mod 2 ^ Z.of_nat n = 0 ->
  Nat.iter n shr_1 (Build_shr_record m false false)
  = Build_shr_record (m / 2 ^ Z.of_nat n) false false.
Proof.
  intros Hm. induction n as [|n IH]; intros Hdiv.
  - simpl. now rewrite Z.div_1_r.
  - rewrite Nat2Z.inj_succ, Z.pow_succ_r in * by lia. rewrite Nat.iter_succ.
    assert (Hpow : 0 < 2 ^ Z.of_nat n) by (apply Z.pow_pos_nonneg; lia).
    assert (Hd : m mod 2 ^ Z.of_nat n = 0).
    { apply Z.mod_divide in Hdiv; [|lia]. apply Z.mod_divide; [lia|].
      destruct Hdiv as [q Hq]. exists (q * 2). lia. }
    rewrite IH by exact Hd.
    assert (Heven : (m / 2 ^ Z.of_nat n) mod 2 = 0).
    { rewrite Z.mul_comm in Hdiv. rewrite Z.rem_mul_r in Hdiv by lia. lia. }
    rewrite (Z.mul_comm 2), <- Z.div_div by lia.
    remember (m / 2 ^ Z.of_nat n) as q eqn:Eq.
    assert (0 <= q) by (subst q; apply Z.div_pos; lia).
    destruct q as [|p|p]; [reflexivity| |lia].
    destruct p as [p|p|]; simpl.
    + rewrite Pos2Z.inj_xI in Heven. exfalso.
      rewrite Z.add_comm, Z.mul_comm, Z_mod_plus_full in Heven. discriminate.
    + f_equal. rewrite Pos2Z.inj_xO. apply Z.div_unique with 0; lia.
    + discriminate.
Qed.

Lemma shr_spec (mrs : shr_record) (e n : Z) :
  0 <= shr_m mrs ->
  shr_m (fst (shr mrs e n)) = shr_m mrs / 2 ^ Z.max 0 n
  /\ snd (shr mrs e n) = e + Z.max 0 n.
Proof.
  intros Hm. destruct n as [|p|p].
  - simpl. rewrite Z.div_1_r. split; [reflexivity|lia].
  - change (Z.max 0 (Zpos p)) with (Zpos p). cbn [shr fst snd].
    rewrite iter_pos_nat, shr_iter_m, positive_nat_Z by exact Hm. split; reflexivity.
  - simpl. rewrite Z.div_1_r. split; [reflexivity|lia].
Qed.

Lemma shr_exact (m e n : Z) :
  0 <= m -> m mod 2 ^ Z.max 0 n = 0 ->
  fst (shr (Build_shr_record m false false) e n)
  = Build_shr_record (m / 2 ^ Z.max 0 n) false false.
Proof.
  intros Hm Hdiv. destruct n as [|p|p].
  - simpl. now rewrite Z.div_1_r.
  - change (Z.max 0 (Zpos p)) with (Zpos p) in *. cbn [shr fst].
    rewrite iter_pos_nat. rewrite <- (positive_nat_Z p) in *. now apply shr_iter_exact.
  - simpl. now rewrite Z.div_1_r.
Qed.

Lemma round_nearest_even_bounds (m : Z) (l : location) :
  m <= round_nearest_even m l <= m + 1.
Proof.
  destruct l as [|[]]; simpl; try lia. destruct (Z.even m); lia.
Qed.

(** The result of rounding [m * 2^e] (with the position [l] of the exact
    value above it), in terms of the two shifts it makes. *)
Lemma binary_round_aux_shape (m e : Z) (l : location) :
  0 <= m ->
  let n1 := Z.max 0 (fexp64 (Zdigits2 m + e) - e) in
  let m1 := m / 2 ^ n1 in
  let e1 := e + n1 in
  exists m1' : Z,
    m1 <= m1' <= m1 + 1
    /\ (l = loc_Exact -> m mod 2 ^ n1 = 0 -> m1' = m1)
    /\ binary_round_aux prec emax false m e l =
       match m1' / 2 ^ Z.max 0 (fexp64 (Zdigits2 m1' + e1) - e1) with
       | Z0 => S754_zero false
       | Zpos m2 =>
           if e1 + Z.max 0 (fexp64 (Zdigits2 m1' + e1) - e1) <=? 971
           then S754_finite false m2 (e1 + Z.max 0 (fexp64 (Zdigits2 m1' + e1) - e1))
           else S754_infinity false
       | Zneg _ => S754_nan
       end.
Proof.
  intros Hm n1 m1 e1. unfold binary_round_aux, shr_fexp.
  change (fexp prec emax) with fexp64.
  set (r0 := shr_record_of_loc m l).
  assert (Hr0 : shr_m r0 = m) by (subst r0; destruct l as [|[]]; reflexivity).
  destruct (shr r0 e (fexp64 (Zdigits2 m + e) - e)) as [mrs' e'] eqn:E1.
  pose proof (shr_spec r0 e (fexp64 (Zdigits2 m + e) - e)) as [Hm1 He1];
    [rewrite Hr0; lia|].
  rewrite E1 in Hm1, He1. cbn [fst snd] in Hm1, He1. rewrite Hr0 in Hm1.
  fold n1 in Hm1, He1. fold m1 in Hm1. fold e1 in He1. subst e'.
  set (m1' := round_nearest_even (shr_m mrs') (loc_of_shr_record mrs')).
  exists m1'. split; [|split].
  - subst m1'. rewrite <- Hm1. apply round_nearest_even_bounds.
  - intros -> Hdiv. subst m1'.
    pose proof (shr_exact m e (fexp64 (Zdigits2 m + e) - e)) as Hex.
    fold n1 in Hex. specialize (Hex Hm Hdiv).
    change (shr_record_of_loc m loc_Exact) with (Build_shr_record m false false) in r0.
    subst r0. rewrite E1 in Hex. cbn [fst] in Hex. subst mrs'. reflexivity.
  - set (n2 := Z.max 0 (fexp64 (Zdigits2 m1' + e1) - e1)).
    assert (Hm1pos : 0 <= m1') .
    { subst m1'. pose proof (round_nearest_even_bounds (shr_m mrs') (loc_of_shr_record mrs')).
      assert (0 <= m1) by (subst m1; apply Z.div_pos; [lia|apply Z.pow_pos_nonneg; lia]).
      lia. }
    destruct (shr (shr_record_of_loc m1' loc_Exact) e1 (fexp64 (Zdigits2 m1' + e1) - e1))
      as [mrs'' e''] eqn:E2.
    pose proof (shr_spec (shr_record_of_loc m1' loc_Exact) e1 (fexp64 (Zdigits2 m1' + e1) - e1))
      as [Hm2 He2]; [cbn [shr_record_of_loc shr_m]; lia|].
    rewrite E2 in Hm2, He2. cbn [fst snd shr_record_of_loc shr_m] in Hm2, He2. fold n2 in Hm2, He2.
    rewrite Hm2, He2. reflexivity.
Qed.

Lemma finite_leb_intro (m0 m2 : positive) (e0 e2 : Z) :
  e0 < e2 \/ (e0 = e2 /\ Zpos m0 <= Zpos m2) ->
  SFleb (S754_finite false m0 e0) (S754_finite false m2 e2) = true.
Proof.
  intros H. unfold SFleb, SFcompare.
  destruct (Z.compare_spec e0 e2) as [Heq|Hlt|Hgt]; [|reflexivity|lia].
  destruct H as [H|[_ H]]; [lia|].
  change (Pos.compare_cont Eq m0 m2) with (Pos.compare m0 m2).
  destruct (Pos.compare_spec m0 m2); [reflexivity|reflexivity|lia].
Qed.

Lemma pow2_pos (k : Z) : 0 <= k -> 0 < 2 ^ k.
Proof. intros. apply Z.pow_pos_nonneg; lia. Qed.

Lemma div_pow2_ge (a q k : Z) : 0 <= k -> q * 2 ^ k <= a -> q <= a / 2 ^ k.
Proof.
  intros Hk H. apply Z.div_le_lower_bound; [now apply pow2_pos|lia].
Qed.

Lemma digits_gt (m : positive) (k : Z) : 2 ^ k <= Zpos m -> k < Zpos (digits2_pos m).
Proof.
  intros H. destruct (Z.le_gt_cases 0 k) as [Hk|Hk]; [|lia].
  pose proof (digits_bounds m) as [_ Hlt].
  apply (Z.pow_lt_mono_r_iff 2); lia.
Qed.

Lemma digits_le (m : positive) (k : Z) : Zpos m < 2 ^ k -> Zpos (digits2_pos m) <= k.
Proof.
  intros H. pose proof (digits_bounds m) as [Hle _].
  destruct (Z.le_gt_cases 0 k) as [Hk|Hk].
  - assert (Zpos (digits2_pos m) - 1 < k); [|lia].
    apply (Z.pow_lt_mono_r_iff 2); lia.
  - rewrite Z.pow_neg_r in H by lia. lia.
Qed.

(** Rounding never goes below a representable number that the exact value
    is not below. *)
Lemma round_lower (m m0 : positive) (e e0 : Z) (l : location) :
  Zpos (digits2_pos m0) = 53 -> -1074 <= e0 -> e <= e0 ->
  Zpos m0 * 2 ^ (e0 - e) <= Zpos m ->
  SFleb (S754_finite false m0 e0) (binary_round_aux prec emax false (Zpos m) e l) = true.
Proof.
  intros Hd0 Hemin Hee Hval.
  pose proof (digits_bounds m0) as [Hm0 _]. rewrite Hd0 in Hm0.
  pose proof (digits_bounds m) as [Hmlo Hmhi].
  set (d := Zpos (digits2_pos m)) in *.
  assert (Hp : 0 < 2 ^ (e0 - e)) by (apply pow2_pos; lia).
  assert (Hde : 53 + e0 <= d + e).
  { assert (52 + e0 - e < d); [|lia]. apply digits_gt.
    replace (52 + e0 - e) with ((53 - 1) + (e0 - e)) by lia.
    rewrite Z.pow_add_r by lia. nia. }
  destruct (binary_round_aux_shape (Zpos m) e l) as (m1' & Hm1' & _ & Hres); [lia|].
  cbn [Zdigits2] in Hm1', Hres. fold d in Hm1', Hres.
  set (n1 := Z.max 0 (fexp64 (d + e) - e)) in *.
  set (m1 := Zpos m / 2 ^ n1) in *.
  set (e1 := e + n1) in *.
  assert (Hn1 : n1 = fexp64 (d + e) - e) by (unfold n1, fexp64; lia).
  assert (He1 : e0 <= e1) by (unfold e1; rewrite Hn1; unfold fexp64; lia).
  assert (Hn1d : 0 <= n1 <= d - 1) by (rewrite Hn1; unfold fexp64; lia).
  assert (Hm1 : 1 <= m1).
  { unfold m1. apply div_pow2_ge; [lia|].
    assert (2 ^ n1 <= 2 ^ (d - 1)) by (apply Z.pow_le_mono_r; lia). lia. }
  assert (Hm1e : e1 = e0 -> Zpos m0 <= m1).
  { intros Heq. unfold m1. apply div_pow2_ge; [lia|].
    replace n1 with (e0 - e) by (unfold e1 in Heq; lia). exact Hval. }
  destruct m1' as [|p1|p1]; [lia| |lia].
  cbn [Zdigits2] in Hres.
  pose proof (digits_bounds p1) as [Hp1lo Hp1hi].
  set (d1 := Zpos (digits2_pos p1)) in *.
  set (n2 := Z.max 0 (fexp64 (d1 + e1) - e1)) in *.
  assert (Hn2 : 0 <= n2 <= d1 - 1) by (unfold n2, fexp64; lia).
  assert (Hm2 : 1 <= Zpos p1 / 2 ^ n2).
  { apply div_pow2_ge; [lia|].
    assert (2 ^ n2 <= 2 ^ (d1 - 1)) by (apply Z.pow_le_mono_r; lia). lia. }
  rewrite Hres.
  destruct (Zpos p1 / 2 ^ n2) as [|m2|m2] eqn:Em2; [lia| |lia].
  destruct (e1 + n2 <=? 971); [|reflexivity].
  apply finite_leb_intro.
  destruct (Z.eq_dec (e1 + n2) e0) as [Heq|Hne]; [right|left; lia].
  split; [lia|].
  assert (n2 = 0) by lia. assert (e1 = e0) by lia.
  replace n2 with 0 in Em2 by lia. rewrite Z.pow_0_r, Z.div_1_r in Em2.
  specialize (Hm1e ltac:(assumption)). lia.
Qed.

Lemma Zdigits2_bounds (m : Z) :
  0 <= m -> 0 <= Zdigits2 m /\ m < 2 ^ Zdigits2 m /\ (0 < m -> 2 ^ (Zdigits2 m - 1) <= m).
Proof.
  intros Hm. destruct m as [|p|p]; [cbn; lia| |lia].
  cbn [Zdigits2]. pose proof (digits_bounds p). lia.
Qed.

Lemma Zdigits2_le (m k : Z) : 0 <= m -> 0 <= k -> m < 2 ^ k -> Zdigits2 m <= k.
Proof.
  intros Hm Hk H. destruct m as [|p|p]; [cbn; lia| |lia].
  cbn [Zdigits2]. now apply digits_le.
Qed.

(** Rounding never goes above a power of two that the exact value is not
    above. The input is aligned ([e] is not above the exponent of its
    format), as every operation hands it over. *)
Lemma round_upper (m e K : Z) (l : location) :
  0 <= m -> e <= fexp64 (Zdigits2 m + e) -> -1074 < K - 52 <= 971 -> e <= K ->
  m < 2 ^ (K - e) \/ (m = 2 ^ (K - e) /\ l = loc_Exact) ->
  SFleb (binary_round_aux prec emax false m e l) (S754_finite false two52 (K - 52)) = true.
Proof.
  intros Hm Hal HK HeK Hval.
  pose proof (Zdigits2_bounds m Hm) as (Hd0 & Hmhi & Hmlo).
  set (d := Zdigits2 m) in *.
  assert (HpK : 0 < 2 ^ (K - e)) by (apply pow2_pos; lia).
  destruct (binary_round_aux_shape m e l Hm) as (m1' & Hm1' & Hex & Hres).
  fold d in Hm1', Hex, Hres.
  set (n1 := Z.max 0 (fexp64 (d + e) - e)) in *.
  set (m1 := m / 2 ^ n1) in *.
  set (e1 := e + n1) in *.
  assert (Hn1 : n1 = fexp64 (d + e) - e) by (unfold n1; lia).
  assert (He1 : e1 = fexp64 (d + e)) by (unfold e1; lia).
  assert (Hn1pos : 0 < 2 ^ n1) by (apply pow2_pos; lia).
  assert (Hm1lo : 0 <= m1) by (unfold m1; apply Z.div_pos; lia).
  rewrite Hres. clear Hres.
  destruct Hval as [Hlt|[Heq ->]].
  - (* strictly below the bound *)
    assert (Hde : d + e <= K).
    { assert (d <= K - e); [|lia]. apply Zdigits2_le; lia. }
    assert (He1K : -1074 <= e1 <= K - 53) by (rewrite He1; unfold fexp64; lia).
    assert (Hm1hi : m1 < 2 ^ 53).
    { unfold m1. apply Z.div_lt_upper_bound; [lia|].
      rewrite <- Z.pow_add_r by lia.
      assert (2 ^ d <= 2 ^ (n1 + 53)) by (apply Z.pow_le_mono_r; unfold fexp64 in *; lia).
      lia. }
    destruct m1' as [|p1|p1]; [reflexivity| |lia].
    cbn [Zdigits2].
    destruct (Z.eq_dec (Zpos p1) (2 ^ 53)) as [Hp1|Hp1].
    + assert (Hd1 : Zpos (digits2_pos p1) = 54).
      { injection Hp1 as ->. reflexivity. }
      rewrite Hd1.
      replace (Z.max 0 (fexp64 (54 + e1) - e1)) with 1 by (unfold fexp64; lia).
      rewrite Hp1. change (2 ^ 53 / 2 ^ 1) with (Zpos two52).
      replace (e1 + 1 <=? 971) with true by (symmetry; apply Z.leb_le; lia).
      apply finite_leb_intro. lia.
    + assert (Hd1 : Zpos (digits2_pos p1) <= 53) by (apply digits_le; lia).
      replace (Z.max 0 (fexp64 (Zpos (digits2_pos p1) + e1) - e1)) with 0
        by (unfold fexp64; lia).
      rewrite Z.pow_0_r, Z.div_1_r, Z.add_0_r.
      replace (e1 <=? 971) with true by (symmetry; apply Z.leb_le; lia).
      apply finite_leb_intro. lia.
  - (* exactly the bound *)
    assert (Hmpos : 0 < m) by lia.
    specialize (Hmlo Hmpos).
    assert (Hde : d + e = K + 1).
    { assert (d - 1 <= K - e) by (apply (Z.pow_le_mono_r_iff 2); lia).
      assert (K - e < d) by (apply (Z.pow_lt_mono_r_iff 2); lia).
      lia. }
    assert (He1K : e1 = K - 52) by (rewrite He1; unfold fexp64; lia).
    assert (Hn1K : n1 = K - 52 - e) by lia.
    assert (Hm52 : m = 2 ^ 52 * 2 ^ n1).
    { rewrite Heq, <- Z.pow_add_r by lia. f_equal. lia. }
    assert (Hm1 : m1 = 2 ^ 52) by (unfold m1; rewrite Hm52; apply Z.div_mul; lia).
    rewrite (Hex eq_refl) by (rewrite Hm52; apply Z.mod_mul; lia).
    rewrite Hm1. change (Zdigits2 (2 ^ 52)) with 53.
    replace (Z.max 0 (fexp64 (53 + e1) - e1)) with 0 by (unfold fexp64; lia).
    change (2 ^ 52 / 2 ^ 0) with (Zpos two52). rewrite Z.add_0_r.
    replace (e1 <=? 971) with true by (symmetry; apply Z.leb_le; lia).
    apply finite_leb_intro. lia.
Qed.

(** *** Signs *)

Lemma sf_nonneg_iff (x : spec_float) :
  sf_nonneg x <->
  match x with
  | S754_zero _ | S754_infinity false | S754_finite false _ _ => True
  | _ => False
  end.
Proof.
  unfold sf_nonneg. destruct x as [s|[]| |[] m e]; cbn; intuition discriminate.
Qed.

Lemma binary_round_aux_nonneg (m e : Z) (l : location) :
  0 <= m -> sf_nonneg (binary_round_aux prec emax false m e l).
Proof.
  intros Hm. destruct (binary_round_aux_shape m e l Hm) as (m1' & Hm1' & _ & ->).
  assert (0 <= m / 2 ^ Z.max 0 (fexp64 (Zdigits2 m + e) - e))
    by (apply Z.div_pos; [lia|apply pow2_pos; lia]).
  set (n2 := Z.max 0 _).
  assert (0 <= m1' / 2 ^ n2) by (apply Z.div_pos; [lia|apply pow2_pos; lia]).
  apply sf_nonneg_iff.
  destruct (m1' / 2 ^ n2); [exact I| |lia].
  now destruct (_ <=? 971).
Qed.

Lemma binary_round_nonneg (m : positive) (e : Z) :
  sf_nonneg (binary_round prec emax false m e).
Proof.
  unfold binary_round. destruct (shl_align m e _) as [mz ez].
  now apply binary_round_aux_nonneg.
Qed.

Lemma binary_normalize_nonneg (m e : Z) :
  0 <= m -> sf_nonneg (binary_normalize prec emax m e false).
Proof.
  intros Hm. destruct m as [|p|p]; [reflexivity| |lia].
  apply binary_round_nonneg.
Qed.

Lemma SFmul_nonneg (m : positive) (e : Z) (y : spec_float) :
  sf_nonneg y -> sf_nonneg (SFmul prec emax (S754_finite false m e) y).
Proof.
  intros Hy. apply sf_nonneg_iff in Hy.
  destruct y as [s|[]| |[] my ey]; try contradiction; try reflexivity.
  cbn [SFmul xorb]. now apply binary_round_aux_nonneg.
Qed.

Lemma SFadd_nonneg (x y : spec_float) :
  sf_nonneg x -> sf_nonneg y -> sf_nonneg (SFadd prec emax x y).
Proof.
  intros Hx Hy. apply sf_nonneg_iff in Hx, Hy.
  destruct x as [sx|[]| |[] mx ex]; try contradiction;
    destruct y as [sy|[]| |[] my ey]; try contradiction;
    try (apply sf_nonneg_iff; cbn; try destruct sx; try destruct sy; exact I).
  cbn [SFadd cond_Zopp]. apply binary_normalize_nonneg. lia.
Qed.

Lemma SFdiv_nonneg (x : spec_float) (m : positive) (e : Z) :
  sf_nonneg x -> sf_nonneg (SFdiv prec emax x (S754_finite false m e)).
Proof.
  intros Hx. apply sf_nonneg_iff in Hx.
  destruct x as [sx|[]| |[] mx ex]; try contradiction; try reflexivity.
  cbn [SFdiv xorb]. unfold SFdiv_core_binary.
  set (m' := match _ with Z0 => Zpos mx | Zpos _ => _ | Zneg _ => 0 end).
  assert (Hm' : 0 <= m').
  { subst m'. destruct (_ - _ - _); try lia. apply Z.shiftl_nonneg. lia. }
  pose proof (Z_div_mod m' (Zpos m) ltac:(lia)) as Hdm.
  destruct (Z.div_eucl m' (Zpos m)) as [q r].
  apply binary_round_aux_nonneg. nia.
Qed.

(** *** Alignment *)

Lemma iter_xO (m d : positive) : Zpos (Pos.iter xO m d) = Zpos m * 2 ^ Zpos d.
Proof.
  induction d as [|d IH] using Pos.peano_ind.
  - cbn. lia.
  - rewrite Pos.iter_succ, Pos2Z.inj_xO, IH, Pos2Z.inj_succ, Z.pow_succ_r by lia. lia.
Qed.

Lemma shl_align_spec (m : positive) (e e' : Z) :
  snd (shl_align m e e') = Z.min e e'
  /\ Zpos (fst (shl_align m e e')) = Zpos m * 2 ^ (e - Z.min e e').
Proof.
  unfold shl_align. destruct (e' - e) as [|d|d] eqn:E; cbn [fst snd].
  - replace (Z.min e e') with e by lia. rewrite Z.sub_diag. cbn. lia.
  - replace (Z.min e e') with e by lia. rewrite Z.sub_diag. cbn. lia.
  - replace (Z.min e e') with e' by lia. rewrite iter_xO.
    replace (e - e') with (Zpos d) by lia. lia.
Qed.

Lemma digits_shift (m : positive) (k : Z) (p : positive) :
  0 <= k -> Zpos p = Zpos m * 2 ^ k ->
  Zpos (digits2_pos p) = Zpos (digits2_pos m) + k.
Proof.
  intros Hk Hp. pose proof (digits_bounds m) as [Hlo Hhi].
  pose proof (pow2_pos k Hk).
  assert (Zpos (digits2_pos m) + k - 1 < Zpos (digits2_pos p)).
  { apply digits_gt. rewrite Hp.
    replace (Zpos (digits2_pos m) + k - 1) with (Zpos (digits2_pos m) - 1 + k) by lia.
    rewrite Z.pow_add_r by lia. nia. }
  assert (Zpos (digits2_pos p) <= Zpos (digits2_pos m) + k).
  { apply digits_le. rewrite Hp, Z.pow_add_r by lia. nia. }
  lia.
Qed.

(** What [binary_round] hands to [binary_round_aux] is aligned and has the
    same value. *)
Lemma binary_round_aligned (m : positive) (e : Z) :
  exists (mz : positive) (ez : Z),
    binary_round prec emax false m e = binary_round_aux prec emax false (Zpos mz) ez loc_Exact
    /\ ez <= e /\ Zpos mz = Zpos m * 2 ^ (e - ez)
    /\ ez <= fexp64 (Zdigits2 (Zpos mz) + ez).
Proof.
  unfold binary_round. change (fexp prec emax) with fexp64.
  set (e' := fexp64 (Zpos (digits2_pos m) + e)).
  pose proof (shl_align_spec m e e') as [He Hm].
  destruct (shl_align m e e') as [mz ez]. cbn [fst snd] in He, Hm.
  exists mz, ez. split; [reflexivity|]. subst ez.
  split; [lia|]. split; [exact Hm|].
  cbn [Zdigits2]. rewrite (digits_shift m (e - Z.min e e') mz) by (lia || exact Hm).
  replace (Zpos (digits2_pos m) + (e - Z.min e e') + Z.min e e')
    with (Zpos (digits2_pos m) + e) by lia.
  fold e'. lia.
Qed.

(** *** Order of the finite positive numbers *)

Lemma finite_leb_inv (m0 m2 : positive) (e0 e2 : Z) :
  SFleb (S754_finite false m0 e0) (S754_finite false m2 e2) = true ->
  e0 < e2 \/ (e0 = e2 /\ Zpos m0 <= Zpos m2).
Proof.
  unfold SFleb, SFcompare.
  destruct (Z.compare_spec e0 e2) as [Heq|Hlt|Hgt]; [|lia|discriminate].
  change (Pos.compare_cont Eq m0 m2) with (Pos.compare m0 m2).
  destruct (Pos.compare_spec m0 m2); [lia|lia|discriminate].
Qed.

Lemma bounded_digits (m : positive) (e : Z) :
  bounded prec emax m e = true -> Zpos (digits2_pos m) <= 53 /\ -1074 <= e.
Proof.
  unfold bounded, canonical_mantissa. change (fexp prec emax) with fexp64.
  intros H. apply andb_prop in H as [H _]. apply Z.eqb_eq in H.
  unfold fexp64 in H. lia.
Qed.

(** A valid number that compares below [2^K] has its value below [2^K]. *)
Lemma le_pow2_value (m : positive) (e K : Z) :
  bounded prec emax m e = true ->
  SFleb (S754_finite false m e) (S754_finite false two52 (K - 52)) = true ->
  e <= K - 52 /\ Zpos m <= 2 ^ (K - e).
Proof.
  intros Hb Hle. apply bounded_digits in Hb as [Hd _].
  apply finite_leb_inv in Hle.
  pose proof (digits_bounds m) as [_ Hhi].
  assert (Zpos m < 2 ^ 53).
  { assert (2 ^ Zpos (digits2_pos m) <= 2 ^ 53) by (apply Z.pow_le_mono_r; lia). lia. }
  destruct Hle as [Hlt|[-> Hm]].
  - split; [lia|].
    assert (2 ^ 53 <= 2 ^ (K - e)) by (apply Z.pow_le_mono_r; lia). lia.
  - split; [lia|]. replace (K - (K - 52)) with 52 by lia. exact Hm.
Qed.

(** *** The three facts about sums and halves *)

(** [c <= x + c] for [x] not negative and [c] a positive normal number. *)
Lemma SFadd_ge_right (x : spec_float) (m0 : positive) (e0 : Z) :
  Zpos (digits2_pos m0) = 53 -> -1074 <= e0 ->
  sf_nonneg x ->
  SFleb (S754_finite false m0 e0) (SFadd prec emax x (S754_finite false m0 e0)) = true.
Proof.
  intros Hd He Hx. apply sf_nonneg_iff in Hx.
  destruct x as [sx|[]| |[] mx ex]; try contradiction.
  - cbn [SFadd]. apply finite_leb_intro. lia.
  - reflexivity.
  - cbn [SFadd cond_Zopp].
    set (ez := Z.min ex e0).
    pose proof (shl_align_spec mx ex ez) as [_ Ha].
    pose proof (shl_align_spec m0 e0 ez) as [_ Hb].
    set (a := fst (shl_align mx ex ez)) in *.
    set (b := fst (shl_align m0 e0 ez)) in *.
    change (Zpos a + Zpos b) with (Zpos (a + b)). cbn [binary_normalize].
    destruct (binary_round_aligned (a + b) ez) as (mz & ez' & -> & Hez & Hmz & _).
    replace (Z.min e0 ez) with ez in Hb by lia.
    assert (0 < 2 ^ (ez - ez')) by (apply pow2_pos; lia).
    assert (0 < 2 ^ (e0 - ez)) by (apply pow2_pos; lia).
    apply round_lower; [exact Hd|exact He|lia|].
    rewrite Hmz, Pos2Z.inj_add, Hb.
    replace (e0 - ez') with ((e0 - ez) + (ez - ez')) by lia.
    rewrite Z.pow_add_r by lia. nia.
Qed.

(** [x + y <= 2] for valid [x] and [y] between 0 and 1. *)
Lemma SFadd_le_two (x y : spec_float) :
  valid_binary x = true -> valid_binary y = true ->
  sf_nonneg x -> sf_nonneg y ->
  SFleb x sf_one = true -> SFleb y sf_one = true ->
  SFleb (SFadd prec emax x y) sf_two = true.
Proof.
  intros Vx Vy Hx Hy Lx Ly. apply sf_nonneg_iff in Hx, Hy.
  destruct x as [sx|[]| |[] mx ex]; try contradiction; try discriminate;
    destruct y as [sy|[]| |[] my ey]; try contradiction; try discriminate.
  - destruct sx, sy; reflexivity.
  - cbn [SFadd]. apply (le_pow2_value my ey 0 Vy) in Ly as [? ?].
    apply finite_leb_intro. lia.
  - cbn [SFadd]. apply (le_pow2_value mx ex 0 Vx) in Lx as [? ?].
    apply finite_leb_intro. lia.
  - apply (le_pow2_value mx ex 0 Vx) in Lx as [Hex Hmx].
    apply (le_pow2_value my ey 0 Vy) in Ly as [Hey Hmy].
    cbn [SFadd cond_Zopp].
    set (ez := Z.min ex ey).
    pose proof (shl_align_spec mx ex ez) as [_ Ha].
    pose proof (shl_align_spec my ey ez) as [_ Hb].
    set (a := fst (shl_align mx ex ez)) in *.
    set (b := fst (shl_align my ey ez)) in *.
    change (Zpos a + Zpos b) with (Zpos (a + b)). cbn [binary_normalize].
    destruct (binary_round_aligned (a + b) ez) as (mz & ez' & -> & Hez & Hmz & Hal).
    replace (Z.min ex ez) with ez in Ha by lia.
    replace (Z.min ey ez) with ez in Hb by lia.
    assert (Hsum : Zpos (a + b) <= 2 ^ (1 - ez)).
    { rewrite Pos2Z.inj_add, Ha, Hb.
      assert (Zpos mx * 2 ^ (ex - ez) <= 2 ^ (0 - ex) * 2 ^ (ex - ez))
        by (apply Z.mul_le_mono_nonneg_r; [apply Z.pow_nonneg|]; lia).
      assert (Zpos my * 2 ^ (ey - ez) <= 2 ^ (0 - ey) * 2 ^ (ey - ez))
        by (apply Z.mul_le_mono_nonneg_r; [apply Z.pow_nonneg|]; lia).
      rewrite <- Z.pow_add_r in * by lia.
      replace (0 - ex + (ex - ez)) with (- ez) in * by lia.
      replace (0 - ey + (ey - ez)) with (- ez) in * by lia.
      replace (1 - ez) with (1 + - ez) by lia. rewrite Z.pow_add_r by lia. lia. }
    assert (Hmz' : Zpos mz <= 2 ^ (1 - ez')).
    { rewrite Hmz.
      replace (1 - ez') with ((1 - ez) + (ez - ez')) by lia. rewrite Z.pow_add_r by lia.
      apply Z.mul_le_mono_nonneg_r; [apply Z.pow_nonneg|]; lia. }
    change sf_two with (S754_finite false two52 (1 - 52)).
    apply round_upper; [lia|exact Hal|lia|lia|].
    destruct (Z.eq_dec (Zpos mz) (2 ^ (1 - ez'))); [right; now split|left; lia].
Qed.

(** [s / 2 <= 1] for a valid [s] between 0 and 2. *)
Lemma SFdiv_two_le_one (s : spec_float) :
  valid_binary s = true -> sf_nonneg s -> SFleb s sf_two = true ->
  SFleb (SFdiv prec emax s sf_two) sf_one = true.
Proof.
  intros Vs Hs Ls. apply sf_nonneg_iff in Hs.
  destruct s as [sx|[]| |[] ms es]; try contradiction; try discriminate.
  - now destruct sx.
  - pose proof (bounded_digits ms es Vs) as [Hd Hes].
    change sf_two with (S754_finite false two52 (1 - 52)) in Ls.
    apply (le_pow2_value ms es 1 Vs) in Ls as [Hes1 Hms].
    pose proof (digits_bounds ms) as [Hlo Hhi].
    unfold sf_two. cbn [SFdiv xorb]. unfold SFdiv_core_binary.
    change (fexp prec emax) with fexp64.
    change (Zdigits2 (Zpos two52)) with 53. cbn [Zdigits2].
    set (d := Zpos (digits2_pos ms)) in *.
    set (e' := Z.min (fexp64 (d + es - (53 + -51))) (es - -51)).
    assert (He' : e' = Z.max (d + es - 55) (-1074)) by (unfold e', fexp64; lia).
    set (sh := es - -51 - e').
    assert (Hsh : 51 <= sh) by (unfold sh; lia).
    destruct sh as [|psh|psh] eqn:Esh; try lia.
    rewrite <- Esh. rewrite Z.shiftl_mul_pow2 by lia.
    pose proof (Z_div_mod (Zpos ms * 2 ^ sh) (Zpos two52) ltac:(lia)) as Hdm.
    destruct (Z.div_eucl (Zpos ms * 2 ^ sh) (Zpos two52)) as [q r].
    destruct Hdm as [Hq Hr].
    assert (Hsh' : 0 < 2 ^ sh) by (apply pow2_pos; lia).
    assert (Hq0 : 0 <= q) by nia.
    assert (Hval : Zpos ms * 2 ^ sh <= 2 ^ 52 * 2 ^ (0 - e')).
    { assert (Zpos ms * 2 ^ sh <= 2 ^ (1 - es) * 2 ^ sh)
        by (apply Z.mul_le_mono_nonneg_r; lia).
      rewrite <- !Z.pow_add_r in * by lia.
      replace (52 + (0 - e')) with (1 - es + sh) by lia. lia. }
    assert (Hpe : 0 < 2 ^ (0 - e')) by (apply pow2_pos; lia).
    change (Zpos two52) with (2 ^ 52) in Hq, Hr.
    change sf_one with (S754_finite false two52 (0 - 52)).
    apply round_upper; [exact Hq0| |lia|lia|].
    + destruct (Z.eq_dec e' (-1074)) as [->|Hne]; [unfold fexp64; lia|].
      assert (Hshd : sh = 106 - d) by lia.
      assert (H53 : 2 ^ 53 <= q).
      { assert (2 ^ 105 <= Zpos ms * 2 ^ sh).
        { replace 105 with ((d - 1) + sh) by lia. rewrite Z.pow_add_r by lia.
          apply Z.mul_le_mono_nonneg_r; lia. }
        change (2 ^ 105) with (2 ^ 52 * 2 ^ 53) in *. nia. }
      destruct q as [|pq|pq]; try lia.
      cbn [Zdigits2]. apply digits_gt in H53. unfold fexp64. lia.
    + destruct (Z.eq_dec q (2 ^ (0 - e'))) as [Heq|Hne]; [right|left; nia].
      split; [exact Heq|].
      assert (r = 0) by nia. subst r. reflexivity.
Qed.

(** *** The order of all numbers, through a key *)

Lemma SFcompare_key (x y : spec_float) :
  match SFcompare x y with
  | None => key x = None \/ key y = None
  | Some c =>
      exists a b, key x = Some a /\ key y = Some b /\
        match c with
        | Lt => key_lt a b
        | Eq => a = b
        | Gt => key_lt b a
        end
  end.
Proof.
  destruct x as [sx|[]| |[] mx ex], y as [sy|[]| |[] my ey]; cbn [SFcompare key];
    try (left; reflexivity); try (right; reflexivity);
    try (eexists; eexists; split; [reflexivity|split; [reflexivity|]];
         unfold key_lt; cbn; try reflexivity; lia).
  - eexists; eexists; split; [reflexivity|split; [reflexivity|]].
    unfold key_lt.
    change (Pos.compare_cont Eq mx my) with (Pos.compare mx my).
    destruct (Z.compare_spec ex ey); [|lia|lia].
    destruct (Pos.compare_spec mx my); cbn [CompOpp]; [subst; reflexivity|lia|lia].
  - eexists; eexists; split; [reflexivity|split; [reflexivity|]].
    unfold key_lt.
    change (Pos.compare_cont Eq mx my) with (Pos.compare mx my).
    destruct (Z.compare_spec ex ey); [|lia|lia].
    destruct (Pos.compare_spec mx my); [subst; reflexivity|lia|lia].
Qed.

Ltac key_arith :=
  repeat match goal with
         | k : (Z * Z * Z)%type |- _ => destruct k as [[? ?] ?]
         | H : Some _ = Some _ |- _ => injection H as H
         | H : (_, _) = (_, _) |- _ => injection H as ? ?
         | H : _ /\ _ |- _ => destruct H
         | H : exists _, _ |- _ => destruct H
         end;
  unfold key_lt, key_le in *; subst; try congruence; try lia.

Lemma flt_key (a b : float) :
  (a <? b)%float = true <->
  exists ka kb, fkey a = Some ka /\ fkey b = Some kb /\ key_lt ka kb.
Proof.
  rewrite FloatAxioms.ltb_spec. unfold SFltb, fkey.
  pose proof (SFcompare_key (Prim2SF a) (Prim2SF b)) as H.
  destruct (SFcompare (Prim2SF a) (Prim2SF b)) as [[]|].
  - split; [discriminate|]. intros (ka & kb & Ha & Hb & Hlt).
    destruct H as (x & y & Hx & Hy & Hxy). rewrite Hx in Ha. rewrite Hy in Hb. key_arith.
  - split; [intros _|reflexivity]. exact H.
  - split; [discriminate|]. intros (ka & kb & Ha & Hb & Hlt).
    destruct H as (x & y & Hx & Hy & Hxy). rewrite Hx in Ha. rewrite Hy in Hb. key_arith.
  - split; [discriminate|]. intros (ka & kb & Ha & Hb & Hlt).
    destruct H as [H|H]; congruence.
Qed.

Lemma fle_key (a b : float) :
  (a <=? b)%float = true <->
  exists ka kb, fkey a = Some ka /\ fkey b = Some kb /\ key_le ka kb.
Proof.
  rewrite FloatAxioms.leb_spec. unfold SFleb, fkey.
  pose proof (SFcompare_key (Prim2SF a) (Prim2SF b)) as H.
  destruct (SFcompare (Prim2SF a) (Prim2SF b)) as [[]|].
  - split; [intros _|reflexivity].
    destruct H as (x & y & Hx & Hy & Hxy). exists x, y. repeat split; try assumption. key_arith.
  - split; [intros _|reflexivity].
    destruct H as (x & y & Hx & Hy & Hxy). exists x, y. repeat split; try assumption. key_arith.
  - split; [discriminate|]. intros (ka & kb & Ha & Hb & Hlt).
    destruct H as (x & y & Hx & Hy & Hxy). rewrite Hx in Ha. rewrite Hy in Hb. key_arith.
  - split; [discriminate|]. intros (ka & kb & Ha & Hb & Hlt).
    destruct H as [H|H]; congruence.
Qed.

Lemma flt_fle (a b : float) : (a <? b)%float = true -> (a <=? b)%float = true.
Proof.
  rewrite flt_key, fle_key. intros (ka & kb & Ha & Hb & H).
  exists ka, kb. repeat split; try assumption. key_arith.
Qed.

Lemma fle_flt_trans (a b c : float) :
  (a <=? b)%float = true -> (b <? c)%float = true -> (a <? c)%float = true.
Proof.
  rewrite fle_key, !flt_key. intros (ka & kb & Ha & Hb & H) (kb' & kc & Hb' & Hc & H').
  exists ka, kc. repeat split; try assumption. rewrite Hb in Hb'. key_arith.
Qed.

Lemma fle_trans (a b c : float) :
  (a <=? b)%float = true -> (b <=? c)%float = true -> (a <=? c)%float = true.
Proof.
  rewrite !fle_key. intros (ka & kb & Ha & Hb & H) (kb' & kc & Hb' & Hc & H').
  exists ka, kc. repeat split; try assumption. rewrite Hb in Hb'. key_arith.
Qed.

(** Two numbers that are not NaN compare one way or the other. *)
Lemma not_fle_flt (a b : float) :
  is_Some (fkey a) -> is_Some (fkey b) ->
  (a <=? b)%float = false -> (b <? a)%float = true.
Proof.
  intros [ka Ha] [kb Hb] Hle. apply flt_key. exists kb, ka. repeat split; try assumption.
  destruct (a <=? b)%float eqn:E; [discriminate|].
  assert (Hn : ~ key_le ka kb).
  { intros Hk. assert ((a <=? b)%float = true); [|congruence].
    apply fle_key. exists ka, kb. repeat split; assumption. }
  key_arith.
Qed.

(** *** The same facts on [float] *)

Lemma fnonneg_spec (x : float) : (0 <=? x)%float = true <-> sf_nonneg (Prim2SF x).
Proof. rewrite FloatAxioms.leb_spec. reflexivity. Qed.

Lemma fle_one_spec (x : float) :
  (x <=? 1)%float = true <-> SFleb (Prim2SF x) sf_one = true.
Proof. rewrite FloatAxioms.leb_spec. reflexivity. Qed.

Lemma of_nat_nonneg (n : nat) : (0 <=? of_nat n)%float = true.
Proof.
  apply fnonneg_spec. unfold of_nat. rewrite FloatAxioms.of_uint63_spec.
  apply binary_normalize_nonneg. apply Uint63.to_Z_bounded.
Qed.

Lemma mul_nonneg (c x : float) :
  pos_finite c = true -> (0 <=? x)%float = true -> (0 <=? c * x)%float = true.
Proof.
  rewrite !fnonneg_spec, FloatAxioms.mul_spec. unfold pos_finite, SF64mul.
  destruct (Prim2SF c) as [| | |[] m e]; try discriminate.
  intros _. apply SFmul_nonneg.
Qed.

Lemma add_nonneg (x y : float) :
  (0 <=? x)%float = true -> (0 <=? y)%float = true -> (0 <=? x + y)%float = true.
Proof. rewrite !fnonneg_spec, FloatAxioms.add_spec. apply SFadd_nonneg. Qed.

Lemma div_nonneg (x c : float) :
  pos_finite c = true -> (0 <=? x)%float = true -> (0 <=? x / c)%float = true.
Proof.
  rewrite !fnonneg_spec, FloatAxioms.div_spec. unfold pos_finite, SF64div.
  destruct (Prim2SF c) as [| | |[] m e]; try discriminate.
  intros _. apply SFdiv_nonneg.
Qed.

Lemma add_ge_right (x c : float) :
  pos_normal c = true -> (0 <=? x)%float = true -> (c <=? x + c)%float = true.
Proof.
  rewrite fnonneg_spec, FloatAxioms.leb_spec, FloatAxioms.add_spec. unfold pos_normal, SF64add.
  destruct (Prim2SF c) as [| | |[] m e]; try discriminate.
  intros H Hx. apply andb_prop in H as [Hd He].
  apply SFadd_ge_right; [now apply Z.eqb_eq|now apply Z.leb_le|exact Hx].
Qed.

Lemma half_sum_bounds (a b : float) :
  (0 <=? a)%float = true -> (a <=? 1)%float = true ->
  (0 <=? b)%float = true -> (b <=? 1)%float = true ->
  (0 <=? (a + b) / 2)%float = true /\ ((a + b) / 2 <=? 1)%float = true.
Proof.
  intros Ha0 Ha1 Hb0 Hb1. split.
  - apply div_nonneg; [reflexivity|]. now apply add_nonneg.
  - apply fle_one_spec. rewrite FloatAxioms.div_spec.
    change (Prim2SF 2) with sf_two. unfold SF64div.
    apply SFdiv_two_le_one.
    + apply Prim2SF_valid.
    + apply fnonneg_spec. now apply add_nonneg.
    + rewrite FloatAxioms.add_spec. unfold SF64add.
      apply SFadd_le_two; try apply Prim2SF_valid;
        try (now apply fnonneg_spec); now apply fle_one_spec.
Qed.

Lemma flt_trans (a b c : float) :
  (a <? b)%float = true -> (b <? c)%float = true -> (a <? c)%float = true.
Proof.
  rewrite !flt_key. intros (ka & kb & Ha & Hb & H) (kb' & kc & Hb' & Hc & H').
  exists ka, kc. repeat split; try assumption. rewrite Hb in Hb'. key_arith.
Qed.

Lemma flt_not_fle (a b : float) : (a <? b)%float = true -> (b <=? a)%float = false.
Proof.
  rewrite flt_key. intros (ka & kb & Ha & Hb & H).
  destruct (b <=? a)%float eqn:E; [|reflexivity].
  apply fle_key in E as (kb' & ka' & Hb' & Ha' & H').
  rewrite Ha in Ha'. rewrite Hb in Hb'. key_arith.
Qed.

(** On numbers, [b <= a] is the negation of [a < b]. *)
Lemma fle_negb_flt (a b : float) :
  is_number a -> is_number b -> (b <=? a)%float = negb (a <? b)%float.
Proof.
  intros Ha Hb. destruct (a <? b)%float eqn:E; cbn [negb].
  - now apply flt_not_fle.
  - destruct (b <=? a)%float eqn:E'; [reflexivity|].
    apply not_fle_flt in E'; [congruence|exact Hb|exact Ha].
Qed.

Lemma is_number_intro (x : float) :
  match fkey x with Some _ => true | None => false end = true -> is_number x.
Proof. unfold is_number. destruct (fkey x); [eauto|discriminate]. Qed.

(** What is between two numbers is a number. *)
Lemma fle_is_number (a b : float) :
  (a <=? b)%float = true -> is_number a /\ is_number b.
Proof.
  rewrite fle_key. intros (ka & kb & Ha & Hb & _). unfold is_number. rewrite Ha, Hb. eauto.
Qed.

Lemma fmin_one_bounds (x : float) :
  (0 <=? x)%float = true ->
  (0 <=? fmin 1 x)%float = true /\ (fmin 1 x <=? 1)%float = true.
Proof.
  intros Hx. unfold fmin. destruct (x <? 1)%float eqn:E.
  - split; [exact Hx|now apply flt_fle].
  - split; reflexivity.
Qed.

Lemma fmin_one_ge (c x : float) :
  (c <=? 1)%float = true -> (c <=? x)%float = true -> (c <=? fmin 1 x)%float = true.
Proof. intros Hc Hx. unfold fmin. now destruct (x <? 1)%float. Qed.

End Binary64Facts.

(** ** Strings *)

Module StringFacts.
Import Spec.

Lemma append_cons (a : ascii) (x y : string) : String a x ++ y = String a (x ++ y).
Proof. reflexivity. Qed.

Lemma prefix_spec (x s : string) :
  String.prefix x s = true <-> exists suf, s = x ++ suf.
Proof.
  revert s. induction x as [|a x IH]; intros s.
  - split; [intros _; now exists s|intros _; now destruct s].
  - destruct s as [|b s]; cbn [String.prefix].
    + split; [discriminate|]. intros [suf H]. rewrite append_cons in H. discriminate.
    + destruct (Ascii.ascii_dec a b) as [->|Hne].
      * rewrite IH. split; intros [suf H]; exists suf.
        -- rewrite append_cons. now rewrite H.
        -- rewrite append_cons in H. now injection H.
      * split; [discriminate|]. intros [suf H]. rewrite append_cons in H. congruence.
Qed.

Lemma str_in_spec (x s : string) : str_in x s = true <-> occurs x s.
Proof.
  unfold occurs. induction s as [|b s IH]; cbn [str_in].
  - rewrite orb_false_r, prefix_spec. split.
    + intros [suf H]. exists EmptyString, suf. exact H.
    + intros (pre & suf & H). destruct pre as [|c pre].
      * now exists suf.
      * rewrite append_cons in H. discriminate.
  - rewrite orb_true_iff, prefix_spec, IH. split.
    + intros [[suf H]|(pre & suf & H)].
      * exists EmptyString, suf. exact H.
      * exists (String b pre), suf. rewrite append_cons. now rewrite H.
    + intros (pre & suf & H). destruct pre as [|c pre].
      * left. now exists suf.
      * right. exists pre, suf. rewrite append_cons in H. now injection H.
Qed.

#[global] Instance occurs_dec (x s : string) : Decision (occurs x s).
Proof.
  destruct (str_in x s) eqn:E.
  - left. now apply str_in_spec.
  - right. intros H. apply str_in_spec in H. congruence.
Defined.

Lemma any_in_spec (ws : list string) (p : string) :
  Is_true (any_in ws p) <-> Exists (fun w => occurs w p) ws.
Proof.
  unfold any_in. rewrite Is_true_true, existsb_exists, Exists_exists.
  split; intros (w & Hw & H); exists w; (split; [now apply list_elem_of_In|]);
    now apply str_in_spec.
Qed.

End StringFacts.


(** ** Sets and counts *)

Module SetFacts.
Import Spec StringFacts.

(** The size of a set intersection, counted along a duplicate-free catalog. *)
Lemma size_intersection_catalog (catalog items : list string) :
  NoDup catalog ->
  size ((list_to_set items : gset string) ∩ list_to_set catalog)
  = intersection_size catalog items.
Proof.
  intros Hnd. unfold intersection_size, size, set_size. cbn.
  apply Permutation_length, NoDup_Permutation.
  - apply NoDup_elements.
  - now apply NoDup_filter.
  - intros x. rewrite elem_of_elements, elem_of_intersection, !elem_of_list_to_set,
      list_elem_of_filter. tauto.
Qed.

Lemma dangerous_catalog_nodup : NoDup DANGEROUS_CATALOG.
Proof. apply (bool_decide_unpack _). vm_compute. exact I. Qed.

Lemma syscall_catalog_nodup : NoDup SYSCALL_CATALOG.
Proof. apply (bool_decide_unpack _). vm_compute. exact I. Qed.

Lemma size_distinct (l : list string) :
  size (list_to_set l : gset string) = length (remove_dups l).
Proof.
  rewrite <- (size_list_to_set (C:=gset string) (remove_dups l)) by apply NoDup_remove_dups.
  f_equal. apply set_eq. intros x.
  now rewrite !elem_of_list_to_set, elem_of_remove_dups.
Qed.

Lemma any_contains_spec (x : string) (ss : list string) :
  any_contains x ss = true <-> Exists (occurs x) ss.
Proof.
  unfold any_contains. rewrite existsb_exists, Exists_exists.
  split; intros (w & Hw & H); exists w; (split; [now apply list_elem_of_In|]);
    now apply str_in_spec.
Qed.

Lemma any_contains_set (x : string) (ss : list string) :
  any_contains x (elements (list_to_set ss : gset string)) = any_contains x ss.
Proof.
  apply eq_true_iff_eq. rewrite !any_contains_spec, !Exists_exists.
  split; intros (w & Hw & H); exists w; (split; [|exact H]).
  - now apply elem_of_elements, elem_of_list_to_set in Hw.
  - now apply elem_of_elements, elem_of_list_to_set.
Qed.

End SetFacts.

(** ** The scans of [analyzer.py] *)

Module AnalyzerFacts.
Import Analyzer Spec Samples StringFacts.

Lemma elem_of_sorted (s : gset string) (x : string) : x ∈ sorted s <-> x ∈ s.
Proof. unfold sorted. now rewrite merge_sort_Permutation, elem_of_elements. Qed.

Lemma length_sorted (s : gset string) : length (sorted s) = size s.
Proof. unfold sorted. now rewrite merge_sort_Permutation. Qed.

Lemma is_network_spec (needle : string) :
  is_network needle = true <-> network_related needle.
Proof.
  unfold is_network, network_related. rewrite !orb_true_iff, !str_in_spec. tauto.
Qed.

(** Two loops over the same items keep a relation between their states. *)
Lemma foldl_related {A B C} (R : A -> B -> Prop) (f : A -> C -> A) (g : B -> C -> B)
    (l : list C) (a : A) (b : B) :
  R a b -> (forall a b c, R a b -> R (f a c) (g b c)) ->
  R (foldl f a l) (foldl g b l).
Proof.
  intros Hab Hstep. revert a b Hab.
  induction l as [|c l IH]; intros a b Hab; cbn; [exact Hab|].
  apply IH. now apply Hstep.
Qed.

Lemma add_classified_splits (c : string) st hits :
  splits st hits -> splits (add_classified c st) (add_needles c hits).
Proof.
  unfold add_classified, add_needles. intros H. apply (foldl_related splits); [exact H|].
  clear st hits H. intros [net sys] hits needle (Hu & Hn & Hs). cbn [fst snd] in *.
  destruct (str_in needle c); [|now repeat split].
  destruct (is_network needle) eqn:E; (split; [|split]); cbn [fst snd];
    try set_solver.
Qed.

Lemma classify_method_splits (m : Method) st hits :
  splits st hits -> splits (classify_method m st) (match_method m hits).
Proof.
  intros H. unfold classify_method, match_method.
  destruct (get_xref_to m) as [xs|e]; [|exact H].
  apply (foldl_related splits); [exact H|]. intros a b s. apply add_classified_splits.
Qed.

Lemma classify_classes_splits (cs : list Class) st hits :
  splits st hits -> splits (classify_classes cs st) (match_classes cs hits).
Proof.
  revert st hits. induction cs as [|cls cs IH]; intros st hits H; cbn; [exact H|].
  destruct (get_methods cls) as [ms|e]; [|exact H].
  apply IH. apply (foldl_related splits); [exact H|]. intros a b m.
  apply classify_method_splits.
Qed.

Lemma classified_hits_splits (dx : Analysis) :
  splits (classified_hits dx) (matched_hits dx).
Proof.
  unfold classified_hits, matched_hits.
  destruct (get_classes dx) as [cs|e].
  - apply classify_classes_splits. repeat split; cbn; set_solver.
  - repeat split; cbn; set_solver.
Qed.

Lemma AnalyzeAPK_file parse_apk (fs : gmap string (list ascii)) apk_path r :
  AnalyzeAPK parse_apk fs apk_path = Ret r ->
  exists content, fs !! apk_path = Some content /\ parse_apk content = Ret r.
Proof.
  unfold AnalyzeAPK. destruct (fs !! apk_path) as [content|]; [|discriminate].
  intros H. now exists content.
Qed.

(** Once the container is parsed, [static_features] returns its record. *)
Lemma static_features_parsed parse_apk (fs : gmap string (list ascii)) apk_path a d dx :
  AnalyzeAPK parse_apk fs apk_path = Ret (a, d, dx) ->
  exists feats,
    static_features parse_apk fs apk_path = Ret feats
    /\ permissions feats = sorted_set (or_nil (get_permissions a))
    /\ intents feats = sorted_set (receiver_intents a)
    /\ suspicious_apis feats = _match_suspicious_apis dx.
Proof.
  intros H. destruct (AnalyzeAPK_file _ _ _ _ H) as (content & Hfile & _).
  unfold static_features, getsize. rewrite H, Hfile. cbn [bind].
  eexists. split; [reflexivity|]. repeat split.
Qed.

(** Once the container is parsed, [dynamic_features] returns its record. *)
Lemma dynamic_features_parsed parse_apk decode_ignore (fs : gmap string (list ascii))
    apk_path a d dx :
  AnalyzeAPK parse_apk fs apk_path = Ret (a, d, dx) ->
  exists r,
    dynamic_features parse_apk decode_ignore fs apk_path = Logs r
    /\ system_calls r =
         (if decide ((classified_hits dx).2 = ∅) then sorted (classified_hits dx).1
          else sorted (classified_hits dx).2)
    /\ n_system_indicators (behavior_summary r) =
         (if decide (size (classified_hits dx).2 = 0%nat) then size (classified_hits dx).1
          else size (classified_hits dx).2)
    /\ sms_used r =
         any_contains "SmsManager"
           (elements ((classified_hits dx).1 ∪ (classified_hits dx).2
                      ∪ list_to_set SUSPICIOUS_API_SUBSTRINGS))
    /\ network_calls r
       = sorted (find_decoded decode_ignore URL_RE (_extract_strings_from_apk fs apk_path)).
Proof.
  intros H. unfold dynamic_features. rewrite H.
  destruct (classified_hits dx) as [net sys]. eexists. split; [reflexivity|].
  repeat split.
Qed.

(** C3, as stated, fails: an application that calls the four HTTP client
    signatures and nothing else has four static hits and no system-related
    hit, so the stated count is 4 (adware, 0.35); the code counts 8 and
    answers trojan, 0.75. *)
Lemma C3_counterexample :
  exists r,
    hybrid_features (parse_as four_network_calls) decode_ascii sample_fs "/data/app.apk" = Ret r
    /\ length (suspicious_apis (static r)) = 4%nat
    /\ size (classified_hits four_network_calls).2 = 0%nat
    /\ bucket (4 + 0) = (0.35%float, "adware")
    /\ (risk_score r, verdict r) = (0.75%float, "trojan").
Proof. eexists. split; [vm_compute; reflexivity|]. repeat split. Qed.

(** C3, amended: the count of the combined summary is the number of static
    suspicious-API hits plus [n_system_indicators], which is the number of
    system-related hits when there is one and the number of network-related
    hits otherwise; the count is mapped by the inclusive bounds 2, 4, 6, 9. *)
Theorem C3_policy_a_buckets parse_apk decode_ignore (fs : gmap string (list ascii))
    apk_path a d dx :
  AnalyzeAPK parse_apk fs apk_path = Ret (a, d, dx) ->
  exists r,
    hybrid_features parse_apk decode_ignore fs apk_path = Ret r
    /\ (risk_score r, verdict r)
       = bucket (size (matched_hits dx)
                 + (if decide ((classified_hits dx).2 = ∅) then size (classified_hits dx).1
                    else size (classified_hits dx).2))
    /\ (forall n : nat,
          bucket n =
          if decide (n <= 2)%nat then (0.1%float, "benign")
          else if decide (n <= 4)%nat then (0.35%float, "adware")
          else if decide (n <= 6)%nat then (0.55%float, "spyware")
          else if decide (n <= 9)%nat then (0.75%float, "trojan")
          else (0.9%float, "ransomware"))
    /\ bucket 0 = (0.1%float, "benign")
    /\ bucket 5 = (0.55%float, "spyware")
    /\ bucket 10 = (0.9%float, "ransomware").
Proof.
  intros H.
  destruct (static_features_parsed _ _ _ _ _ _ H) as (feats & Hs & _ & _ & Hapis).
  destruct (dynamic_features_parsed _ decode_ignore _ _ _ _ _ H) as (r & Hd & _ & Hn & _).
  unfold hybrid_features. rewrite Hs, Hd. cbn [bind].
  unfold suspicious_count_of. cbn [get_n_system_indicators].
  rewrite Hapis, Hn. unfold _match_suspicious_apis. rewrite length_sorted.
  replace (if decide (size (classified_hits dx).2 = 0%nat)
           then size (classified_hits dx).1 else size (classified_hits dx).2)
    with (if decide ((classified_hits dx).2 = ∅)
          then size (classified_hits dx).1 else size (classified_hits dx).2).
  2:{ destruct (decide ((classified_hits dx).2 = ∅)) as [->|Hne].
      - now rewrite size_empty.
      - destruct (decide (size (classified_hits dx).2 = 0%nat)) as [Hz|]; [|reflexivity].
        apply size_empty_inv in Hz. apply leibniz_equiv in Hz. contradiction. }
  destruct (bucket _) as [risk v] eqn:Eb.
  eexists. split; [reflexivity|]. split; [reflexivity|].
  split; [|repeat split].
  intros n. unfold bucket.
  repeat (match goal with
          | |- context [(n <=? ?k)%nat] =>
              destruct (Nat.leb_spec n k);
              [rewrite !decide_True by lia; reflexivity|rewrite decide_False by lia]
          end).
  reflexivity.
Qed.

Lemma C3_policy_a_buckets_witness :
  exists r,
    hybrid_features (parse_as four_network_calls) decode_ascii sample_fs "/data/app.apk" = Ret r
    /\ (risk_score r, verdict r) = bucket (4 + 4).
Proof.
  destruct (C3_policy_a_buckets (parse_as four_network_calls) decode_ascii sample_fs
              "/data/app.apk" bare_apk no_files four_network_calls eq_refl)
    as (r & Hr & Hb & _).
  exists r. split; [exact Hr|]. rewrite Hb. reflexivity.
Defined.

(** C4, as stated, fails: for an application whose only suspicious call is
    [java/net/URL;->openConnection], the reported [system_calls] is that
    needle, which is network-related. *)
Lemma C4_counterexample :
  exists r,
    dynamic_features (parse_as only_url_calls) decode_ascii sample_fs "/data/app.apk" = Logs r
    /\ system_calls r = ["java/net/URL;->openConnection"]
    /\ is_network "java/net/URL;->openConnection" = true.
Proof. eexists. split; [vm_compute; reflexivity|]. split; reflexivity. Qed.

(** C4, amended: the scan splits the matched needles into the
    network-related ones and the others, two disjoint sets that together are
    the matched hit set; the record reports one list, [system_calls], which
    is the sorted system-related set when that set is not empty and the
    sorted network-related set when it is. *)
Theorem C4_classified_partition parse_apk decode_ignore (fs : gmap string (list ascii))
    apk_path a d dx :
  AnalyzeAPK parse_apk fs apk_path = Ret (a, d, dx) ->
  exists r,
    dynamic_features parse_apk decode_ignore fs apk_path = Logs r
    /\ (classified_hits dx).1 ∩ (classified_hits dx).2 = ∅
    /\ (classified_hits dx).1 ∪ (classified_hits dx).2 = matched_hits dx
    /\ (forall x, x ∈ (classified_hits dx).1 <-> x ∈ matched_hits dx /\ network_related x)
    /\ (forall x, x ∈ (classified_hits dx).2 <-> x ∈ matched_hits dx /\ ~ network_related x)
    /\ ((classified_hits dx).2 <> ∅ ->
        forall x, x ∈ system_calls r <-> x ∈ (classified_hits dx).2)
    /\ ((classified_hits dx).2 = ∅ ->
        forall x, x ∈ system_calls r <-> x ∈ (classified_hits dx).1).
Proof.
  intros H.
  destruct (dynamic_features_parsed _ decode_ignore _ _ _ _ _ H) as (r & Hd & Hsys & _).
  exists r. split; [exact Hd|].
  destruct (classified_hits_splits dx) as (Hu & Hn & Hs).
  assert (Hnet : forall x, x ∈ (classified_hits dx).1 -> network_related x)
    by (intros x Hx; now apply is_network_spec, Hn).
  assert (Hsy : forall x, x ∈ (classified_hits dx).2 -> ~ network_related x).
  { intros x Hx Hr. apply is_network_spec in Hr. rewrite (Hs x Hx) in Hr. discriminate. }
  split; [|split; [exact Hu|split; [|split; [|split]]]].
  - apply set_eq. intros x. rewrite elem_of_intersection, elem_of_empty.
    split; [intros [H1 H2]; exact (Hsy x H2 (Hnet x H1))|tauto].
  - intros x. rewrite <- Hu, elem_of_union. split.
    + intros Hx. split; [now left|now apply Hnet].
    + intros [[Hx|Hx] Hr]; [exact Hx|]. destruct (Hsy x Hx Hr).
  - intros x. rewrite <- Hu, elem_of_union. split.
    + intros Hx. split; [now right|now apply Hsy].
    + intros [[Hx|Hx] Hr]; [|exact Hx]. destruct (Hr (Hnet x Hx)).
  - intros Hne x. rewrite Hsys, decide_False by exact Hne. apply elem_of_sorted.
  - intros He x. rewrite Hsys, decide_True by exact He. apply elem_of_sorted.
Qed.

Lemma C4_classified_partition_witness :
  exists r,
    dynamic_features (parse_as only_url_calls) decode_ascii sample_fs "/data/app.apk" = Logs r
    /\ (classified_hits only_url_calls).1 ∪ (classified_hits only_url_calls).2
       = matched_hits only_url_calls.
Proof.
  destruct (C4_classified_partition (parse_as only_url_calls) decode_ascii sample_fs
              "/data/app.apk" bare_apk no_files only_url_calls eq_refl)
    as (r & Hr & _ & Hu & _).
  exists r. split; [exact Hr|exact Hu].
Defined.

Lemma sms_flag_set (net sys : gset string) :
  any_contains "SmsManager" (elements (net ∪ sys ∪ list_to_set SUSPICIOUS_API_SUBSTRINGS))
  = true.
Proof.
  unfold any_contains. apply existsb_exists.
  exists "android/telephony/SmsManager;->sendTextMessage". split; [|reflexivity].
  apply list_elem_of_In, elem_of_elements, elem_of_union_r, elem_of_list_to_set.
  unfold SUSPICIOUS_API_SUBSTRINGS. set_solver.
Qed.

End AnalyzerFacts.

(** ** The endpoints of [main.py] *)

Module EndpointFacts.
Import Analyzer MlModel Main Spec Samples StringFacts SetFacts Binary64 Binary64Facts AnalyzerFacts.

(** C2, as stated, fails: for the single permission
    [android.permission.INTERNET] the static endpoint counts one dangerous
    permission, while the intersection with the fifteen-entry catalog is
    empty. *)
Lemma C2_counterexample :
  n_dangerous_perms_of (features_with ["android.permission.INTERNET"]) = 1%nat
  /\ intersection_size DANGEROUS_CATALOG
       (permissions (features_with ["android.permission.INTERNET"])) = 0%nat
  /\ n_dangerous_perms_of (features_with ["android.permission.INTERNET"])
     <> intersection_size DANGEROUS_CATALOG
          (permissions (features_with ["android.permission.INTERNET"])).
Proof. repeat split; vm_compute; congruence. Qed.

(** C2, amended: when the static endpoint answers 200, its score is
    [min(1.0, 0.2 * count + 0.15 * suspicious_apis)], where the count is the
    number of extracted permissions in whose identifier one of the words
    SMS, CALL, INTERNET, RECORD_AUDIO, CAMERA occurs; the verdict is read
    off that score by the four-way thresholds. *)
Theorem C2_dangerous_count_by_words parse_apk (fs : gmap string (list ascii)) tmp
    filename content feats :
  endswith filename ".apk" = true -> content <> [] ->
  extract_static_features parse_apk fs tmp content = Ret feats ->
  let count :=
    length (filter (fun p => Exists (fun w => occurs w p)
                                ["SMS"; "CALL"; "INTERNET"; "RECORD_AUDIO"; "CAMERA"])
              (permissions feats)) in
  exists rep,
    analyze_static parse_apk fs tmp filename content = OK rep
    /\ payload rep = feats
    /\ risk_score rep
       = fmin 1 (0.2 * of_nat count + 0.15 * of_nat (length (suspicious_apis feats)))%float
    /\ verdict rep = five_level (risk_score rep).
Proof.
  intros Hname Hcontent Hfeats count.
  assert (Hcount : n_dangerous_perms_of feats = count).
  { unfold n_dangerous_perms_of, count. f_equal.
    apply list_filter_iff. intros p. apply any_in_spec. }
  unfold analyze_static, upload_check.
  rewrite Hname. cbn [negb]. destruct content as [|c content]; [congruence|].
  rewrite Hfeats. eexists. split; [reflexivity|]. cbn [payload risk_score verdict].
  split; [reflexivity|]. split; [|reflexivity].
  unfold static_risk. now rewrite Hcount.
Qed.

Lemma C2_dangerous_count_by_words_witness :
  exists rep,
    analyze_static parse_internet sample_fs "/tmp/tmpq1.apk" "sample.apk" (text "PK") = OK rep
    /\ permissions (payload rep)
       = ["android.permission.INTERNET"; "android.permission.READ_CONTACTS"]
    /\ risk_score rep = 0.2%float.
Proof.
  destruct (C2_dangerous_count_by_words parse_internet sample_fs "/tmp/tmpq1.apk"
              "sample.apk" (text "PK") _ eq_refl ltac:(discriminate) eq_refl)
    as (rep & Hrep & _).
  exists rep. split; [exact Hrep|].
  vm_compute in Hrep. injection Hrep as <-. split; reflexivity.
Defined.

Lemma staged_lookup (fs : gmap string (list ascii)) (tmp : string) (content : list ascii) :
  staged fs tmp content !! tmp = Some content.
Proof. unfold staged. apply lookup_insert_eq. Qed.

Lemma analyze_tmp parse_apk fs tmp content :
  AnalyzeAPK parse_apk (staged fs tmp content) tmp = parse_apk content.
Proof. unfold AnalyzeAPK. now rewrite staged_lookup. Qed.

Lemma static_corrupt parse_apk fs tmp content e :
  parse_apk content = Raise e ->
  extract_static_features parse_apk fs tmp content = Raise e.
Proof.
  intros H. unfold extract_static_features, static_features.
  now rewrite analyze_tmp, H.
Qed.

Lemma dynamic_corrupt parse_apk decode_ignore fs tmp content e :
  parse_apk content = Raise e ->
  analyze_dynamic_features parse_apk decode_ignore fs tmp content
  = ErrorDict ("AnalyzeAPK failed: " ++ e).
Proof.
  intros H. unfold analyze_dynamic_features, dynamic_features.
  now rewrite analyze_tmp, H.
Qed.

(** C1 at the failing input: when the container parser raises on the
    uploaded bytes, the static and the hybrid endpoint fail with status 500
    and the parser's message, but the dynamic endpoint answers 200 with the
    verdict benign, the score 0.0 and the action Safe to use. *)
Theorem C1_dynamic_scores_corrupt_package
    parse_apk decode_ignore MODEL fs tmp filename content e :
  endswith filename ".apk" = true -> content <> [] ->
  parse_apk content = Raise e ->
  analyze_dynamic parse_apk decode_ignore fs tmp filename content
  = OK {| analysis_type := "dynamic";
          verdict := "benign";
          risk_score := 0;
          recommended_action := "Safe to use";
          payload := ErrorDict ("AnalyzeAPK failed: " ++ e) |}
  /\ analyze_static parse_apk fs tmp filename content
     = HTTPException 500 ("Static analysis failed: " ++ e)
  /\ analyze_hybrid parse_apk decode_ignore MODEL fs tmp filename content
     = HTTPException 500 ("Hybrid analysis failed: " ++ e).
Proof.
  intros Hname Hcontent Hparse.
  unfold analyze_dynamic, analyze_static, analyze_hybrid, upload_check.
  rewrite Hname. cbn [negb]. destruct content as [|c content]; [congruence|].
  rewrite (static_corrupt _ _ _ _ _ Hparse), (dynamic_corrupt _ _ _ _ _ _ Hparse).
  repeat split.
Qed.

Lemma C1_dynamic_scores_corrupt_package_witness :
  analyze_dynamic parse_corrupt decode_ascii ∅ "/tmp/tmpq1.apk" "sample.apk" (text "not a zip")
  = OK {| analysis_type := "dynamic";
          verdict := "benign";
          risk_score := 0;
          recommended_action := "Safe to use";
          payload := ErrorDict "AnalyzeAPK failed: File is not a zip file" |}.
Proof.
  apply (C1_dynamic_scores_corrupt_package parse_corrupt decode_ascii None ∅
           "/tmp/tmpq1.apk" "sample.apk" (text "not a zip") "File is not a zip file");
    [reflexivity|discriminate|reflexivity].
Defined.

Lemma dangerous_is_catalog : dangerous = list_to_set DANGEROUS_CATALOG.
Proof. unfold dangerous, DANGEROUS_CATALOG. cbn [list_to_set foldr]. set_solver. Qed.

Lemma suspicious_sys_is_catalog : suspicious_sys = list_to_set SYSCALL_CATALOG.
Proof. unfold suspicious_sys, SYSCALL_CATALOG. cbn [list_to_set foldr]. set_solver. Qed.

(** The feature vector, in the words of the specification. *)
Lemma extract_vector_spec (feats : StaticFeatures) (dyn_logs : DynamicLogs) :
  extract_vector feats dyn_logs =
  [ intersection_size DANGEROUS_CATALOG (permissions feats);
    length (suspicious_apis feats);
    length (get_network_calls dyn_logs);
    intersection_size SYSCALL_CATALOG (get_system_calls dyn_logs);
    if decide (Exists (occurs "BOOT_COMPLETED") (intents feats)) then 1%nat else 0%nat ].
Proof.
  unfold extract_vector.
  rewrite dangerous_is_catalog, suspicious_sys_is_catalog.
  rewrite !size_intersection_catalog
    by (apply dangerous_catalog_nodup || apply syscall_catalog_nodup).
  repeat f_equal.
  destruct (any_contains "BOOT_COMPLETED" (intents feats)) eqn:E.
  - rewrite decide_True; [reflexivity|]. now apply any_contains_spec.
  - rewrite decide_False; [reflexivity|]. intros H. apply any_contains_spec in H. congruence.
Qed.

(** C5: with a classifier loaded, the hybrid endpoint hands it the vector
    [dangerous-permission count over the fifteen-entry catalog,
    suspicious-API count, network-call count, count of the system calls in
    the five-item catalog, boot-receiver flag]; the probability it answers
    is the risk score, whatever the heuristic score is, and the four-way
    thresholds 0.2, 0.4, 0.6, 0.8 give the verdict. *)
Theorem C5_classifier_override parse_apk decode_ignore predict_proba
    (fs : gmap string (list ascii)) tmp filename content feats p :
  endswith filename ".apk" = true -> content <> [] ->
  extract_static_features parse_apk fs tmp content = Ret feats ->
  predict_proba
    (extract_vector feats (analyze_dynamic_features parse_apk decode_ignore fs tmp content))
  = Ret p ->
  extract_vector feats (analyze_dynamic_features parse_apk decode_ignore fs tmp content)
  = [ intersection_size DANGEROUS_CATALOG (permissions feats);
      length (suspicious_apis feats);
      length (get_network_calls
                (analyze_dynamic_features parse_apk decode_ignore fs tmp content));
      intersection_size SYSCALL_CATALOG
        (get_system_calls (analyze_dynamic_features parse_apk decode_ignore fs tmp content));
      if decide (Exists (occurs "BOOT_COMPLETED") (intents feats)) then 1%nat else 0%nat ]
  /\ exists rep,
       analyze_hybrid parse_apk decode_ignore (Some predict_proba) fs tmp filename content
       = OK rep
       /\ risk_score rep = p
       /\ verdict rep =
          (if flt p 0.2 then "benign"
           else if flt p 0.4 then "adware"
           else if flt p 0.6 then "spyware"
           else if flt p 0.8 then "trojan"
           else "ransomware")
       /\ recommended_action rep = determine_action (verdict rep) p.
Proof.
  intros Hname Hcontent Hfeats Hp. split; [apply extract_vector_spec|].
  unfold analyze_hybrid, upload_check. rewrite Hname. cbn [negb].
  destruct content as [|c content]; [congruence|].
  rewrite Hfeats, Hp. eexists. split; [reflexivity|]. repeat split.
Qed.

Lemma C5_classifier_override_witness :
  exists rep,
    analyze_hybrid (parse_as only_url_calls) decode_ascii (Some (fun _ => Ret 0.5%float))
      sample_fs "/tmp/tmpq1.apk" "sample.apk" (text "PK") = OK rep
    /\ risk_score rep = 0.5%float
    /\ verdict rep = "spyware".
Proof.
  destruct (C5_classifier_override (parse_as only_url_calls) decode_ascii
              (fun _ => Ret 0.5%float) sample_fs "/tmp/tmpq1.apk" "sample.apk" (text "PK")
              _ 0.5%float eq_refl ltac:(discriminate) eq_refl eq_refl)
    as (_ & rep & Hrep & Hrisk & Hv & _).
  exists rep. split; [exact Hrep|]. split; [exact Hrisk|]. rewrite Hv. reflexivity.
Defined.

Lemma dynamic_features_sms parse_apk decode_ignore (fs : gmap string (list ascii))
    apk_path r :
  dynamic_features parse_apk decode_ignore fs apk_path = Logs r -> sms_used r = true.
Proof.
  intros Hr. destruct (AnalyzeAPK parse_apk fs apk_path) as [[[a d] dx]|e] eqn:H.
  - destruct (dynamic_features_parsed _ decode_ignore _ _ _ _ _ H)
      as (r' & Hd & _ & _ & Hsms & _).
    rewrite Hd in Hr. injection Hr as <-. now rewrite sms_flag_set in Hsms.
  - unfold dynamic_features in Hr. rewrite H in Hr. discriminate.
Qed.

(** C10: [dynamic_features] sets [sms_used] in every record it returns,
    since the set it searches always holds the signature table with its
    SmsManager entry; so the flag says nothing about the package, and the
    dynamic endpoint scores every package it parses at 0.3 or more. *)
Theorem C10_sms_flag_always_set parse_apk decode_ignore (fs : gmap string (list ascii))
    tmp filename content a d dx :
  endswith filename ".apk" = true -> content <> [] ->
  parse_apk content = Ret (a, d, dx) ->
  (forall (fs' : gmap string (list ascii)) apk_path r,
      dynamic_features parse_apk decode_ignore fs' apk_path = Logs r -> sms_used r = true)
  /\ (exists rep r,
        analyze_dynamic parse_apk decode_ignore fs tmp filename content = OK rep
        /\ payload rep = Logs r
        /\ sms_used r = true
        /\ fle 0.3 (risk_score rep) = true).
Proof.
  intros Hname Hcontent Hparse.
  split; [intros fs' apk_path r; apply dynamic_features_sms|].
  assert (H : AnalyzeAPK parse_apk (staged fs tmp content) tmp = Ret (a, d, dx))
    by now rewrite analyze_tmp.
  destruct (dynamic_features_parsed _ decode_ignore _ _ _ _ _ H) as (r & Hd & _ & _ & Hsms & _).
  rewrite sms_flag_set in Hsms.
  unfold analyze_dynamic, upload_check. rewrite Hname. cbn [negb].
  destruct content as [|c content]; [congruence|].
  eexists. exists r. split; [reflexivity|]. cbn [risk_score payload].
  unfold analyze_dynamic_features. rewrite Hd.
  split; [reflexivity|]. split; [exact Hsms|].
  unfold dynamic_risk. cbn [get_sms_used]. rewrite Hsms. unfold fle.
  apply fmin_one_ge; [reflexivity|].
  apply add_ge_right; [reflexivity|].
  apply add_nonneg; apply mul_nonneg; try reflexivity; apply of_nat_nonneg.
Qed.

Lemma C10_sms_flag_always_set_witness :
  exists rep,
    analyze_dynamic (parse_as only_url_calls) decode_ascii ∅ "/tmp/tmpq1.apk" "sample.apk"
      (text "PK") = OK rep
    /\ fle 0.3 (risk_score rep) = true.
Proof.
  destruct (C10_sms_flag_always_set (parse_as only_url_calls) decode_ascii ∅ "/tmp/tmpq1.apk"
              "sample.apk" (text "PK") bare_apk no_files only_url_calls
              eq_refl ltac:(discriminate) eq_refl)
    as (_ & rep & r & Hrep & _ & _ & Hrisk).
  exists rep. split; [exact Hrep|exact Hrisk].
Defined.

End EndpointFacts.

(** ** The normalised scorers of [risk_model.py] *)

Module RiskFacts.
Import RiskModel Spec StringFacts SetFacts Binary64 Binary64Facts.

Lemma clamp01_bounds (x : float) : in_unit (clamp01 x).
Proof.
  unfold in_unit, clamp01, fmax, fmin, fle.
  destruct (x <? 1)%float eqn:E1.
  - destruct (0 <? x)%float eqn:E0.
    + split; now apply flt_fle.
    + split; reflexivity.
  - split; reflexivity.
Qed.

Lemma in_unit_number (r : float) : in_unit r -> is_number r.
Proof. intros [H _]. now apply fle_is_number in H. Qed.

Lemma catalog_is_set : DANGEROUS_PERMISSIONS = list_to_set DANGEROUS_CATALOG.
Proof.
  unfold DANGEROUS_PERMISSIONS, DANGEROUS_CATALOG. cbn [list_to_set foldr]. set_solver.
Qed.

Lemma n_danger_spec (features : Features) :
  n_danger_of features = intersection_size DANGEROUS_CATALOG (get_list (f_permissions features)).
Proof.
  unfold n_danger_of. rewrite catalog_is_set.
  apply size_intersection_catalog, dangerous_catalog_nodup.
Qed.

Lemma intent_boot_spec (features : Features) :
  intent_boot_of features = true
  <-> Exists (occurs "BOOT_COMPLETED") (get_list (f_intents features)).
Proof. unfold intent_boot_of. now rewrite any_contains_set, any_contains_spec. Qed.

(** The three-level table on a number: the levels are the intervals. *)
Lemma three_level_intervals (hi lo r : float) :
  is_number r -> is_number hi -> is_number lo -> flt lo hi = true ->
  (three_level hi lo r = "malicious" <-> fge r hi = true)
  /\ (three_level hi lo r = "suspicious" <-> fge r lo = true /\ flt r hi = true)
  /\ (three_level hi lo r = "benign" <-> flt r lo = true).
Proof.
  intros Hr Hhi Hlo Hlt. unfold three_level, fge, flt in *.
  rewrite !(fle_negb_flt r _) by assumption.
  destruct (r <? hi)%float eqn:E1, (r <? lo)%float eqn:E2; cbn [negb];
    try (repeat split; intros; try discriminate; try tauto; fail).
  - repeat split; intros; try discriminate; try tauto.
    destruct H; discriminate.
  - assert ((r <? hi)%float = true) by (eapply flt_trans; eassumption). congruence.
  - repeat split; intros; try discriminate; try tauto.
    destruct H; discriminate.
Qed.

(** C6: the static scorer computes
    [0.5 * (dangerous-permission hits / 15) + 0.3 * (suspicious-API hits / 5)
     + 0.2 * boot], clamped to [0, 1]; the verdict is malicious from 0.70,
    suspicious from 0.40 to below 0.70, and benign below 0.40; with no hit
    and no boot intent the score is 0.0 and the verdict benign. *)
Theorem C6_static_score_formula (features : Features) :
  let n_danger := intersection_size DANGEROUS_CATALOG (get_list (f_permissions features)) in
  let n_apis := length (remove_dups (get_list (f_suspicious_apis features))) in
  let has_boot := Exists (occurs "BOOT_COMPLETED") (get_list (f_intents features)) in
  let risk := (static_score features).1 in
  let verdict := (static_score features).2 in
  risk = fmax 0 (fmin 1 (0.5 * (of_nat n_danger / of_nat 15)
                         + 0.3 * (of_nat n_apis / of_nat 5)
                         + 0.2 * (if decide has_boot then 1 else 0)))%float
  /\ in_unit risk
  /\ (verdict = "malicious" <-> fge risk 0.70 = true)
  /\ (verdict = "suspicious" <-> fge risk 0.40 = true /\ flt risk 0.70 = true)
  /\ (verdict = "benign" <-> flt risk 0.40 = true)
  /\ (n_danger = 0%nat -> n_apis = 0%nat -> ~ has_boot ->
      risk = 0%float /\ verdict = "benign").
Proof.
  intros n_danger n_apis has_boot risk verdict.
  assert (Hrisk : risk = fmax 0 (fmin 1 (0.5 * (of_nat n_danger / of_nat 15)
                                         + 0.3 * (of_nat n_apis / of_nat 5)
                                         + 0.2 * (if decide has_boot then 1 else 0)))%float).
  { subst risk n_danger n_apis has_boot. unfold static_score. cbn [fst].
    rewrite n_danger_spec. unfold n_apis_of. rewrite size_distinct.
    unfold clamp01. do 4 f_equal.
    destruct (intent_boot_of features) eqn:E.
    - rewrite decide_True; [reflexivity|]. now apply intent_boot_spec.
    - rewrite decide_False; [reflexivity|]. intros H. apply intent_boot_spec in H. congruence. }
  assert (Hunit : in_unit risk) by (subst risk; unfold static_score; apply clamp01_bounds).
  assert (Hv : verdict = three_level 0.70 0.40 risk) by reflexivity.
  clearbody verdict risk. subst verdict.
  destruct (three_level_intervals 0.70 0.40 risk) as (Hm & Hs & Hb);
    [exact (in_unit_number _ Hunit)|apply is_number_intro; vm_compute; reflexivity
    |apply is_number_intro; vm_compute; reflexivity|vm_compute; reflexivity|].
  split; [exact Hrisk|]. split; [exact Hunit|].
  split; [exact Hm|]. split; [exact Hs|]. split; [exact Hb|].
  intros Hd Ha Hboot. rewrite Hrisk, Hd, Ha, decide_False by exact Hboot.
  split; vm_compute; reflexivity.
Qed.

Lemma truthy_spec (logs : option LogDict) : truthy logs = true <-> supplied logs.
Proof.
  unfold truthy, supplied. destruct logs as [d|].
  - rewrite !orb_true_iff, !bool_decide_eq_true, negb_true_iff, Nat.eqb_neq.
    split; [intros H; exists d; tauto|intros (d' & Hd & H); injection Hd as <-; tauto].
  - split; [discriminate|intros (d & Hd & _); discriminate].
Qed.

(** C7: the hybrid scorer answers the mean of the static and the dynamic
    sub-score when dynamic logs are supplied and the static sub-score alone
    when not, and classifies with the pair 0.70 / 0.40, as the static scorer
    does; the dynamic scorer classifies with 0.65 / 0.35. *)
Theorem C7_hybrid_score_mean (features : Features) (logs : option LogDict) :
  (forall d, logs = Some d -> supplied logs ->
     (hybrid_score features logs).1
     = (((static_score features).1 + (dynamic_score d).1) / 2)%float)
  /\ (~ supplied logs -> (hybrid_score features logs).1 = (static_score features).1)
  /\ (hybrid_score features logs).2 = three_level 0.70 0.40 (hybrid_score features logs).1
  /\ (static_score features).2 = three_level 0.70 0.40 (static_score features).1
  /\ (forall d, (dynamic_score d).2 = three_level 0.65 0.35 (dynamic_score d).1).
Proof.
  split; [|split; [|split; [|split]]].
  - intros d -> Hs. apply truthy_spec in Hs. unfold hybrid_score.
    destruct (static_score features) as [sr sv]. rewrite Hs.
    destruct (dynamic_score d) as [dr dv]. reflexivity.
  - intros Hs. assert (Ht : truthy logs = false).
    { destruct (truthy logs) eqn:E; [|reflexivity]. now apply truthy_spec in E. }
    unfold hybrid_score. destruct (static_score features) as [sr sv] eqn:Es.
    destruct logs as [d|]; [rewrite Ht|]; reflexivity.
  - unfold hybrid_score. destruct (static_score features) as [sr sv]. reflexivity.
  - reflexivity.
  - intros d. reflexivity.
Qed.

Lemma static_score_unit (features : Features) : in_unit (static_score features).1.
Proof. unfold static_score. apply clamp01_bounds. Qed.

Lemma dynamic_score_unit (logs : LogDict) : in_unit (dynamic_score logs).1.
Proof. unfold dynamic_score. apply clamp01_bounds. Qed.

Lemma hybrid_score_unit (features : Features) (logs : option LogDict) :
  in_unit (hybrid_score features logs).1.
Proof.
  pose proof (static_score_unit features) as Hs.
  unfold hybrid_score. destruct (static_score features) as [sr sv] eqn:Es. cbn [fst] in *.
  destruct logs as [d|]; [|exact Hs].
  destruct (truthy (Some d)); [|exact Hs].
  pose proof (dynamic_score_unit d) as Hd.
  destruct (dynamic_score d) as [dr dv]. cbn [fst] in *.
  destruct Hs as [Hs0 Hs1], Hd as [Hd0 Hd1].
  apply half_sum_bounds; assumption.
Qed.

Lemma three_level_mono (hi lo r1 r2 : float) :
  fle r1 r2 = true ->
  (severity (three_level hi lo r1) <= severity (three_level hi lo r2))%nat.
Proof.
  intros H. unfold three_level, fge, fle in *.
  destruct (hi <=? r1)%float eqn:E1.
  - rewrite (fle_trans hi r1 r2 E1 H). reflexivity.
  - destruct (lo <=? r1)%float eqn:E2.
    + rewrite (fle_trans lo r1 r2 E2 H). destruct (hi <=? r2)%float; cbn; lia.
    + cbn. lia.
Qed.

End RiskFacts.

(** ** Every policy: scores between 0 and 1, verdicts by the table *)

Module FusionFacts.
Import Analyzer MlModel Main RiskModel Spec Samples.
Import StringFacts SetFacts Binary64 Binary64Facts AnalyzerFacts EndpointFacts RiskFacts.

Lemma bucket_unit (n : nat) : in_unit (bucket n).1 /\ (bucket n).2 = five_level (bucket n).1.
Proof.
  unfold bucket.
  repeat (match goal with
          | |- context [(n <=? ?k)%nat] =>
              destruct (n <=? k)%nat; [repeat split; vm_compute; reflexivity|]
          end).
  repeat split; vm_compute; reflexivity.
Qed.

Lemma static_risk_unit (feats : StaticFeatures) : in_unit (static_risk feats).
Proof.
  unfold static_risk. apply fmin_one_bounds.
  apply add_nonneg; apply mul_nonneg; try reflexivity; apply of_nat_nonneg.
Qed.

Lemma dynamic_risk_unit (dyn_logs : DynamicLogs) : in_unit (dynamic_risk dyn_logs).
Proof.
  unfold dynamic_risk. apply fmin_one_bounds.
  apply add_nonneg; [|now destruct (get_sms_used dyn_logs)].
  apply add_nonneg; apply mul_nonneg; try reflexivity; apply of_nat_nonneg.
Qed.

Lemma heuristic_score_unit (feats : StaticFeatures) (dyn_logs : DynamicLogs) :
  in_unit (heuristic_score feats dyn_logs).
Proof.
  unfold heuristic_score. apply fmin_one_bounds.
  apply add_nonneg; [|now destruct (get_sms_used dyn_logs)].
  repeat apply add_nonneg; apply mul_nonneg; try reflexivity; apply of_nat_nonneg.
Qed.

Lemma five_level_mono (r1 r2 : float) :
  fle r1 r2 = true -> (severity (five_level r1) <= severity (five_level r2))%nat.
Proof.
  intros H. unfold five_level, flt, fle in *.
  repeat (match goal with
          | |- context [(r2 <? ?t)%float] =>
              destruct (r2 <? t)%float eqn:?;
              [rewrite (fle_flt_trans r1 r2 t) by assumption|]
          end);
    repeat (match goal with
            | |- context [(r1 <? ?t)%float] => destruct (r1 <? t)%float
            end);
    cbn; lia.
Qed.

(** C8, as stated, fails under the classifier override: the endpoint hands
    on what the classifier answers as it is, so a loaded model answering
    1.5 gives the score 1.5, which is above 1. *)
Lemma C8_counterexample :
  exists rep,
    analyze_hybrid (parse_as only_url_calls) decode_ascii (Some (fun _ => Ret 1.5%float))
      sample_fs "/tmp/tmpq1.apk" "sample.apk" (text "PK") = OK rep
    /\ risk_score rep = 1.5%float
    /\ verdict rep = "ransomware"
    /\ fle (risk_score rep) 1 = false
    /\ ~ in_unit (risk_score rep).
Proof.
  eexists. split; [reflexivity|]. cbn [risk_score verdict].
  split; [reflexivity|]. split; [reflexivity|]. split; [reflexivity|].
  intros [_ H]. vm_compute in H. discriminate.
Qed.

(** C8, amended: under the bucketed count (A), the heuristic scores of the
    three endpoints (B) and the normalised scorers (C) the score is between
    0 and 1; under the classifier override the score is the classifier's
    answer, not clamped. In every case, the override included, the verdict
    is what the policy's threshold table gives for the score, a monotone
    function of it. *)
Theorem C8_scores_in_unit_unless_overridden
    parse_apk decode_ignore (MODEL : option (list nat -> Exc float))
    (fs : gmap string (list ascii)) tmp filename content :
  (forall apk_path r,
      hybrid_features parse_apk decode_ignore fs apk_path = Ret r ->
      in_unit (Analyzer.risk_score r)
      /\ Analyzer.verdict r = five_level (Analyzer.risk_score r))
  /\ (forall rep,
        analyze_static parse_apk fs tmp filename content = OK rep ->
        in_unit (risk_score rep) /\ verdict rep = five_level (risk_score rep))
  /\ (forall rep,
        analyze_dynamic parse_apk decode_ignore fs tmp filename content = OK rep ->
        in_unit (risk_score rep) /\ verdict rep = five_level (risk_score rep))
  /\ (forall rep,
        analyze_hybrid parse_apk decode_ignore MODEL fs tmp filename content = OK rep ->
        verdict rep = five_level (risk_score rep)
        /\ (MODEL = None ->
            in_unit (risk_score rep)
            /\ risk_score rep
               = heuristic_score (static_features_of (payload rep))
                   (dynamic_logs_of (payload rep)))
        /\ (forall predict_proba, MODEL = Some predict_proba ->
              predict_proba (extract_vector (static_features_of (payload rep))
                               (dynamic_logs_of (payload rep)))
              = Ret (risk_score rep)))
  /\ (forall features,
        in_unit (static_score features).1
        /\ (static_score features).2 = three_level 0.70 0.40 (static_score features).1)
  /\ (forall logs,
        in_unit (dynamic_score logs).1
        /\ (dynamic_score logs).2 = three_level 0.65 0.35 (dynamic_score logs).1)
  /\ (forall features logs,
        in_unit (hybrid_score features logs).1
        /\ (hybrid_score features logs).2
           = three_level 0.70 0.40 (hybrid_score features logs).1)
  /\ (forall r1 r2, fle r1 r2 = true ->
        (severity (five_level r1) <= severity (five_level r2))%nat
        /\ (severity (three_level 0.70 0.40 r1) <= severity (three_level 0.70 0.40 r2))%nat
        /\ (severity (three_level 0.65 0.35 r1) <= severity (three_level 0.65 0.35 r2))%nat).
Proof.
  split; [|split; [|split; [|split; [|split; [|split; [|split]]]]]].
  - intros apk_path r Hr. unfold hybrid_features in Hr.
    destruct (static_features parse_apk fs apk_path) as [st|e]; [|discriminate].
    cbn [bind] in Hr.
    pose proof (bucket_unit (suspicious_count_of st
                               (dynamic_features parse_apk decode_ignore fs apk_path))) as Hb.
    destruct (bucket _) as [risk v]. injection Hr as <-. exact Hb.
  - intros rep Hrep. unfold analyze_static, upload_check in Hrep.
    destruct (negb _); [discriminate|]. destruct content; [discriminate|].
    destruct (extract_static_features _ _ _ _) as [feats|e]; [|discriminate].
    injection Hrep as <-. split; [apply static_risk_unit|reflexivity].
  - intros rep Hrep. unfold analyze_dynamic, upload_check in Hrep.
    destruct (negb _); [discriminate|]. destruct content; [discriminate|].
    injection Hrep as <-. split; [apply dynamic_risk_unit|reflexivity].
  - intros rep Hrep. unfold analyze_hybrid, upload_check in Hrep.
    destruct (negb _); [discriminate|]. destruct content; [discriminate|].
    destruct (extract_static_features _ _ _ _) as [feats|e]; [|discriminate].
    destruct MODEL as [predict_proba|].
    + destruct (predict_proba _) as [p|e] eqn:Ep; [|discriminate].
      injection Hrep as <-. cbn [verdict risk_score payload static_features_of dynamic_logs_of].
      split; [reflexivity|]. split; [discriminate|].
      intros predict_proba' [= <-]. exact Ep.
    + injection Hrep as <-. cbn [verdict risk_score payload static_features_of dynamic_logs_of].
      split; [reflexivity|]. split; [|discriminate].
      intros _. split; [apply heuristic_score_unit|reflexivity].
  - intros features. split; [apply static_score_unit|reflexivity].
  - intros logs. split; [apply dynamic_score_unit|reflexivity].
  - intros features logs. split; [apply hybrid_score_unit|].
    unfold hybrid_score. destruct (static_score features) as [sr sv]. reflexivity.
  - intros r1 r2 H. split; [now apply five_level_mono|].
    split; now apply three_level_mono.
Qed.

End FusionFacts.

(** ** The byte scan for IPv4 literals *)

Module ScanFacts.
Import Re Analyzer Spec Samples AnalyzerFacts.

Lemma plus_loop_sound (p : ascii -> bool) (s : list ascii) :
  forall prev k x,
    plus_loop p prev s k = Some x ->
    exists w s' prev', s = (w ++ s')%list /\ Forall (fun c => p c = true) w
                       /\ k prev' s' = Some x.
Proof.
  induction s as [|c s IH]; intros prev k x H; cbn [plus_loop] in H.
  - exists [], [], (Some prev). repeat split; [constructor|exact H].
  - destruct (p c) eqn:Ec.
    + destruct (plus_loop p c s k) as [y|] eqn:E.
      * injection H as <-. destruct (IH _ _ _ E) as (w & s' & prev' & -> & Hw & Hk).
        exists (c :: w), s', prev'. repeat split; [now constructor|exact Hk].
      * exists [], (c :: s), (Some prev). repeat split; [constructor|exact H].
    + exists [], (c :: s), (Some prev). repeat split; [constructor|exact H].
Qed.

(** Whatever way the matcher succeeds, it has consumed a text of the
    pattern before handing over to the continuation. *)
Lemma run_sound (r : regex) :
  forall prev s k x,
    run r prev s k = Some x ->
    exists w s' prev', s = (w ++ s')%list /\ lang r w /\ k prev' s' = Some x.
Proof.
  induction r as [|p|r1 IH1 r2 IH2|r1 IH1 r2 IH2|r1 IH1|p|];
    intros prev s k x H; cbn [run] in H; cbn [lang].
  - exists [], s, prev. repeat split. exact H.
  - destruct s as [|c s]; [discriminate|]. destruct (p c) eqn:Ec; [|discriminate].
    exists [c], s, (Some c). repeat split; [now exists c|exact H].
  - destruct (IH1 _ _ _ _ H) as (w1 & s1 & prev1 & -> & Hw1 & H1).
    destruct (IH2 _ _ _ _ H1) as (w2 & s2 & prev2 & -> & Hw2 & H2).
    exists (w1 ++ w2)%list, s2, prev2. rewrite <- app_assoc. repeat split; [|exact H2].
    now exists w1, w2.
  - destruct (run r1 prev s k) as [y|] eqn:E.
    + injection H as <-. destruct (IH1 _ _ _ _ E) as (w & s' & prev' & -> & Hw & Hk).
      exists w, s', prev'. repeat split; [now left|exact Hk].
    + destruct (IH2 _ _ _ _ H) as (w & s' & prev' & -> & Hw & Hk).
      exists w, s', prev'. repeat split; [now right|exact Hk].
  - destruct (run r1 prev s k) as [y|] eqn:E.
    + injection H as <-. destruct (IH1 _ _ _ _ E) as (w & s' & prev' & -> & Hw & Hk).
      exists w, s', prev'. repeat split; [now right|exact Hk].
    + exists [], s, prev. repeat split; [now left|exact H].
  - destruct s as [|c s]; [discriminate|]. destruct (p c) eqn:Ec; [|discriminate].
    destruct (plus_loop_sound _ _ _ _ _ H) as (w & s' & prev' & -> & Hw & Hk).
    exists (c :: w), s', prev'. repeat split; [discriminate|now constructor|exact Hk].
  - destruct (xorb _ _); [|discriminate].
    exists [], s, prev. repeat split. exact H.
Qed.

Lemma match_here_sound (r : regex) prev s rest :
  match_here r prev s = Some rest -> exists w, s = (w ++ rest)%list /\ lang r w.
Proof.
  intros H. destruct (run_sound r _ _ _ _ H) as (w & s' & prev' & -> & Hw & Hk).
  injection Hk as ->. now exists w.
Qed.


Lemma between_spec (lo hi c : ascii) :
  between lo hi c = true <-> (code lo <= code c <= code hi)%N.
Proof. unfold between. now rewrite andb_true_iff, !N.leb_le. Qed.

Lemma is_char_spec (a c : ascii) : is_char a c = true <-> c = a.
Proof. unfold is_char. rewrite Ascii.eqb_eq. split; congruence. Qed.

Ltac lang_inv :=
  repeat match goal with
         | H : lang _ _ |- _ => progress cbn [lang lit] in H
         | H : exists _, _ |- _ => destruct H as [? H]
         | H : _ /\ _ |- _ => destruct H
         | H : _ \/ _ |- _ => destruct H
         | H : is_char _ _ = true |- _ => apply is_char_spec in H
         | H : between _ _ _ = true |- _ => apply between_spec in H; cbn in H
         | H : digit _ = true |- _ => apply between_spec in H; cbn in H
         end; subst.

Lemma digit_intro (c : ascii) : (48 <= code c <= 57)%N -> digit c = true.
Proof. intros H. now apply between_spec. Qed.

(** A text of the octet pattern writes a number from 0 to 255. *)
Lemma lang_octet (o : list ascii) : lang octet o -> octet_text o.
Proof.
  unfold octet. intros H. lang_inv; cbn [app];
    (split; [cbn; lia|split;
       [repeat constructor; apply digit_intro; cbn; lia
       |unfold number_of; cbn [fold_left]; cbn [code N_of_ascii]; cbn; lia]]).
Qed.

Lemma lang_octet_dot (w : list ascii) :
  lang octet_dot w -> exists o, w = (o ++ ["."%char])%list /\ octet_text o.
Proof.
  unfold octet_dot. cbn [lang lit].
  intros (o & w2 & -> & Ho & u1 & u2 & -> & (c & -> & Hdot) & ->).
  apply is_char_spec in Hdot as ->.
  exists o. split; [reflexivity|now apply lang_octet].
Qed.

(** A text of [IP_RE] is four octets separated by dots. *)
Lemma lang_IP_RE (h : list ascii) : lang IP_RE h -> dotted_quad h.
Proof.
  unfold IP_RE. cbn [lang].
  intros (w0 & w1 & -> & -> & w2 & w3 & -> & (x1 & y1 & -> & H1 & x2 & x3 & -> & H2 & H3)
          & o4 & w4 & -> & H4 & ->).
  apply lang_octet_dot in H1 as (a & -> & Ha).
  apply lang_octet_dot in H2 as (b & -> & Hb).
  apply lang_octet_dot in H3 as (c & -> & Hc).
  apply lang_octet in H4.
  exists a, b, c, o4. split; [|auto].
  cbn [app]. rewrite app_nil_r, <- !app_assoc. cbn [app]. reflexivity.
Qed.




End ScanFacts.

(** ** File names *)

Module PathFacts.
Import Spec StringFacts PathDefs.

Lemma append_assoc (a b c : string) : (a ++ b) ++ c = a ++ (b ++ c).
Proof. induction a as [|x a IH]; [reflexivity|]. rewrite !append_cons. now rewrite IH. Qed.

Lemma append_empty_r (a : string) : a ++ EmptyString = a.
Proof. induction a as [|x a IH]; [reflexivity|]. rewrite append_cons. now rewrite IH. Qed.

Lemma rev_string_append (s acc : string) : rev_string s acc = backwards s ++ acc.
Proof.
  unfold backwards. revert acc. induction s as [|c s IH]; intros acc; cbn [rev_string].
  - reflexivity.
  - rewrite (IH (String c acc)), (IH (String c EmptyString)), append_assoc. reflexivity.
Qed.

Lemma backwards_cons (c : ascii) (s : string) :
  backwards (String c s) = backwards s ++ String c EmptyString.
Proof. unfold backwards at 1. cbn [rev_string]. apply rev_string_append. Qed.

Lemma backwards_append (a b : string) : backwards (a ++ b) = backwards b ++ backwards a.
Proof.
  induction a as [|c a IH].
  - cbn. now rewrite append_empty_r.
  - rewrite append_cons, !backwards_cons, IH, append_assoc. reflexivity.
Qed.

Lemma backwards_involutive (s : string) : backwards (backwards s) = s.
Proof.
  induction s as [|c s IH]; [reflexivity|].
  rewrite backwards_cons, backwards_append, IH. reflexivity.
Qed.

(** [s.endswith(suffix)] holds exactly when [s] is some text followed by [suffix]. *)
Lemma endswith_spec (s suffix : string) :
  endswith s suffix = true <-> exists pre, s = pre ++ suffix.
Proof.
  unfold endswith. fold (backwards suffix). fold (backwards s). rewrite prefix_spec. split.
  - intros [t H]. exists (backwards t).
    rewrite <- (backwards_involutive s), H, backwards_append, backwards_involutive.
    reflexivity.
  - intros [pre ->]. exists (backwards pre). apply backwards_append.
Qed.

#[global] Instance ends_in_dec (suffix s : string) : Decision (ends_in suffix s).
Proof.
  destruct (endswith s suffix) eqn:E.
  - left. now apply endswith_spec.
  - right. intros H. apply endswith_spec in H. congruence.
Defined.














End PathFacts.

(** ** The order of [sorted] *)

Module OrderFacts.
Import Analyzer AnalyzerFacts.

Lemma ascii_compare_refl (a : ascii) : Ascii.compare a a = Eq.
Proof. unfold Ascii.compare. apply N.compare_refl. Qed.

Lemma compare_trans_le (a b c : string) :
  String.compare a b <> Gt -> String.compare b c <> Gt -> String.compare a c <> Gt.
Proof.
  revert b c. induction a as [|x a IH]; intros [|y b] [|z c]; cbn [String.compare];
    try congruence.
  unfold Ascii.compare.
  destruct (N.compare_spec (N_of_ascii x) (N_of_ascii y)) as [Hxy|Hxy|Hxy]; [| |congruence];
    destruct (N.compare_spec (N_of_ascii y) (N_of_ascii z)) as [Hyz|Hyz|Hyz]; try congruence;
    destruct (N.compare_spec (N_of_ascii x) (N_of_ascii z)) as [Hxz|Hxz|Hxz];
    try congruence; try lia.
  apply IH.
Qed.

#[global] Instance str_le_trans : Transitive str_le.
Proof.
  intros a b c. unfold str_le, String.leb. intros H1 H2.
  pose proof (compare_trans_le a b c) as H.
  destruct (String.compare a b); destruct (String.compare b c);
    destruct (String.compare a c); try exact I; try (now destruct H1); try (now destruct H2);
    exfalso; apply H; congruence.
Qed.

#[global] Instance str_le_total : Total str_le.
Proof.
  intros a b. unfold str_le. destruct (String.leb_total a b) as [H|H]; rewrite H; auto.
Qed.

#[global] Instance str_le_antisym : AntiSymm eq str_le.
Proof.
  intros a b Hab Hba. unfold str_le in *. apply String.leb_antisym; now apply Is_true_true.
Qed.

(** [sorted(s)] lists the members of the set [s], each once, in ascending order. *)
Lemma sorted_ascending (s : gset string) : StronglySorted str_le (sorted s).
Proof. unfold sorted. apply StronglySorted_merge_sort; apply _. Qed.

Lemma sorted_nodup (s : gset string) : NoDup (sorted s).
Proof.
  unfold sorted. rewrite merge_sort_Permutation. apply NoDup_elements.
Qed.

Lemma elem_of_sorted_set (l : list string) (x : string) : x ∈ sorted_set l <-> x ∈ l.
Proof. unfold sorted_set. now rewrite elem_of_sorted, elem_of_list_to_set. Qed.

End OrderFacts.

(** ** What the signature scan finds *)

Module HitFacts.
Import Analyzer Spec StringFacts SetFacts AnalyzerFacts OrderFacts Visited.

Lemma foldl_member {A} (f : gset string -> A -> gset string) (P : A -> Prop) (x : string) :
  (forall h a, x ∈ f h a <-> x ∈ h \/ P a) ->
  forall l h, x ∈ foldl f h l <-> x ∈ h \/ Exists P l.
Proof.
  intros Hf l. induction l as [|a l IH]; intros h; cbn [foldl].
  - rewrite Exists_nil. tauto.
  - rewrite IH, Hf, Exists_cons. tauto.
Qed.

Lemma add_needles_member (c : string) (hits : gset string) (x : string) :
  x ∈ add_needles c hits
  <-> x ∈ hits \/ (x ∈ SUSPICIOUS_API_SUBSTRINGS /\ occurs x c).
Proof.
  unfold add_needles.
  rewrite (foldl_member _ (fun needle => x = needle /\ occurs x c)).
  - rewrite Exists_exists. split.
    + intros [H|(n & Hn & -> & Ho)]; [now left|right; now split].
    + intros [H|[Hx Ho]]; [now left|right; now exists x].
  - intros h needle. destruct (str_in needle c) eqn:E.
    + apply str_in_spec in E. rewrite elem_of_union, elem_of_singleton. split.
      * intros [->|H]; [right; now split|now left].
      * intros [H|[-> _]]; [now right|now left].
    + split; [now left|]. intros [H|[-> Ho]]; [exact H|].
      apply str_in_spec in Ho. congruence.
Qed.

Lemma match_method_member (m : Method) (hits : gset string) (x : string) :
  x ∈ match_method m hits <-> x ∈ hits \/ Exists (found x) (method_xrefs m).
Proof.
  unfold match_method, method_xrefs. destruct (get_xref_to m) as [xs|e].
  - apply foldl_member. intros h s. apply add_needles_member.
  - rewrite Exists_nil. tauto.
Qed.

Lemma match_methods_member (ms : list Method) (hits : gset string) (x : string) :
  x ∈ foldl (fun h m => match_method m h) hits ms
  <-> x ∈ hits \/ Exists (found x) (concat (map method_xrefs ms)).
Proof.
  rewrite (foldl_member _ (fun m => Exists (found x) (method_xrefs m))).
  - rewrite Exists_concat, Exists_fmap. reflexivity.
  - intros h m. apply match_method_member.
Qed.

Lemma match_classes_member (cs : list Class) (hits : gset string) (x : string) :
  x ∈ match_classes cs hits <-> x ∈ hits \/ Exists (found x) (classes_xrefs cs).
Proof.
  revert hits. induction cs as [|cls cs IH]; intros hits; cbn [match_classes classes_xrefs].
  - rewrite Exists_nil. tauto.
  - destruct (get_methods cls) as [ms|e].
    + rewrite IH, match_methods_member, Exists_app. tauto.
    + rewrite Exists_nil. tauto.
Qed.

Lemma matched_hits_member (dx : Analysis) (x : string) :
  x ∈ matched_hits dx <-> Exists (found x) (visited_xrefs dx).
Proof.
  unfold matched_hits, visited_xrefs. destruct (get_classes dx) as [cs|e].
  - rewrite match_classes_member, elem_of_empty. tauto.
  - rewrite Exists_nil, elem_of_empty. tauto.
Qed.

Lemma matched_hits_needles (dx : Analysis) :
  matched_hits dx ⊆ list_to_set SUSPICIOUS_API_SUBSTRINGS.
Proof.
  intros x Hx. apply matched_hits_member, Exists_exists in Hx as (s & _ & Hn & _).
  now apply elem_of_list_to_set.
Qed.

Lemma needles_nodup : NoDup SUSPICIOUS_API_SUBSTRINGS.
Proof. apply (bool_decide_unpack _). vm_compute. exact I. Qed.

Lemma matched_hits_size (dx : Analysis) : size (matched_hits dx) <= 9.
Proof.
  etransitivity; [apply subseteq_size, matched_hits_needles|].
  rewrite size_list_to_set by apply needles_nodup. reflexivity.
Qed.

(** X5: the list [_match_suspicious_apis] returns is ascending and without
    repetition, and holds a signature exactly when the signature is one of
    the nine of the table and occurs in the text [class->name] of a call the
    scan visits; so it never has more than nine entries. *)
Theorem X5_match_suspicious_apis_spec (dx : Analysis) :
  StronglySorted str_le (_match_suspicious_apis dx)
  /\ NoDup (_match_suspicious_apis dx)
  /\ (forall x, x ∈ _match_suspicious_apis dx
        <-> x ∈ SUSPICIOUS_API_SUBSTRINGS
            /\ exists s, s ∈ visited_xrefs dx /\ occurs x (class_name s ++ "->" ++ name s))
  /\ length (_match_suspicious_apis dx) <= 9.
Proof.
  unfold _match_suspicious_apis.
  split; [apply sorted_ascending|]. split; [apply sorted_nodup|]. split.
  - intros x. rewrite elem_of_sorted, matched_hits_member, Exists_exists. unfold found, called.
    split.
    + intros (s & Hs & Hn & Ho). split; [exact Hn|now exists s].
    + intros (Hn & s & Hs & Ho). now exists s.
  - rewrite length_sorted. apply matched_hits_size.
Qed.

End HitFacts.

(** ** What the endpoints answer *)

Module AnswerFacts.
Import Analyzer MlModel Main Spec Samples StringFacts SetFacts Binary64 Binary64Facts.
Import AnalyzerFacts EndpointFacts PathFacts OrderFacts HitFacts.

Lemma upload_check_400 {A} (filename : string) (content : list ascii) (run : Response A) :
  (forall d, run <> HTTPException 400 d) ->
  (upload_check filename content run = HTTPException 400 "Please upload an .apk file"
     <-> endswith filename ".apk" = false)
  /\ (upload_check filename content run = HTTPException 400 "Empty file received"
     <-> endswith filename ".apk" = true /\ content = [])
  /\ ((exists d, upload_check filename content run = HTTPException 400 d)
     <-> endswith filename ".apk" = false \/ content = []).
Proof.
  intros Hrun. unfold upload_check.
  destruct (endswith filename ".apk"); cbn [negb]; [destruct content as [|c content]|].
  - split; [split; discriminate|]. split; [tauto|].
    split; [now right|intros _; now eexists].
  - split; [split; [intros H; now apply Hrun in H|discriminate]|].
    split; [split; [intros H; now apply Hrun in H|intros [_ H]; discriminate]|].
    split; [intros [d H]; now apply Hrun in H|intros [H|H]; discriminate].
  - split; [tauto|]. split; [split; [discriminate|intros [H _]; discriminate]|].
    split; [now left|intros _; now eexists].
Qed.

Ltac split_run :=
  eexists; split; [reflexivity|]; intros detail H; cbv zeta in H;
  repeat match type of H with
         | context [match ?x with _ => _ end] => destruct x
         end; discriminate.

Lemma analyze_static_run parse_apk (fs : gmap string (list ascii)) tmp filename content :
  exists run, analyze_static parse_apk fs tmp filename content = upload_check filename content run
              /\ forall detail, run <> HTTPException 400 detail.
Proof. split_run. Qed.

Lemma analyze_dynamic_run parse_apk decode_ignore (fs : gmap string (list ascii)) tmp
    filename content :
  exists run, analyze_dynamic parse_apk decode_ignore fs tmp filename content
              = upload_check filename content run
              /\ forall detail, run <> HTTPException 400 detail.
Proof. split_run. Qed.

Lemma analyze_hybrid_run parse_apk decode_ignore MODEL (fs : gmap string (list ascii)) tmp
    filename content :
  exists run, analyze_hybrid parse_apk decode_ignore MODEL fs tmp filename content
              = upload_check filename content run
              /\ forall detail, run <> HTTPException 400 detail.
Proof. split_run. Qed.

(** X1: each of the three analysis endpoints turns away, with status 400,
    exactly the uploads whose file name does not end in [.apk] (Please
    upload an .apk file) and, the name being right, those with no bytes
    (Empty file received); the name is looked at first, and no other
    upload is answered 400. *)
Theorem X1_upload_validation parse_apk decode_ignore MODEL
    (fs : gmap string (list ascii)) tmp filename content :
  let named := exists stem, filename = stem ++ ".apk" in
  let s := analyze_static parse_apk fs tmp filename content in
  let d := analyze_dynamic parse_apk decode_ignore fs tmp filename content in
  let h := analyze_hybrid parse_apk decode_ignore MODEL fs tmp filename content in
  (~ named <->
     s = HTTPException 400 "Please upload an .apk file"
     /\ d = HTTPException 400 "Please upload an .apk file"
     /\ h = HTTPException 400 "Please upload an .apk file")
  /\ (named /\ content = [] <->
     s = HTTPException 400 "Empty file received"
     /\ d = HTTPException 400 "Empty file received"
     /\ h = HTTPException 400 "Empty file received")
  /\ (named /\ content <> [] <->
     (forall detail, s <> HTTPException 400 detail)
     /\ (forall detail, d <> HTTPException 400 detail)
     /\ (forall detail, h <> HTTPException 400 detail)).
Proof.
  intros named s d h.
  assert (Hnamed : endswith filename ".apk" = true <-> named) by apply endswith_spec.
  assert (Hnot : endswith filename ".apk" = false <-> ~ named).
  { rewrite <- Hnamed. destruct (endswith filename ".apk"); split; congruence. }
  destruct (analyze_static_run parse_apk fs tmp filename content) as (rs & Es & Hs).
  destruct (analyze_dynamic_run parse_apk decode_ignore fs tmp filename content)
    as (rd & Ed & Hd).
  destruct (analyze_hybrid_run parse_apk decode_ignore MODEL fs tmp filename content)
    as (rh & Eh & Hh).
  pose proof (upload_check_400 filename content _ Hs) as (Hs1 & Hs2 & Hs3).
  pose proof (upload_check_400 filename content _ Hd) as (Hd1 & Hd2 & Hd3).
  pose proof (upload_check_400 filename content _ Hh) as (Hh1 & Hh2 & Hh3).
  rewrite <- Es in Hs1, Hs2, Hs3. rewrite <- Ed in Hd1, Hd2, Hd3.
  rewrite <- Eh in Hh1, Hh2, Hh3.
  fold s in Hs1, Hs2, Hs3. fold d in Hd1, Hd2, Hd3. fold h in Hh1, Hh2, Hh3.
  clearbody s d h. clear Es Ed Eh.
  split; [|split].
  - rewrite <- Hnot, Hs1, Hd1, Hh1. tauto.
  - rewrite <- Hnamed, Hs2, Hd2, Hh2. tauto.
  - rewrite <- Hnamed. split.
    + intros [Hn Hc]. repeat split; intros detail H.
      * destruct (proj1 Hs3 (ex_intro _ detail H)); congruence.
      * destruct (proj1 Hd3 (ex_intro _ detail H)); congruence.
      * destruct (proj1 Hh3 (ex_intro _ detail H)); congruence.
    + intros (H1 & _ & _). split.
      * destruct (endswith filename ".apk") eqn:E; [reflexivity|].
        destruct (proj2 Hs3 (or_introl eq_refl)) as [detail H]. now destruct (H1 detail).
      * intros ->. destruct (proj2 Hs3 (or_intror eq_refl)) as [detail H].
        now destruct (H1 detail).
Qed.

Lemma verdict_of_benign (r : float) : verdict_of r = "benign" <-> flt r 0.2 = true.
Proof.
  unfold verdict_of. destruct (flt r 0.2); [tauto|].
  destruct (flt r 0.4); [split; discriminate|].
  destruct (flt r 0.6); [split; discriminate|].
  destruct (flt r 0.8); split; discriminate.
Qed.

Lemma above_benign (c r : float) :
  flt c 0.2 = false -> fle c r = true -> flt r 0.2 = false.
Proof.
  unfold flt, fle. intros Hc H. destruct (r <? 0.2)%float eqn:E; [|reflexivity].
  rewrite (fle_flt_trans _ _ _ H E) in Hc. discriminate.
Qed.

Lemma static_features_ret parse_apk (fs : gmap string (list ascii)) apk_path feats :
  static_features parse_apk fs apk_path = Ret feats ->
  exists a d dx, AnalyzeAPK parse_apk fs apk_path = Ret (a, d, dx).
Proof.
  unfold static_features. destruct (AnalyzeAPK parse_apk fs apk_path) as [[[a d] dx]|e].
  - intros _. now exists a, d, dx.
  - discriminate.
Qed.



(** X3: with no classifier loaded, the hybrid endpoint never answers benign:
    whenever it answers 200 the score is at least 0.2, the verdict is one of
    the four others and the style is the red one. *)
Theorem X3_hybrid_heuristic_never_benign parse_apk decode_ignore
    (fs : gmap string (list ascii)) tmp filename content rep :
  analyze_hybrid parse_apk decode_ignore None fs tmp filename content = OK rep ->
  risk_score rep
  = heuristic_score (static_features_of (payload rep)) (dynamic_logs_of (payload rep))
  /\ fle 0.2 (risk_score rep) = true
  /\ verdict rep <> "benign"
  /\ recommended_action rep <> "Safe to use"
  /\ style (payload rep) = "#F44336".
Proof.
  unfold analyze_hybrid, upload_check.
  destruct (negb _); [discriminate|]. destruct content as [|c content]; [discriminate|].
  destruct (extract_static_features parse_apk fs tmp (c :: content)) as [feats|e] eqn:Hf;
    [|discriminate].
  intros H. injection H as <-. cbn [risk_score verdict payload style recommended_action
                                    static_features_of dynamic_logs_of].
  destruct (static_features_ret _ _ _ _ Hf) as (a & d & dx & Hp).
  destruct (dynamic_features_parsed _ decode_ignore _ _ _ _ _ Hp)
    as (r & Hd & _ & _ & Hsms & _).
  rewrite sms_flag_set in Hsms.
  assert (Hrisk : fle 0.2 (heuristic_score feats
                             (analyze_dynamic_features parse_apk decode_ignore fs tmp
                                (c :: content))) = true).
  { unfold analyze_dynamic_features. rewrite Hd. unfold heuristic_score.
    cbn [get_sms_used]. rewrite Hsms. unfold fle.
    apply fmin_one_ge; [reflexivity|].
    apply add_ge_right; [reflexivity|].
    repeat apply add_nonneg; apply mul_nonneg; try reflexivity; apply of_nat_nonneg. }
  assert (Hnb : verdict_of (heuristic_score feats
                              (analyze_dynamic_features parse_apk decode_ignore fs tmp
                                 (c :: content))) <> "benign").
  { rewrite verdict_of_benign. rewrite (above_benign 0.2 _ eq_refl Hrisk). discriminate. }
  split; [reflexivity|]. split; [exact Hrisk|]. split; [exact Hnb|].
  revert Hnb. unfold verdict_of. 
  repeat match goal with
         | |- context [flt ?x ?t] => destruct (flt x t)
         end; intros Hnb; (split; [try discriminate|try reflexivity]); now destruct Hnb.
Qed.

Lemma X3_hybrid_heuristic_never_benign_witness :
  exists rep,
    analyze_hybrid (parse_as only_url_calls) decode_ascii None sample_fs "/tmp/tmpq1.apk"
      "sample.apk" (text "PK") = OK rep
    /\ verdict rep <> "benign".
Proof.
  eexists. split; [reflexivity|].
  apply (X3_hybrid_heuristic_never_benign (parse_as only_url_calls) decode_ascii sample_fs
           "/tmp/tmpq1.apk" "sample.apk" (text "PK") _ eq_refl).
Defined.

Lemma classified_hits_needles (dx : Analysis) (x : string) :
  x ∈ (classified_hits dx).1 \/ x ∈ (classified_hits dx).2 ->
  x ∈ SUSPICIOUS_API_SUBSTRINGS.
Proof.
  intros H. destruct (classified_hits_splits dx) as (Hu & _ & _).
  apply (elem_of_list_to_set (C:=gset string)). apply (matched_hits_needles dx).
  rewrite <- Hu. now apply elem_of_union.
Qed.

(** The [system_calls] the dynamic extraction reports are signatures of the table. *)
Lemma system_calls_needles parse_apk decode_ignore (fs : gmap string (list ascii))
    apk_path (x : string) :
  x ∈ get_system_calls (dynamic_features parse_apk decode_ignore fs apk_path) ->
  x ∈ SUSPICIOUS_API_SUBSTRINGS.
Proof.
  destruct (AnalyzeAPK parse_apk fs apk_path) as [[[a d] dx]|e] eqn:H.
  - destruct (dynamic_features_parsed _ decode_ignore _ _ _ _ _ H) as (r & -> & Hsys & _).
    cbn [get_system_calls]. rewrite Hsys.
    destruct (decide _); rewrite elem_of_sorted; intros Hx;
      apply (classified_hits_needles dx); auto.
  - unfold dynamic_features. rewrite H. cbn [get_system_calls]. now intros Hx%elem_of_nil.
Qed.

Lemma needles_not_syscalls (x : string) :
  x ∈ SUSPICIOUS_API_SUBSTRINGS -> x ∉ suspicious_sys.
Proof.
  unfold SUSPICIOUS_API_SUBSTRINGS, suspicious_sys. intros Hx Hs.
  rewrite !elem_of_union, !elem_of_singleton in Hs.
  repeat (apply elem_of_cons in Hx as [->|Hx]; [intuition discriminate|]).
  now apply elem_of_nil in Hx.
Qed.

(** X4: the row the hybrid endpoint hands to the classifier always has 0 in
    its fourth place, the count of suspicious system calls, since the
    [system_calls] of the dynamic extraction are signatures of the table and
    none of them is one of execve, chmod, chown, ptrace, kill; its first,
    second and fifth places are at most 15, 9 and 1. *)
Theorem X4_vector_syscall_count_zero parse_apk decode_ignore
    (fs : gmap string (list ascii)) tmp content feats :
  extract_static_features parse_apk fs tmp content = Ret feats ->
  exists n_danger n_api n_net has_boot,
    extract_vector feats (analyze_dynamic_features parse_apk decode_ignore fs tmp content)
    = [n_danger; n_api; n_net; 0; has_boot]
    /\ n_danger <= 15 /\ n_api <= 9 /\ has_boot <= 1
    /\ n_net = length (get_network_calls
                         (analyze_dynamic_features parse_apk decode_ignore fs tmp content)).
Proof.
  intros Hf.
  set (dyn := analyze_dynamic_features parse_apk decode_ignore fs tmp content).
  assert (Hz : size ((list_to_set (get_system_calls dyn) : gset string) ∩ suspicious_sys) = 0).
  { apply size_empty_iff, elem_of_equiv_empty. intros x.
    rewrite elem_of_intersection, elem_of_list_to_set.
    intros [Hx Hs]. apply system_calls_needles in Hx. exact (needles_not_syscalls x Hx Hs). }
  exists (size ((list_to_set (permissions feats) : gset string) ∩ dangerous)),
    (length (suspicious_apis feats)), (length (get_network_calls dyn)),
    (if any_contains "BOOT_COMPLETED" (intents feats) then 1 else 0).
  split; [|split; [|split; [|split]]].
  - unfold extract_vector. now rewrite Hz.
  - etransitivity; [apply subseteq_size, intersection_subseteq_r|]. 
    rewrite dangerous_is_catalog, size_list_to_set by apply dangerous_catalog_nodup.
    reflexivity.
  - destruct (static_features_ret _ _ _ _ Hf) as (a & d & dx & Hp).
    destruct (static_features_parsed _ _ _ _ _ _ Hp) as (feats' & Hf' & _ & _ & Hapis).
    unfold extract_static_features in Hf. rewrite Hf in Hf'. injection Hf' as <-.
    rewrite Hapis. unfold _match_suspicious_apis. rewrite length_sorted.
    apply matched_hits_size.
  - destruct (any_contains _ _); lia.
  - reflexivity.
Qed.

Lemma X4_vector_syscall_count_zero_witness :
  exists feats n_danger n_api n_net has_boot,
    extract_static_features (parse_as only_url_calls) sample_fs "/tmp/tmpq1.apk" (text "PK")
    = Ret feats
    /\ extract_vector feats
         (analyze_dynamic_features (parse_as only_url_calls) decode_ascii sample_fs
            "/tmp/tmpq1.apk" (text "PK"))
       = [n_danger; n_api; n_net; 0; has_boot].
Proof.
  destruct (X4_vector_syscall_count_zero (parse_as only_url_calls) decode_ascii sample_fs
              "/tmp/tmpq1.apk" (text "PK") _ eq_refl) as (n1 & n2 & n3 & n4 & H & _).
  eexists. exists n1, n2, n3, n4. split; [reflexivity|exact H].
Defined.

End AnswerFacts.

(** ** The records of [analyzer.py] *)

Module RecordFacts.
Import Analyzer Spec Samples StringFacts SetFacts AnalyzerFacts.
Import PathDefs PathFacts OrderFacts HitFacts.

Lemma elem_of_or_nil {A} (o : option (list A)) (x : A) :
  x ∈ or_nil o <-> exists l, o = Some l /\ x ∈ l.
Proof.
  destruct o as [[|y l]|]; cbn [or_nil].
  - split; [now intros H%elem_of_nil|]. intros (l & [= <-] & H). exact H.
  - split; [intros H; now eexists|]. intros (l' & [= <-] & H). exact H.
  - split; [now intros H%elem_of_nil|]. intros (l & H & _). discriminate.
Qed.

Lemma elem_of_receiver_intents (a : APK) (i : string) :
  i ∈ receiver_intents a
  <-> exists filters keys,
        get_intent_filters a "receiver" = Ret filters /\ keys ∈ filters /\ i ∈ keys.
Proof.
  unfold receiver_intents. destruct (get_intent_filters a "receiver") as [filters|e].
  - rewrite list_elem_of_In, in_concat. setoid_rewrite <- list_elem_of_In. split.
    + intros (keys & Hk & Hi). now exists filters, keys.
    + intros (filters' & keys & [= <-] & Hk & Hi). now exists keys.
  - split; [now intros H%elem_of_nil|]. intros (filters & keys & H & _). discriminate.
Qed.

(** X6: [static_features] fails exactly when [AnalyzeAPK] does, with its
    message. The record it returns has the size of the file in [apk_size];
    its [permissions] and [intents] are ascending and without repetition and
    hold exactly the permissions of the manifest and the keys of the
    receivers' intent filters (none when that accessor raises). *)
Theorem X6_static_features_record parse_apk (fs : gmap string (list ascii)) apk_path :
  (forall e, static_features parse_apk fs apk_path = Raise e
             <-> AnalyzeAPK parse_apk fs apk_path = Raise e)
  /\ (forall feats, static_features parse_apk fs apk_path = Ret feats ->
      exists content a d dx,
        fs !! apk_path = Some content /\ parse_apk content = Ret (a, d, dx)
        /\ apk_size feats = length content
        /\ package feats = get_package a
        /\ StronglySorted str_le (permissions feats) /\ NoDup (permissions feats)
        /\ (forall p, p ∈ permissions feats
                      <-> exists l, get_permissions a = Some l /\ p ∈ l)
        /\ StronglySorted str_le (intents feats) /\ NoDup (intents feats)
        /\ (forall i, i ∈ intents feats
                      <-> exists filters keys,
                            get_intent_filters a "receiver" = Ret filters
                            /\ keys ∈ filters /\ i ∈ keys)
        /\ suspicious_apis feats = _match_suspicious_apis dx).
Proof.
  unfold static_features, AnalyzeAPK, getsize.
  destruct (fs !! apk_path) as [content|].
  - destruct (parse_apk content) as [[[a d] dx]|e'] eqn:Hp; cbn [bind].
    + split; [intros e; rewrite ?Hp; split; discriminate|]. intros feats [= <-].
      exists content, a, d, dx. cbn.
      split; [reflexivity|]. split; [exact Hp|]. split; [reflexivity|].
      split; [reflexivity|].
      split; [apply sorted_ascending|]. split; [apply sorted_nodup|].
      split; [intros p; now rewrite elem_of_sorted_set, elem_of_or_nil|].
      split; [apply sorted_ascending|]. split; [apply sorted_nodup|].
      split; [intros i; now rewrite elem_of_sorted_set, elem_of_receiver_intents|].
      reflexivity.
    + split; [intros e; rewrite ?Hp; split; intros [= ->]; reflexivity|discriminate].
  - cbn [bind]. split; [intros e; split; intros [= ->]; reflexivity|discriminate].
Qed.

Lemma size_filter_needles (P : string -> bool) (s : gset string) :
  s ⊆ list_to_set SUSPICIOUS_API_SUBSTRINGS -> (forall x, x ∈ s -> P x = true) ->
  size s <= length (filter (fun x => Is_true (P x)) SUSPICIOUS_API_SUBSTRINGS).
Proof.
  intros Hsub HP.
  assert (Hnd : NoDup (filter (fun x => Is_true (P x)) SUSPICIOUS_API_SUBSTRINGS))
    by (apply NoDup_filter, needles_nodup).
  rewrite <- (size_list_to_set (C:=gset string) _ Hnd). apply subseteq_size.
  intros x Hx. rewrite elem_of_list_to_set, list_elem_of_filter. split.
  - apply Is_true_true. now apply HP.
  - apply (elem_of_list_to_set (C:=gset string)). now apply Hsub.
Qed.

(** The counts of the summary are the lengths of the lists. *)
Lemma summary_counts parse_apk decode_ignore (fs : gmap string (list ascii)) apk_path r :
  dynamic_features parse_apk decode_ignore fs apk_path = Logs r ->
  n_network_calls (behavior_summary r) = length (network_calls r)
  /\ n_system_indicators (behavior_summary r) = length (system_calls r)
  /\ length (system_calls r) <= 5.
Proof.
  unfold dynamic_features.
  destruct (AnalyzeAPK parse_apk fs apk_path) as [[[a d] dx]|e]; [|discriminate].
  pose proof (classified_hits_splits dx) as (Hu & Hnet & Hsys).
  pose proof (matched_hits_needles dx) as Hsub. rewrite <- Hu in Hsub.
  destruct (classified_hits dx) as [net sys]. cbn [fst snd] in *.
  intros [= <-]. cbn.
  split; [now rewrite length_sorted|].
  split.
  { destruct (decide (sys = ∅)) as [->|Hne].
    - rewrite decide_True by apply size_empty. now rewrite length_sorted.
    - rewrite decide_False; [now rewrite length_sorted|].
      intros Hz. apply size_empty_inv in Hz. apply leibniz_equiv in Hz. contradiction. }
  destruct (decide _); rewrite length_sorted.
  - etransitivity; [apply (size_filter_needles is_network)|vm_compute; lia].
    + intros x Hx. apply Hsub. now apply elem_of_union_l.
    + exact Hnet.
  - etransitivity; [apply (size_filter_needles (fun x => negb (is_network x)))|vm_compute; lia].
    + intros x Hx. apply Hsub. now apply elem_of_union_r.
    + intros x Hx. now rewrite (Hsys x Hx).
Qed.

(** X7: in the record [dynamic_features] returns, the three counts of
    [behavior_summary] are the lengths of [network_calls], [system_calls]
    and [native_libs]; [network_calls], [network_ips] and [system_calls] are
    ascending and without repetition; and [system_calls] never has more
    than five entries. *)
Theorem X7_dynamic_record_consistent parse_apk decode_ignore
    (fs : gmap string (list ascii)) apk_path r :
  dynamic_features parse_apk decode_ignore fs apk_path = Logs r ->
  apk r = apk_path
  /\ status r = "heuristic-dynamic-extraction-complete"
  /\ n_network_calls (behavior_summary r) = length (network_calls r)
  /\ n_system_indicators (behavior_summary r) = length (system_calls r)
  /\ n_native_libs (behavior_summary r) = length (native_libs r)
  /\ StronglySorted str_le (network_calls r) /\ NoDup (network_calls r)
  /\ StronglySorted str_le (network_ips r) /\ NoDup (network_ips r)
  /\ StronglySorted str_le (system_calls r) /\ NoDup (system_calls r)
  /\ length (system_calls r) <= 5.
Proof.
  unfold dynamic_features.
  destruct (AnalyzeAPK parse_apk fs apk_path) as [[[a d] dx]|e]; [|discriminate].
  pose proof (classified_hits_splits dx) as (Hu & Hnet & Hsys).
  pose proof (matched_hits_needles dx) as Hsub. rewrite <- Hu in Hsub.
  destruct (classified_hits dx) as [net sys]. cbn [fst snd] in *.
  intros [= <-]. cbn.
  split; [reflexivity|]. split; [reflexivity|].
  split; [now rewrite length_sorted|].
  split.
  { destruct (decide (sys = ∅)) as [->|Hne].
    - rewrite decide_True by apply size_empty. now rewrite length_sorted.
    - rewrite decide_False; [now rewrite length_sorted|].
      intros Hz. apply size_empty_inv in Hz. apply leibniz_equiv in Hz. contradiction. }
  split; [reflexivity|].
  split; [apply sorted_ascending|]. split; [apply sorted_nodup|].
  split; [apply sorted_ascending|]. split; [apply sorted_nodup|].
  split; [destruct (decide _); apply sorted_ascending|].
  split; [destruct (decide _); apply sorted_nodup|].
  destruct (decide _); rewrite length_sorted.
  - etransitivity; [apply (size_filter_needles is_network)|vm_compute; lia].
    + intros x Hx. apply Hsub. now apply elem_of_union_l.
    + exact Hnet.
  - etransitivity; [apply (size_filter_needles (fun x => negb (is_network x)))|vm_compute; lia].
    + intros x Hx. apply Hsub. now apply elem_of_union_r.
    + intros x Hx. now rewrite (Hsys x Hx).
Qed.

Lemma X7_dynamic_record_consistent_witness :
  exists r,
    dynamic_features (parse_as only_url_calls) decode_ascii sample_fs "/data/app.apk" = Logs r
    /\ n_system_indicators (behavior_summary r) = length (system_calls r).
Proof.
  eexists. split; [reflexivity|].
  apply (X7_dynamic_record_consistent (parse_as only_url_calls) decode_ascii sample_fs
           "/data/app.apk" _ eq_refl).
Defined.



End RecordFacts.

(** ** The recommended action *)

Module ActionFacts.
Import Analyzer MlModel Main Spec Samples StringFacts SetFacts Verdicts.
Import AnalyzerFacts EndpointFacts HitFacts AnswerFacts.

Lemma ascii_lower_idem (c : ascii) : ascii_lower (ascii_lower c) = ascii_lower c.
Proof. destruct c as [[] [] [] [] [] [] [] []]; reflexivity. Qed.

Lemma lower_idem (s : string) : lower (lower s) = lower s.
Proof. induction s as [|c s IH]; cbn [lower]; [reflexivity|]. now rewrite ascii_lower_idem, IH. Qed.

Lemma in_verdicts (v : string) :
  v ∈ VERDICTS
  <-> v = "benign" \/ v = "adware" \/ v = "spyware" \/ v = "trojan" \/ v = "ransomware".
Proof. unfold VERDICTS. rewrite !elem_of_cons, elem_of_nil. tauto. Qed.

Ltac by_verdict v :=
  destruct (String.eqb_spec v "benign") as [?|?];
  [|destruct (String.eqb_spec v "adware") as [?|?];
    [|destruct (String.eqb_spec v "spyware") as [?|?];
      [|destruct (String.eqb_spec v "trojan") as [?|?];
        [|destruct (String.eqb_spec v "ransomware") as [?|?]]]]].

Lemma determine_action_unknown (v : string) (r : float) :
  determine_action v r = UNKNOWN <-> lower v ∉ VERDICTS.
Proof.
  rewrite in_verdicts. unfold determine_action, UNKNOWN. cbv zeta.
  by_verdict (lower v); (split; [try discriminate|]); tauto.
Qed.

Lemma determine_action_inj (v w : string) (r r' : float) :
  lower v ∈ VERDICTS -> determine_action v r = determine_action w r' -> lower v = lower w.
Proof.
  rewrite in_verdicts. unfold determine_action. cbv zeta.
  by_verdict (lower v); by_verdict (lower w); try congruence; try discriminate; try tauto.
Qed.

Lemma verdict_of_in (r : float) : verdict_of r ∈ VERDICTS.
Proof.
  rewrite in_verdicts. unfold verdict_of.
  repeat match goal with |- context [flt ?x ?t] => destruct (flt x t) end; tauto.
Qed.

Lemma bucket_in (n : nat) : (bucket n).2 ∈ VERDICTS.
Proof.
  rewrite in_verdicts. unfold bucket.
  repeat match goal with |- context [(n <=? ?k)%nat] => destruct (n <=? k)%nat end;
    cbn [snd]; tauto.
Qed.

Lemma verdicts_lower (v : string) : v ∈ VERDICTS -> lower v = v.
Proof. rewrite in_verdicts. intros [->|[->|[->|[->| ->]]]]; reflexivity. Qed.

Lemma action_of_verdict (v : string) (r : float) :
  v ∈ VERDICTS ->
  determine_action v r <> UNKNOWN
  /\ (determine_action v r = "Safe to use" <-> v = "benign").
Proof.
  intros Hv. split.
  - rewrite determine_action_unknown, (verdicts_lower v Hv). tauto.
  - apply in_verdicts in Hv as [->|[->|[->|[->| ->]]]]; split; (reflexivity || discriminate).
Qed.

(** X9: [determine_action] looks at the verdict only, whatever the case of
    its letters: the five verdicts get five different actions and any other
    text gets the action Unknown. Every 200 answer of the three endpoints,
    and every result of [hybrid_features], carries one of the five verdicts
    with its action: never Unknown, and Safe to use exactly for benign. *)
Theorem X9_action_follows_verdict parse_apk decode_ignore MODEL
    (fs : gmap string (list ascii)) tmp filename content :
  (forall v w r r', lower v = lower w -> determine_action v r = determine_action w r')
  /\ (forall v r, determine_action v r = UNKNOWN <-> lower v ∉ VERDICTS)
  /\ (forall v w r r', lower v ∈ VERDICTS ->
        determine_action v r = determine_action w r' -> lower v = lower w)
  /\ (forall rep, analyze_static parse_apk fs tmp filename content = OK rep ->
        verdict rep ∈ VERDICTS
        /\ recommended_action rep = determine_action (verdict rep) (risk_score rep)
        /\ recommended_action rep <> UNKNOWN
        /\ (recommended_action rep = "Safe to use" <-> verdict rep = "benign"))
  /\ (forall rep, analyze_dynamic parse_apk decode_ignore fs tmp filename content = OK rep ->
        verdict rep ∈ VERDICTS
        /\ recommended_action rep = determine_action (verdict rep) (risk_score rep)
        /\ recommended_action rep <> UNKNOWN
        /\ (recommended_action rep = "Safe to use" <-> verdict rep = "benign"))
  /\ (forall rep, analyze_hybrid parse_apk decode_ignore MODEL fs tmp filename content = OK rep ->
        verdict rep ∈ VERDICTS
        /\ recommended_action rep = determine_action (verdict rep) (risk_score rep)
        /\ recommended_action rep <> UNKNOWN
        /\ (recommended_action rep = "Safe to use" <-> verdict rep = "benign"))
  /\ (forall apk_path r, hybrid_features parse_apk decode_ignore fs apk_path = Ret r ->
        Analyzer.verdict r ∈ VERDICTS
        /\ Analyzer.recommended_action r
           = determine_action (Analyzer.verdict r) (Analyzer.risk_score r)
        /\ Analyzer.recommended_action r <> UNKNOWN
        /\ (Analyzer.recommended_action r = "Safe to use" <-> Analyzer.verdict r = "benign")).
Proof.
  split; [intros v w r r' H; unfold determine_action; now rewrite H|].
  split; [apply determine_action_unknown|].
  split; [apply determine_action_inj|].
  split; [|split; [|split]].
  - intros rep H. unfold analyze_static, upload_check in H.
    destruct (negb _); [discriminate|]. destruct content; [discriminate|].
    destruct (extract_static_features _ _ _ _); [|discriminate].
    injection H as <-. cbn [verdict recommended_action risk_score].
    split; [apply verdict_of_in|]. split; [reflexivity|].
    apply action_of_verdict, verdict_of_in.
  - intros rep H. unfold analyze_dynamic, upload_check in H.
    destruct (negb _); [discriminate|]. destruct content; [discriminate|].
    injection H as <-. cbn [verdict recommended_action risk_score].
    split; [apply verdict_of_in|]. split; [reflexivity|].
    apply action_of_verdict, verdict_of_in.
  - intros rep H. unfold analyze_hybrid, upload_check in H.
    destruct (negb _); [discriminate|]. destruct content; [discriminate|].
    destruct (extract_static_features _ _ _ _); [|discriminate].
    destruct (match MODEL with Some _ => _ | None => _ end); [|discriminate].
    injection H as <-. cbn [verdict recommended_action risk_score].
    split; [apply verdict_of_in|]. split; [reflexivity|].
    apply action_of_verdict, verdict_of_in.
  - intros apk_path r H. unfold hybrid_features in H.
    destruct (static_features parse_apk fs apk_path) as [st|e]; [|discriminate].
    cbn [bind] in H.
    pose proof (bucket_in (suspicious_count_of st
                             (dynamic_features parse_apk decode_ignore fs apk_path))) as Hb.
    destruct (bucket _) as [risk v]. injection H as <-.
    cbn [Analyzer.verdict Analyzer.recommended_action Analyzer.risk_score snd] in *.
    split; [exact Hb|]. split; [reflexivity|]. now apply action_of_verdict.
Qed.

End ActionFacts.

(** ** Where the byte scans match *)

Module PlaceFacts.
Import Re Analyzer Spec Samples MoreSamples StringFacts AnalyzerFacts ScanFacts Place OrderFacts.

Lemma last_or_nil (prev : option ascii) : last_or prev [] = prev.
Proof. reflexivity. Qed.

Lemma last_or_cons (prev : option ascii) (c : ascii) (w : list ascii) :
  last_or prev (c :: w) = last_or (Some c) w.
Proof.
  revert prev c. induction w as [|d w IH]; intros prev c; [reflexivity|].
  rewrite (IH (Some c) d), <- (IH prev d). unfold last_or. now rewrite last_cons_cons.
Qed.

Lemma last_or_app (prev : option ascii) (w1 w2 : list ascii) :
  last_or prev (w1 ++ w2) = last_or (last_or prev w1) w2.
Proof.
  revert prev. induction w1 as [|c w1 IH]; intros prev; [reflexivity|].
  cbn [app]. now rewrite !last_or_cons, IH.
Qed.

Lemma plus_loop_place (p : ascii -> bool) (s : list ascii) :
  forall prev k x,
    plus_loop p prev s k = Some x ->
    exists w s', s = (w ++ s')%list /\ Forall (fun c => p c = true) w
                 /\ k (last_or (Some prev) w) s' = Some x.
Proof.
  induction s as [|c s IH]; intros prev k x H; cbn [plus_loop] in H.
  - exists [], []. repeat split; [constructor|exact H].
  - destruct (p c) eqn:Ec.
    + destruct (plus_loop p c s k) as [y|] eqn:E.
      * injection H as <-. destruct (IH _ _ _ E) as (w & s' & -> & Hw & Hk).
        exists (c :: w), s'. rewrite last_or_cons. repeat split; [now constructor|exact Hk].
      * exists [], (c :: s). repeat split; [constructor|exact H].
    + exists [], (c :: s). repeat split; [constructor|exact H].
Qed.

(** The matcher hands over to the continuation after a text of the pattern
    in its place, with the last byte of the text as the byte before. *)
Lemma run_place (r : regex) :
  forall prev s k x,
    run r prev s k = Some x ->
    exists w s', s = (w ++ s')%list /\ lang_at r prev w s'
                 /\ k (last_or prev w) s' = Some x.
Proof.
  induction r as [|p|r1 IH1 r2 IH2|r1 IH1 r2 IH2|r1 IH1|p|];
    intros prev s k x H; cbn [run] in H; cbn [lang_at].
  - exists [], s. repeat split. exact H.
  - destruct s as [|c s]; [discriminate|]. destruct (p c) eqn:Ec; [|discriminate].
    exists [c], s. repeat split; [now exists c|exact H].
  - destruct (IH1 _ _ _ _ H) as (w1 & s1 & -> & Hw1 & H1).
    destruct (IH2 _ _ _ _ H1) as (w2 & s2 & -> & Hw2 & H2).
    exists (w1 ++ w2)%list, s2. rewrite <- app_assoc, last_or_app.
    repeat split; [|exact H2]. now exists w1, w2.
  - destruct (run r1 prev s k) as [y|] eqn:E.
    + injection H as <-. destruct (IH1 _ _ _ _ E) as (w & s' & -> & Hw & Hk).
      exists w, s'. repeat split; [now left|exact Hk].
    + destruct (IH2 _ _ _ _ H) as (w & s' & -> & Hw & Hk).
      exists w, s'. repeat split; [now right|exact Hk].
  - destruct (run r1 prev s k) as [y|] eqn:E.
    + injection H as <-. destruct (IH1 _ _ _ _ E) as (w & s' & -> & Hw & Hk).
      exists w, s'. repeat split; [now right|exact Hk].
    + exists [], s. repeat split; [now left|exact H].
  - destruct s as [|c s]; [discriminate|]. destruct (p c) eqn:Ec; [|discriminate].
    destruct (plus_loop_place _ _ _ _ _ H) as (w & s' & -> & Hw & Hk).
    exists (c :: w), s'. rewrite last_or_cons.
    repeat split; [discriminate|now constructor|exact Hk].
  - destruct (xorb _ _) eqn:E; [|discriminate].
    exists [], s. repeat split; [exact E|exact H].
Qed.

Lemma match_here_place (r : regex) prev s rest :
  match_here r prev s = Some rest ->
  exists w, s = (w ++ rest)%list /\ lang_at r prev w rest.
Proof.
  intros H. destruct (run_place r _ _ _ _ H) as (w & s' & -> & Hw & Hk).
  injection Hk as ->. now exists w.
Qed.

(** Every match of [finditer] is a run of the input, a text of the pattern
    in its place there. *)
Lemma scan_place (r : regex) (s : list ascii) :
  forall skip prev h,
    h ∈ scan r skip prev s ->
    exists pre suf, s = (pre ++ h ++ suf)%list /\ skip <= length pre
                    /\ lang_at r (last_or prev pre) h suf.
Proof.
  induction s as [|c s IH]; intros skip prev h Hh; cbn [scan] in Hh.
  - destruct skip; [|now apply elem_of_nil in Hh].
    destruct (match_here r prev []) as [rest|] eqn:E; [|now apply elem_of_nil in Hh].
    apply list_elem_of_singleton in Hh as ->.
    destruct (match_here_place _ _ _ _ E) as (w & Hw & Hl).
    symmetry in Hw. apply app_eq_nil in Hw as [-> ->].
    exists [], []. repeat split; [cbn; lia|exact Hl].
  - assert (Hrec : forall n, h ∈ scan r n (Some c) s ->
               exists pre suf, c :: s = (pre ++ h ++ suf)%list /\ S n <= length pre
                               /\ lang_at r (last_or prev pre) h suf).
    { intros n Hn. destruct (IH _ _ _ Hn) as (pre & suf & -> & Hlen & Hl).
      exists (c :: pre), suf. rewrite last_or_cons. repeat split; [cbn; lia|exact Hl]. }
    destruct skip as [|n].
    + destruct (match_here r prev (c :: s)) as [rest|] eqn:E.
      * apply elem_of_cons in Hh as [->|Hh].
        -- destruct (match_here_place _ _ _ _ E) as (w & Hw & Hl).
           exists [], rest. rewrite Hw, length_app, Nat.add_sub, take_app_length.
           repeat split; [cbn; lia|exact Hl].
        -- destruct (Hrec _ Hh) as (pre & suf & Hs & _ & Hl).
           exists pre, suf. repeat split; [exact Hs|lia|exact Hl].
      * destruct (Hrec _ Hh) as (pre & suf & Hs & _ & Hl).
        exists pre, suf. repeat split; [exact Hs|lia|exact Hl].
    + destruct (Hrec _ Hh) as (pre & suf & Hs & Hlen & Hl).
      exists pre, suf. repeat split; [exact Hs|exact Hlen|exact Hl].
Qed.

Lemma lang_at_lang (r : regex) : forall prev w suf, lang_at r prev w suf -> lang r w.
Proof.
  induction r as [|p|r1 IH1 r2 IH2|r1 IH1 r2 IH2|r1 IH1|p|];
    intros prev w suf; cbn [lang_at lang]; try tauto.
  - intros (w1 & w2 & -> & H1 & H2). exists w1, w2. eauto.
  - intros [H|H]; eauto.
  - intros [H|H]; eauto.
Qed.

Lemma digit_word (c : ascii) : digit c = true -> word c = true.
Proof. unfold word. intros ->. now rewrite !orb_true_r. Qed.

Lemma octet_text_head (o : list ascii) :
  octet_text o -> exists c t, o = c :: t /\ word c = true.
Proof.
  intros (Hlen & Hdig & _). destruct o as [|c t]; [cbn in Hlen; lia|].
  exists c, t. split; [reflexivity|]. apply digit_word. now inversion Hdig.
Qed.

Lemma last_or_forall (P : ascii -> Prop) (prev : option ascii) (o : list ascii) :
  o <> [] -> Forall P o -> exists c, last_or prev o = Some c /\ P c.
Proof.
  revert prev. induction o as [|c o IH]; intros prev Hne Hall; [congruence|].
  rewrite last_or_cons. inversion Hall as [|? ? Hc Ho]; subst.
  destruct o as [|d o]; [exists c; now split|]. apply IH; [discriminate|exact Ho].
Qed.

Lemma octet_text_last (prev : option ascii) (o : list ascii) :
  octet_text o -> is_word (last_or prev o) = true.
Proof.
  intros (Hlen & Hdig & _).
  destruct (last_or_forall (fun c => digit c = true) prev o) as (c & -> & Hc).
  - intros ->. cbn in Hlen. lia.
  - exact Hdig.
  - cbn. now apply digit_word.
Qed.

(** A match of [IP_RE] in its place has no word byte before or after it. *)
Lemma lang_at_IP_RE (prev : option ascii) (h suf : list ascii) :
  lang_at IP_RE prev h suf ->
  dotted_quad h /\ is_word prev = false /\ is_word (head suf) = false.
Proof.
  intros H. pose proof (lang_IP_RE _ (lang_at_lang _ _ _ _ H)) as Hq.
  split; [exact Hq|]. revert H. unfold IP_RE. cbn [lang_at].
  intros (w0 & w1 & -> & [-> Hb] & wa & wb & -> & Ha & o & w2 & -> & Ho & -> & He).
  cbn [app] in *. rewrite last_or_nil in *. rewrite app_nil_r in *.
  apply lang_at_lang, lang_octet in Ho.
  split.
  - destruct Hq as (a & b & c & d & Hh & Hoa & _).
    destruct (octet_text_head a Hoa) as (x & t & -> & Hx).
    rewrite Hh in Hb. cbn [app head is_word] in Hb. rewrite Hx in Hb.
    now destruct (is_word prev).
  - rewrite (octet_text_last _ o Ho) in He. now destruct (is_word (head suf)).
Qed.

(** X10: every entry of [network_ips] is the decoding of a run of bytes of
    the file that is four dot-separated octets, each of one to three digits
    writing a number up to 255, with no letter, digit or underscore right
    before or right after the run. *)
Theorem X10_ip_hits_delimited parse_apk decode_ignore
    (fs : gmap string (list ascii)) apk_path r :
  dynamic_features parse_apk decode_ignore fs apk_path = Logs r ->
  exists content,
    fs !! apk_path = Some content
    /\ forall x, x ∈ network_ips r ->
         exists pre h suf,
           content = (pre ++ h ++ suf)%list /\ x = decode_ignore h
           /\ dotted_quad h
           /\ is_word (last pre) = false /\ is_word (head suf) = false.
Proof.
  unfold dynamic_features.
  destruct (AnalyzeAPK parse_apk fs apk_path) as [[[a d] dx]|e] eqn:H; [|discriminate].
  destruct (AnalyzeAPK_file _ _ _ _ H) as (content & Hfile & _).
  destruct (classified_hits dx) as [net sys]. intros [= <-]. cbn [network_ips].
  exists content. split; [exact Hfile|]. intros x.
  rewrite elem_of_sorted. unfold find_decoded, _extract_strings_from_apk. rewrite Hfile.
  rewrite elem_of_list_to_set, list_elem_of_fmap. intros (h & -> & Hh).
  destruct (scan_place _ _ _ _ _ Hh) as (pre & suf & Hs & _ & Hl).
  apply lang_at_IP_RE in Hl as (Hq & Hp & Hn).
  exists pre, h, suf. repeat split; try assumption.
  unfold last_or in Hp. now destruct (last pre).
Qed.

Lemma X10_ip_hits_delimited_witness :
  exists r,
    dynamic_features (parse_as only_url_calls) decode_ascii net_fs "/data/app.apk" = Logs r
    /\ network_ips r = ["8.8.8.8"]
    /\ exists content,
         net_fs !! "/data/app.apk" = Some content
         /\ forall x, x ∈ network_ips r ->
              exists pre h suf,
                content = (pre ++ h ++ suf)%list /\ x = decode_ascii h
                /\ dotted_quad h
                /\ is_word (last pre) = false /\ is_word (head suf) = false.
Proof.
  eexists. split; [reflexivity|]. split; [vm_compute; reflexivity|].
  apply (X10_ip_hits_delimited (parse_as only_url_calls) decode_ascii net_fs
           "/data/app.apk" _ eq_refl).
Defined.

End PlaceFacts.

(** ** The URL scan *)

Module UrlFacts.
Import Re Analyzer Spec Samples MoreSamples StringFacts AnalyzerFacts ScanFacts Place.
Import OrderFacts PlaceFacts.

(** With a continuation that accepts whatever is left, the greedy loop
    stops only at the end of the input or at a byte outside the class. *)
Lemma plus_loop_greedy (p : ascii -> bool) (s : list ascii) :
  forall prev, exists w rest,
    plus_loop p prev s (fun _ rest => Some rest) = Some rest
    /\ s = (w ++ rest)%list /\ Forall (fun c => p c = true) w
    /\ (forall c, head rest = Some c -> p c = false).
Proof.
  induction s as [|c s IH]; intros prev; cbn [plus_loop].
  - exists [], []. repeat split; [constructor|discriminate].
  - destruct (p c) eqn:Ec.
    + destruct (IH c) as (w & rest & -> & Hs & Hw & Hr).
      exists (c :: w), rest. rewrite Hs. repeat split; [now constructor|exact Hr].
    + exists [], (c :: s). repeat split; [constructor|]. intros c' [= <-]. exact Ec.
Qed.

Lemma run_lit (w : string) :
  forall prev s k,
    run (lit w) prev (text w ++ s) k = k (last_or prev (text w)) s.
Proof.
  induction w as [|c w IH]; intros prev s k; cbn [lit run text list_ascii_of_string app].
  - reflexivity.
  - unfold is_char at 1. rewrite Ascii.eqb_refl.
    change (list_ascii_of_string w) with (text w). rewrite IH, last_or_cons. reflexivity.
Qed.

Lemma lang_lit (w : string) (x : list ascii) : lang (lit w) x -> x = text w.
Proof.
  revert x. induction w as [|c w IH]; intros x; cbn [lit lang].
  - now intros ->.
  - intros (w1 & w2 & -> & (c' & -> & Hc) & H2). apply is_char_spec in Hc as ->.
    cbn [app text list_ascii_of_string]. f_equal. now apply IH.
Qed.

Lemma lang_URL_RE (h : list ascii) : lang URL_RE h -> url_text h.
Proof.
  unfold URL_RE. cbn [lang].
  intros (w1 & x1 & -> & H1 & w2 & x2 & -> & H2 & w3 & body & -> & H3 & Hne & Hall).
  apply lang_lit in H1 as ->. apply lang_lit in H3 as ->.
  exists body. split; [exact Hne|]. split; [exact Hall|].
  destruct H2 as [->|H2]; [left; reflexivity|].
  apply lang_lit in H2 as ->. right. reflexivity.
Qed.

(** A match of [URL_RE] is a URL text, and runs on to the end of the input
    or to the first byte that is not a URL byte. *)
Lemma match_here_URL_RE (prev : option ascii) (s rest : list ascii) :
  match_here URL_RE prev s = Some rest ->
  exists h, s = (h ++ rest)%list /\ url_text h
            /\ (forall c, head rest = Some c -> url_char c = false).
Proof.
  intros H. destruct (match_here_sound _ _ _ _ H) as (h & Hs & Hl).
  exists h. split; [exact Hs|]. split; [now apply lang_URL_RE|].
  assert (Hplus : forall p3 s3,
             run (Plus url_char) p3 s3 (fun _ rest => Some rest) = Some rest ->
             forall c, head rest = Some c -> url_char c = false).
  { intros p3 s3 H3. cbn [run] in H3.
    destruct s3 as [|c s3]; [discriminate|]. destruct (url_char c); [|discriminate].
    destruct (plus_loop_greedy url_char s3 c) as (w & rest' & Hp & _ & _ & Hr).
    rewrite Hp in H3. injection H3 as <-. exact Hr. }
  revert H. unfold match_here, URL_RE.
  change (run (Cat (lit "http") (Cat (Opt (lit "s")) (Cat (lit "://") (Plus url_char))))
            prev s (fun _ rest => Some rest))
    with (run (lit "http") prev s
            (fun p1 s1 => run (Opt (lit "s")) p1 s1
               (fun p2 s2 => run (lit "://") p2 s2
                  (fun p3 s3 => run (Plus url_char) p3 s3 (fun _ rest => Some rest))))).
  intros H. apply run_sound in H as (w1 & s1 & p1 & _ & _ & H).
  apply run_sound in H as (w2 & s2 & p2 & _ & _ & H).
  apply run_sound in H as (w3 & s3 & p3 & _ & _ & H).
  exact (Hplus _ _ H).
Qed.



(** Every match of [finditer] is a run of the input at which the pattern
    matched, leaving what follows the run. *)
Lemma scan_match (r : regex) (s : list ascii) :
  forall skip prev h,
    h ∈ scan r skip prev s ->
    exists pre suf, s = (pre ++ h ++ suf)%list
                    /\ match_here r (last_or prev pre) (h ++ suf) = Some suf.
Proof.
  induction s as [|c s IH]; intros skip prev h Hh; cbn [scan] in Hh.
  - destruct skip; [|now apply elem_of_nil in Hh].
    destruct (match_here r prev []) as [rest|] eqn:E; [|now apply elem_of_nil in Hh].
    apply list_elem_of_singleton in Hh as ->.
    destruct (match_here_sound _ _ _ _ E) as (w & Hw & _).
    symmetry in Hw. apply app_eq_nil in Hw as [_ ->].
    exists [], []. split; [reflexivity|exact E].
  - assert (Hrec : forall n, h ∈ scan r n (Some c) s ->
               exists pre suf, c :: s = (pre ++ h ++ suf)%list
                               /\ match_here r (last_or prev pre) (h ++ suf) = Some suf).
    { intros n Hn. destruct (IH _ _ _ Hn) as (pre & suf & -> & Hm).
      exists (c :: pre), suf. rewrite last_or_cons. split; [reflexivity|exact Hm]. }
    destruct skip as [|n]; [|exact (Hrec _ Hh)].
    destruct (match_here r prev (c :: s)) as [rest|] eqn:E; [|exact (Hrec _ Hh)].
    apply elem_of_cons in Hh as [->|Hh]; [|exact (Hrec _ Hh)].
    destruct (match_here_sound _ _ _ _ E) as (w & Hw & _).
    exists [], rest. rewrite Hw, length_app, Nat.add_sub, take_app_length.
    split; [reflexivity|]. rewrite <- Hw. exact E.
Qed.


(** X11: every entry of [network_calls] is the decoding of a run of bytes
    of the file that is [http://] or [https://] followed by one or more
    bytes, none of them white space, a quote or an angle bracket; and the
    run is not cut short: the file ends after it, or goes on with one of
    those delimiters. *)
Theorem X11_url_hits_are_maximal_urls parse_apk decode_ignore
    (fs : gmap string (list ascii)) apk_path r :
  dynamic_features parse_apk decode_ignore fs apk_path = Logs r ->
  exists content,
    fs !! apk_path = Some content
    /\ forall x, x ∈ network_calls r ->
         exists pre h suf,
           content = (pre ++ h ++ suf)%list /\ x = decode_ignore h
           /\ url_text h
           /\ (forall c, head suf = Some c -> url_char c = false).
Proof.
  unfold dynamic_features.
  destruct (AnalyzeAPK parse_apk fs apk_path) as [[[a d] dx]|e] eqn:H; [|discriminate].
  destruct (AnalyzeAPK_file _ _ _ _ H) as (content & Hfile & _).
  destruct (classified_hits dx) as [net sys]. intros [= <-]. cbn [network_calls].
  exists content. split; [exact Hfile|]. intros x.
  rewrite elem_of_sorted. unfold find_decoded, _extract_strings_from_apk. rewrite Hfile.
  rewrite elem_of_list_to_set, list_elem_of_fmap. intros (h & -> & Hh).
  destruct (scan_match _ _ _ _ _ Hh) as (pre & suf & Hs & Hm).
  apply match_here_URL_RE in Hm as (h' & Heq & Hu & Hr).
  apply app_inv_tail in Heq as <-.
  exists pre, h, suf. repeat split; assumption.
Qed.

Lemma X11_url_hits_are_maximal_urls_witness :
  exists r,
    dynamic_features (parse_as only_url_calls) decode_ascii net_fs "/data/app.apk" = Logs r
    /\ network_calls r = ["http://example.org/x"]
    /\ exists content,
         net_fs !! "/data/app.apk" = Some content
         /\ forall x, x ∈ network_calls r ->
              exists pre h suf,
                content = (pre ++ h ++ suf)%list /\ x = decode_ascii h
                /\ url_text h
                /\ (forall c, head suf = Some c -> url_char c = false).
Proof.
  eexists. split; [reflexivity|]. split; [vm_compute; reflexivity|].
  apply (X11_url_hits_are_maximal_urls (parse_as only_url_calls) decode_ascii net_fs
           "/data/app.apk" _ eq_refl).
Defined.



End UrlFacts.

(** ** The IPv4 scan reports the delimited dotted quads *)

Module Ipv4Facts.
Import Re Analyzer Spec Samples MoreSamples StringFacts AnalyzerFacts ScanFacts Place.
Import OrderFacts PlaceFacts UrlFacts.




























End Ipv4Facts.

(** ** The combined summary of [hybrid_features] *)

Module SummaryFacts.
Import Analyzer Spec Samples StringFacts SetFacts AnalyzerFacts.
Import OrderFacts HitFacts AnswerFacts RecordFacts.

(** X13: when [hybrid_features] returns, its dynamic part is a record, not
    the error dictionary; the three counts of [summary] are the lengths of
    the static [suspicious_apis] and of the dynamic [network_calls] and
    [system_calls]; and verdict and score are those of the bucket of
    [static_suspicious + dynamic_sys_indicators], a count of at most 14:
    the verdict can be recomputed from the summary. *)
Theorem X13_hybrid_summary_recomputes_verdict parse_apk decode_ignore
    (fs : gmap string (list ascii)) apk_path r :
  hybrid_features parse_apk decode_ignore fs apk_path = Ret r ->
  static_features parse_apk fs apk_path = Ret (static r)
  /\ (exists d, dynamic r = Logs d
        /\ dynamic_features parse_apk decode_ignore fs apk_path = Logs d
        /\ dynamic_network_indicators (summary r) = length (network_calls d)
        /\ dynamic_sys_indicators (summary r) = length (system_calls d))
  /\ static_suspicious (summary r) = length (suspicious_apis (static r))
  /\ (risk_score r, verdict r)
     = bucket (static_suspicious (summary r) + dynamic_sys_indicators (summary r))
  /\ static_suspicious (summary r) + dynamic_sys_indicators (summary r) <= 14.
Proof.
  unfold hybrid_features.
  destruct (static_features parse_apk fs apk_path) as [st|e] eqn:Hst; [|discriminate].
  cbn [bind].
  destruct (static_features_ret _ _ _ _ Hst) as (a & d0 & dx & Hp).
  destruct (static_features_parsed _ _ _ _ _ _ Hp) as (st' & Hst' & _ & _ & Hapis).
  rewrite Hst in Hst'. injection Hst' as <-.
  destruct (dynamic_features_parsed _ decode_ignore _ _ _ _ _ Hp) as (d & Hd & _).
  pose proof (summary_counts parse_apk decode_ignore fs apk_path d Hd) as (Hn & Hs & Hle).
  rewrite Hd. unfold suspicious_count_of. cbn [get_n_system_indicators].
  destruct (bucket _) as [risk v] eqn:Hb. intros [= <-].
  cbn [static dynamic summary static_suspicious dynamic_network_indicators
       dynamic_sys_indicators risk_score verdict get_network_calls get_system_calls].
  split; [reflexivity|]. split; [now exists d|]. split; [reflexivity|].
  rewrite <- Hs, Hb. split; [reflexivity|].
  rewrite Hs, Hapis. unfold _match_suspicious_apis. rewrite length_sorted.
  pose proof (matched_hits_size dx). lia.
Qed.

Lemma X13_hybrid_summary_recomputes_verdict_witness :
  exists r,
    hybrid_features (parse_as four_network_calls) decode_ascii sample_fs "/data/app.apk" = Ret r
    /\ (risk_score r, verdict r)
       = bucket (static_suspicious (summary r) + dynamic_sys_indicators (summary r)).
Proof.
  eexists. split; [reflexivity|].
  apply (X13_hybrid_summary_recomputes_verdict (parse_as four_network_calls) decode_ascii
           sample_fs "/data/app.apk" _ eq_refl).
Defined.

End SummaryFacts.

(** ** The accounts *)

Module AuthFacts.
Import Main Auth.

(** X14: a sign-up is turned away with 400 exactly when the terms are not
    accepted (checked first) or the address is already registered, and then
    nothing changes; otherwise the record is stored under the address, the
    other records are kept, and [users.json] is rewritten with the whole
    table. *)
Theorem X14_signup_outcomes (user : UserSignup) (st : State) :
  (su_terms_accepted user = false ->
     signup user st = (HTTPException 400 "You must accept terms and conditions", st))
  /\ (su_terms_accepted user = true -> is_Some (users_db st !! su_email user) ->
     signup user st = (HTTPException 400 "User already exists", st))
  /\ (su_terms_accepted user = true -> users_db st !! su_email user = None ->
     exists st',
       signup user st = (OK "Signup successful", st')
       /\ users_db st' !! su_email user
          = Some {| db_name := su_name user; db_phone := su_phone user;
                    db_password := su_password user; db_gender := su_gender user;
                    db_terms_accepted := true |}
       /\ (forall e, e <> su_email user -> users_db st' !! e = users_db st !! e)
       /\ users_file st' = Some (users_db st'))
  /\ (forall resp st', signup user st = (resp, st') ->
        resp = OK "Signup successful" \/ (exists d, resp = HTTPException 400 d) /\ st' = st).
Proof.
  unfold signup. split; [intros ->; reflexivity|].
  split; [intros -> H; cbn [negb]; now rewrite decide_True|].
  split.
  - intros Ht Hn. rewrite Ht. cbn [negb].
    rewrite decide_False by (rewrite Hn; intros [x Hx]; discriminate).
    eexists. split; [reflexivity|]. cbn [users_db users_file].
    split; [apply lookup_insert_eq|]. split; [|reflexivity].
    intros e He. now apply lookup_insert_ne.
  - intros resp st'. destruct (su_terms_accepted user); cbn [negb].
    + destruct (decide _); intros [= <- <-]; [right; split; [now eexists|reflexivity]|now left].
    + intros [= <- <-]. right. split; [now eexists|reflexivity].
Qed.

Lemma login_ok (l : UserLogin) (st : State) :
  login l st = OK "Login successful"
  <-> exists r, users_db st !! lg_email l = Some r /\ db_password r = lg_password l.
Proof.
  unfold login. destruct (users_db st !! lg_email l) as [r|].
  - destruct (String.eqb_spec (db_password r) (lg_password l)) as [E|E]; cbn [negb].
    + split; [intros _; now exists r|reflexivity].
    + split; [discriminate|]. intros (r' & [= <-] & H). contradiction.
  - split; [discriminate|]. intros (r & H & _). discriminate.
Qed.

Lemma login_answers (l : UserLogin) (st : State) :
  login l st = OK "Login successful"
  \/ login l st = HTTPException 401 "Invalid credentials".
Proof.
  unfold login. destruct (users_db st !! lg_email l) as [r|]; [|now right].
  destruct (negb _); [now right|now left].
Qed.

(** X15: after a sign-up that succeeded, logging in with the same address
    and password succeeds, and with any other password is answered 401;
    [list_users] then shows the password as it was typed. A log-in is
    answered 401 exactly when the address is unknown or the password
    differs from the stored one. *)
Theorem X15_signup_then_login (user : UserSignup) (st st' : State) :
  signup user st = (OK "Signup successful", st') ->
  login {| lg_email := su_email user; lg_password := su_password user |} st'
  = OK "Login successful"
  /\ (forall p, p <> su_password user ->
        login {| lg_email := su_email user; lg_password := p |} st'
        = HTTPException 401 "Invalid credentials")
  /\ (exists r, list_users st' !! su_email user = Some r
                /\ db_password r = su_password user)
  /\ (forall l, login l st' = HTTPException 401 "Invalid credentials"
                <-> (users_db st' !! lg_email l = None
                     \/ exists r, users_db st' !! lg_email l = Some r
                                   /\ db_password r <> lg_password l)).
Proof.
  unfold signup. destruct (negb _); [discriminate|]. destruct (decide _); [discriminate|].
  intros [= <-]. unfold login, list_users. cbn [users_db lg_email lg_password].
  rewrite lookup_insert_eq. cbn [db_password]. rewrite String.eqb_refl. cbn [negb].
  split; [reflexivity|]. split.
  - intros p Hp. destruct (String.eqb_spec (su_password user) p); [congruence|reflexivity].
  - split; [eexists; split; reflexivity|].
    intros l. destruct (_ !! lg_email l) as [r|].
    + destruct (String.eqb_spec (db_password r) (lg_password l)) as [E|E]; cbn [negb].
      * split; [discriminate|]. intros [H|(r' & [= <-] & H)]; [discriminate|contradiction].
      * split; [intros _; right; now exists r|reflexivity].
    + split; [intros _; now left|reflexivity].
Qed.

Lemma X15_signup_then_login_witness :
  login {| lg_email := "a@example.org"; lg_password := "s3cret" |}
    (signup {| su_name := "A"; su_phone := "1"; su_email := "a@example.org";
               su_password := "s3cret"; su_gender := "x"; su_terms_accepted := true |}
       (startup None)).2
  = OK "Login successful".
Proof.
  apply (X15_signup_then_login
           {| su_name := "A"; su_phone := "1"; su_email := "a@example.org";
              su_password := "s3cret"; su_gender := "x"; su_terms_accepted := true |}
           (startup None)).
  reflexivity.
Defined.

Lemma step_keeps (st : State) (req : Request) (e : string) (r : UserRecord) :
  users_db st !! e = Some r -> users_db (step st req) !! e = Some r.
Proof.
  intros H. destruct req as [user| |]; cbn [step]; try exact H.
  unfold signup. destruct (negb _); [exact H|].
  destruct (decide _) as [Hin|Hnot]; [exact H|]. cbn [snd users_db].
  rewrite lookup_insert_ne; [exact H|]. intros <-. apply Hnot. exists r. exact H.
Qed.

Lemma step_synced (st : State) (req : Request) :
  users_db st = default ∅ (users_file st) ->
  users_db (step st req) = default ∅ (users_file (step st req)).
Proof.
  intros H. destruct req as [user| |]; cbn [step]; try exact H.
  unfold signup. destruct (negb _); [exact H|]. destruct (decide _); [exact H|reflexivity].
Qed.

(** X16: whatever requests are served, a record once in [users_db] stays
    there unchanged (the first sign-up for an address wins, and a log-in
    that succeeds keeps succeeding); and, started from [users.json], the
    table in memory is always the one in the file, so a restart finds the
    same accounts. *)
Theorem X16_accounts_are_kept (reqs : list Request) :
  (forall st e r, users_db st !! e = Some r -> users_db (serve reqs st) !! e = Some r)
  /\ (forall st l, login l st = OK "Login successful" ->
                   login l (serve reqs st) = OK "Login successful")
  /\ (forall file,
        users_db (serve reqs (startup file))
        = default ∅ (users_file (serve reqs (startup file)))
        /\ startup (users_file (serve reqs (startup file))) = serve reqs (startup file)).
Proof.
  assert (Hkeep : forall st e r,
             users_db st !! e = Some r -> users_db (serve reqs st) !! e = Some r).
  { unfold serve. induction reqs as [|req reqs IH]; intros st e r H; [exact H|].
    cbn [foldl]. apply IH. now apply step_keeps. }
  split; [exact Hkeep|]. split.
  - intros st l. rewrite !login_ok. intros (r & Hr & Hp). exists r. split; [|exact Hp].
    now apply Hkeep.
  - intros file.
    assert (Hsync : forall st, users_db st = default ∅ (users_file st) ->
                               users_db (serve reqs st)
                               = default ∅ (users_file (serve reqs st))).
    { clear Hkeep. unfold serve. induction reqs as [|req reqs IH]; intros st H; [exact H|].
      cbn [foldl]. apply IH. now apply step_synced. }
    pose proof (Hsync (startup file) eq_refl) as H. split; [exact H|].
    destruct (serve reqs (startup file)) as [db f]. cbn [users_db users_file] in H.
    unfold startup. cbn [users_file]. now rewrite <- H.
Qed.

End AuthFacts.

(** ** [analyze] of [risk_model.py] *)

Module RiskAnalyzeFacts.
Import Analyzer RiskModel RiskAnalyze Spec Samples.
Import StringFacts SetFacts Binary64 Binary64Facts AnalyzerFacts RiskFacts.

Lemma extract_raises parse_apk (fs : gmap string (list ascii)) apk_path e :
  RiskAnalyze.extract_static_features parse_apk fs apk_path = Raise e
  <-> AnalyzeAPK parse_apk fs apk_path = Raise e.
Proof.
  unfold RiskAnalyze.extract_static_features.
  destruct (AnalyzeAPK parse_apk fs apk_path) as [[[a d] dx]|e']; cbn [bind].
  - split; discriminate.
  - split; intros [= ->]; reflexivity.
Qed.

(** X17: [analyze] first extracts the features, so a package that
    [AnalyzeAPK] rejects makes it raise that error in every mode, the
    invalid ones and the dynamic one included; for a package that parses,
    a mode other than static, dynamic, hybrid raises the ValueError. In
    dynamic mode without logs ([None] or an empty dictionary) the
    placeholder logs are scored: 0.0 and benign, whatever the package. In
    hybrid mode without logs the score and verdict are those of static
    mode. Every score returned is between 0 and 1. *)
Theorem X17_analyze_modes parse_apk (fs : gmap string (list ascii)) apk_path :
  (forall e mode logs,
      AnalyzeAPK parse_apk fs apk_path = Raise e ->
      analyze parse_apk fs apk_path mode logs = Raise e)
  /\ (forall x, RiskAnalyze.extract_static_features parse_apk fs apk_path = Ret x ->
      (forall mode logs,
          mode <> "static" -> mode <> "dynamic" -> mode <> "hybrid" ->
          analyze parse_apk fs apk_path mode logs
          = Raise "Invalid mode. Choose from: 'static', 'dynamic', or 'hybrid'.")
      /\ (forall logs, truthy logs = false ->
            analyze parse_apk fs apk_path "dynamic" logs
            = Ret {| r_analysis_type := "dynamic"; r_verdict := "benign";
                     r_risk_score := 0; r_features := None;
                     r_logs := Some (Some placeholder_logs) |})
      /\ (forall logs, truthy logs = false ->
            exists rs rh,
              analyze parse_apk fs apk_path "static" None = Ret rs
              /\ analyze parse_apk fs apk_path "hybrid" logs = Ret rh
              /\ r_risk_score rh = r_risk_score rs /\ r_verdict rh = r_verdict rs
              /\ r_features rh = Some x /\ r_logs rh = Some logs)
      /\ (forall mode logs r,
            analyze parse_apk fs apk_path mode logs = Ret r ->
            in_unit (r_risk_score r)
            /\ (r_analysis_type r = mode)
            /\ (mode = "static" \/ mode = "dynamic" \/ mode = "hybrid"))).
Proof.
  split.
  { intros e mode logs H. unfold analyze.
    now rewrite (proj2 (extract_raises parse_apk fs apk_path e) H). }
  intros x Hx. unfold analyze. rewrite Hx. cbn [bind].
  split; [|split; [|split]].
  - intros mode logs H1 H2 H3.
    destruct (String.eqb_spec mode "static"); [contradiction|].
    destruct (String.eqb_spec mode "dynamic"); [contradiction|].
    destruct (String.eqb_spec mode "hybrid"); [contradiction|]. reflexivity.
  - intros logs Hl. cbn [String.eqb Ascii.eqb Bool.eqb].
    destruct logs as [d|]; [rewrite Hl|]; reflexivity.
  - intros logs Hl. cbn [String.eqb Ascii.eqb Bool.eqb].
    assert (Hv : (static_score (as_features x)).2
                 = static_verdict (static_score (as_features x)).1) by reflexivity.
    unfold hybrid_score.
    destruct (static_score (as_features x)) as [sr sv]. cbn [fst snd] in Hv. subst sv.
    do 2 eexists. split; [reflexivity|].
    destruct logs as [d|]; [rewrite Hl|]; cbn [fst]; (split; [reflexivity|]);
      cbn [r_risk_score r_verdict r_features r_logs]; repeat split.
  - intros mode logs r.
    destruct (String.eqb_spec mode "static") as [->|_].
    { pose proof (static_score_unit (as_features x)) as Hu.
      destruct (static_score _) as [sr sv]. intros [= <-]. cbn. auto. }
    destruct (String.eqb_spec mode "dynamic") as [->|_].
    { match goal with |- context [dynamic_score ?l] =>
        pose proof (dynamic_score_unit l) as Hu; destruct (dynamic_score l) as [dr dv] end.
      intros [= <-]. cbn. auto. }
    destruct (String.eqb_spec mode "hybrid") as [->|_]; [|discriminate].
    pose proof (hybrid_score_unit (as_features x) logs) as Hu.
    destruct (hybrid_score _ _) as [hr hv]. intros [= <-]. cbn. auto.
Qed.

End RiskAnalyzeFacts.

(** ** The two extractions compared *)

Module ExtractFacts.
Import Analyzer RiskModel RiskAnalyze Spec Samples Visited.
Import StringFacts SetFacts AnalyzerFacts OrderFacts HitFacts AnswerFacts.

(** The signature [x] of the shorter table occurs in the text of the call. *)
Lemma append_needles_member (c : string) (acc : list string) (x : string) :
  x ∈ append_needles c acc <-> x ∈ acc \/ (x ∈ SUSPICIOUS_APIS /\ occurs x c).
Proof.
  unfold append_needles. generalize SUSPICIOUS_APIS as needles. intros needles.
  revert acc. induction needles as [|n needles IH]; intros acc; cbn [foldl].
  - rewrite elem_of_nil. tauto.
  - rewrite IH, elem_of_cons. destruct (str_in n c) eqn:E.
    + apply str_in_spec in E. rewrite elem_of_app, list_elem_of_singleton.
      intuition (subst; auto).
    + assert (~ occurs n c) by (rewrite <- str_in_spec; congruence).
      intuition (subst; tauto).
Qed.

Lemma append_xrefs_member (xs : list Xref) (acc : list string) (x : string) :
  x ∈ foldl (fun l s => append_needles (called s) l) acc xs
  <-> x ∈ acc \/ (x ∈ SUSPICIOUS_APIS /\ Exists (fun s => occurs x (called s)) xs).
Proof.
  revert acc. induction xs as [|s xs IH]; intros acc; cbn [foldl].
  - rewrite Exists_nil. tauto.
  - rewrite IH, append_needles_member, Exists_cons. tauto.
Qed.

Lemma scan_methods_member (ms : list Method) (acc : list string) (x : string) :
  x ∈ (scan_methods ms acc).1 ->
  x ∈ acc \/ (x ∈ SUSPICIOUS_APIS
              /\ Exists (fun s => occurs x (called s)) (concat (map method_xrefs ms))).
Proof.
  revert acc. induction ms as [|m ms IH]; intros acc; cbn [scan_methods map concat].
  - now left.
  - unfold method_xrefs at 1. destruct (get_xref_to m) as [xs|e]; [|now left].
    intros H. apply IH in H as [H|[Hn H]].
    + apply append_xrefs_member in H as [H|[Hn H]]; [now left|].
      right. split; [exact Hn|]. apply Exists_app. now left.
    + right. split; [exact Hn|]. apply Exists_app. now right.
Qed.

Lemma scan_classes_member (cs : list Class) (acc : list string) (x : string) :
  x ∈ scan_classes cs acc ->
  x ∈ acc \/ (x ∈ SUSPICIOUS_APIS
              /\ Exists (fun s => occurs x (called s)) (classes_xrefs cs)).
Proof.
  revert acc. induction cs as [|cls cs IH]; intros acc; cbn [scan_classes classes_xrefs].
  - now left.
  - destruct (get_methods cls) as [ms|e]; [|now left].
    pose proof (scan_methods_member ms acc x) as Hm.
    destruct (scan_methods ms acc) as [acc' raised]. cbn [fst] in Hm.
    intros H.
    assert (Hacc' : x ∈ acc' ->
              x ∈ acc \/ (x ∈ SUSPICIOUS_APIS
                /\ Exists (fun s => occurs x (called s))
                     (concat (map method_xrefs ms) ++ classes_xrefs cs))).
    { intros H'. destruct (Hm H') as [|[Hn He]]; [now left|].
      right. split; [exact Hn|]. apply Exists_app. now left. }
    destruct raised; [now apply Hacc'|].
    apply IH in H as [H|[Hn H]]; [now apply Hacc'|].
    right. split; [exact Hn|]. apply Exists_app. now right.
Qed.

Lemma short_table (x : string) : x ∈ SUSPICIOUS_APIS -> x ∈ SUSPICIOUS_API_SUBSTRINGS.
Proof.
  unfold SUSPICIOUS_APIS, SUSPICIOUS_API_SUBSTRINGS. rewrite !elem_of_cons. tauto.
Qed.

(** What the scan of [risk_model.py] collects, the scan of [analyzer.py]
    finds too. *)
Lemma scanned_apis_matched (dx : Analysis) (x : string) :
  x ∈ scanned_apis dx -> x ∈ SUSPICIOUS_APIS /\ x ∈ matched_hits dx.
Proof.
  unfold scanned_apis. intros H. rewrite matched_hits_member. unfold visited_xrefs.
  destruct (get_classes dx) as [cs|e]; [|now apply elem_of_nil in H].
  apply scan_classes_member in H as [H|[Hn H]]; [now apply elem_of_nil in H|].
  split; [exact Hn|]. eapply Exists_impl; [exact H|].
  intros s Hs. split; [now apply short_table|exact Hs].
Qed.

Lemma scan_methods_total (ms : list Method) (acc : list string) (x : string) :
  Forall (fun m => exists xs, get_xref_to m = Ret xs) ms ->
  (scan_methods ms acc).2 = false
  /\ (x ∈ (scan_methods ms acc).1
      <-> x ∈ acc \/ (x ∈ SUSPICIOUS_APIS
                      /\ Exists (fun s => occurs x (called s))
                           (concat (map method_xrefs ms)))).
Proof.
  revert acc. induction ms as [|m ms IH]; intros acc Hms; cbn [scan_methods map concat].
  - split; [reflexivity|]. rewrite Exists_nil. cbn [fst]. tauto.
  - inversion Hms as [|? ? [xs Hxs] Hms']; subst. unfold method_xrefs at 1. rewrite Hxs.
    destruct (IH (foldl (fun l s => append_needles (called s) l) acc xs) Hms') as [-> ->].
    split; [reflexivity|]. rewrite append_xrefs_member, Exists_app. tauto.
Qed.

Lemma scan_classes_total (cs : list Class) (acc : list string) (x : string) :
  Forall (fun cls => exists ms, get_methods cls = Ret ms
            /\ Forall (fun m => exists xs, get_xref_to m = Ret xs) ms) cs ->
  x ∈ scan_classes cs acc
  <-> x ∈ acc \/ (x ∈ SUSPICIOUS_APIS
                  /\ Exists (fun s => occurs x (called s)) (classes_xrefs cs)).
Proof.
  revert acc. induction cs as [|cls cs IH]; intros acc Hcs; cbn [scan_classes classes_xrefs].
  - rewrite Exists_nil. tauto.
  - inversion Hcs as [|? ? (ms & Hms & Hall) Hcs']; subst. rewrite Hms.
    destruct (scan_methods_total ms acc x Hall) as [Hr Hm].
    destruct (scan_methods ms acc) as [acc' raised]. cbn [fst snd] in Hr, Hm. subst raised.
    rewrite (IH acc' Hcs'), Hm, Exists_app. tauto.
Qed.

(** X18: the extraction of [risk_model.py] fails exactly when that of
    [analyzer.py] does, and otherwise agrees with it on package,
    permissions, receivers, services, providers and intents. Its
    suspicious APIs are ascending, without repetition and at most five, and
    each is also reported by [analyzer.py]; when no accessor of the
    analysis raises, they are exactly the analyzer's hits that are in the
    shorter table of [risk_model.py]. *)
Theorem X18_extractions_agree parse_apk (fs : gmap string (list ascii)) apk_path :
  (forall e, RiskAnalyze.extract_static_features parse_apk fs apk_path = Raise e
             <-> static_features parse_apk fs apk_path = Raise e)
  /\ (forall x, RiskAnalyze.extract_static_features parse_apk fs apk_path = Ret x ->
      exists feats a d dx,
        AnalyzeAPK parse_apk fs apk_path = Ret (a, d, dx)
        /\ static_features parse_apk fs apk_path = Ret feats
        /\ x_package x = package feats
        /\ x_permissions x = permissions feats
        /\ x_receivers x = receivers feats
        /\ x_services x = services feats
        /\ x_providers x = providers feats
        /\ x_intents x = intents feats
        /\ StronglySorted str_le (x_suspicious_apis x)
        /\ NoDup (x_suspicious_apis x)
        /\ length (x_suspicious_apis x) <= 5
        /\ (forall s, s ∈ x_suspicious_apis x ->
                      s ∈ SUSPICIOUS_APIS /\ s ∈ suspicious_apis feats)
        /\ (never_raises dx ->
            forall s, s ∈ x_suspicious_apis x
                      <-> s ∈ SUSPICIOUS_APIS /\ s ∈ suspicious_apis feats)).
Proof.
  split.
  { intros e. unfold RiskAnalyze.extract_static_features, static_features, getsize, AnalyzeAPK.
    destruct (fs !! apk_path) as [content|]; cbn [bind].
    - destruct (parse_apk content) as [[[a d] dx]|e']; cbn [bind].
      + split; discriminate.
      + split; intros [= ->]; reflexivity.
    - split; intros [= ->]; reflexivity. }
  intros x Hx. unfold RiskAnalyze.extract_static_features in Hx.
  destruct (AnalyzeAPK parse_apk fs apk_path) as [[[a d] dx]|e] eqn:Hp; [|discriminate].
  cbn [bind] in Hx. injection Hx as <-.
  destruct (AnalyzeAPK_file _ _ _ _ Hp) as (content & Hfile & _).
  eexists. exists a, d, dx. split; [reflexivity|].
  split. { unfold static_features, getsize. rewrite Hp, Hfile. reflexivity. }
  cbn.
  do 6 (split; [reflexivity|]).
  split; [apply sorted_ascending|]. split; [apply sorted_nodup|].
  assert (Hsub : forall s, s ∈ sorted_set (scanned_apis dx) ->
                           s ∈ SUSPICIOUS_APIS /\ s ∈ _match_suspicious_apis dx).
  { intros s Hs. apply elem_of_sorted_set, scanned_apis_matched in Hs as [Hn Hm].
    split; [exact Hn|]. unfold _match_suspicious_apis. now apply elem_of_sorted. }
  split.
  { unfold sorted_set. rewrite length_sorted.
    transitivity (size (list_to_set SUSPICIOUS_APIS : gset string)).
    - apply subseteq_size. intros s Hs. apply elem_of_list_to_set.
      apply (Hsub s). now apply elem_of_sorted.
    - rewrite size_list_to_set; [reflexivity|].
      apply (bool_decide_unpack _). vm_compute. exact I. }
  split; [exact Hsub|].
  intros (cs & Hcs & Hall) s. split; [apply Hsub|].
  intros [Hn Hm]. apply elem_of_sorted_set.
  unfold _match_suspicious_apis in Hm. apply elem_of_sorted, matched_hits_member in Hm.
  unfold scanned_apis, visited_xrefs in *. rewrite Hcs in *.
  apply scan_classes_total; [exact Hall|]. right. split; [exact Hn|].
  eapply Exists_impl; [exact Hm|]. now intros s' [_ Ho].
Qed.

End ExtractFacts.

(** ** The temporary file *)

Module TempFileFacts.
Import Analyzer Main Utils Samples.



End TempFileFacts.
